(** * Field-force tracker: check-in state machine, geodistance and daily summary

    A shallow embedding of the check-in routes
    ([backend/routes/checkin.js], both revisions kept in that file, and the
    Next.js route handlers), of the in-memory data layer ([lib/db.ts]) and of
    the daily-summary report ([routes/reports.js]).

    Modelling conventions.
    - In the check-in routes a JavaScript [number] that carries a coordinate
      or a distance is an idealised real number ([R]): [Math.sin],
      [Math.cos] and [Math.atan2] have no executable counterpart, and [NaN]
      and the infinities are outside that part of the model.  The arithmetic
      of the daily summary (sums, quotients, [Math.round]) is also given on
      IEEE-754 binary64 numbers ([Js64], [Reports64]), where the two differ.
      Row ids, counters and HTTP status codes are integers ([Z], [nat]).
    - A timestamp (an ISO-8601 string in the source) is the number of
      milliseconds since the epoch, which is what [new Date(s)] turns it into
      when two timestamps are subtracted; ordering timestamps is ordering
      these numbers.
    - A SQL table and a module-level array are both a [list] of rows in
      insertion order; [null]/[undefined] is [None].
    - A route handler is a function from the store, the authenticated user,
      the clock and the request to a response and the next store.  The
      handler runs as one step: the database wrapper resolves every statement
      synchronously, and the in-memory handlers contain no suspension point
      between their reads and writes. *)

From Stdlib Require Import PrimFloat SpecFloat FloatOps.
From Stdlib Require Uint63.
From Stdlib Require Import Reals Lra Lia ZArith List String Bool.
From Stdlib Require Import Permutation Sorted.
Import ListNotations.

#[local] Set Warnings "-inexact-float".

Open Scope Z_scope.
Open Scope R_scope.
Open Scope string_scope.

(** ** JavaScript numbers *)

Module Js.

(** Truthiness of a number: every number but [0] (and [NaN]) is truthy. *)
Definition truthy (x : R) : bool :=
  if Req_dec_T x 0 then false else true.

(** Truthiness of a possibly missing number ([undefined] and [null] are
    falsy). *)
Definition truthy_opt (o : option R) : bool :=
  match o with
  | Some x => truthy x
  | None => false
  end.

(** [a > b], [a < b] on numbers, as booleans. *)
Definition gt (a b : R) : bool := if Rlt_dec b a then true else false.
Definition lt (a b : R) : bool := if Rlt_dec a b then true else false.

(** [Math.round] on an exact real: the nearest integer, ties towards plus
    infinity.  The binary64 function is [Js64.round]. *)
Definition round (x : R) : R := IZR (Zfloor (x + / 2)).

(** [Math.round(x * 100) / 100] on an exact real, with exact product and
    quotient; it differs from the binary64 [Js64.round2] where [x * 100]
    rounds onto or off a tie. *)
Definition round2 (x : R) : R := round (x * 100) / 100.

(** [Math.atan2(y, x)]. *)
Definition atan2 (y x : R) : R :=
  if Rlt_dec 0 x then atan (y / x)
  else if Rlt_dec x 0 then
    (if Rle_dec 0 y then atan (y / x) + PI else atan (y / x) - PI)
  else if Rlt_dec 0 y then PI / 2
  else if Rlt_dec y 0 then - (PI / 2)
  else 0.

End Js.

(** ** Geodistance ([calculateDistance], the same text in [lib/db.ts],
       [routes/checkin.js] and the Next.js check-in route) *)

Module Geo.

(** The haversine formula over exact reals: no rounding of the
    intermediate results, and [a] within [0, 1] always. *)
Definition toRad (deg : R) : R := deg * (PI / 180).

Definition calculateDistance (lat1 lon1 lat2 lon2 : R) : R :=
  let R_earth := 6371 in
  let dLat := toRad (lat2 - lat1) in
  let dLon := toRad (lon2 - lon1) in
  let a :=
    sin (dLat / 2) * sin (dLat / 2) +
    cos (toRad lat1) * cos (toRad lat2) *
    sin (dLon / 2) * sin (dLon / 2) in
  let c := 2 * Js.atan2 (sqrt a) (sqrt (1 - a)) in
  R_earth * c.

(** [calculateDistanceKm] of the second revision of [routes/checkin.js]:
    [toRad] divides after multiplying and the squares are written [** 2]. *)
Definition toRadKm (deg : R) : R := (deg * PI) / 180.

Definition calculateDistanceKm (lat1 lon1 lat2 lon2 : R) : R :=
  let R_earth := 6371 in
  let dLat := toRadKm (lat2 - lat1) in
  let dLon := toRadKm (lon2 - lon1) in
  let a :=
    (sin (dLat / 2)) ^ 2 +
    cos (toRadKm lat1) * cos (toRadKm lat2) * (sin (dLon / 2)) ^ 2 in
  let c := 2 * Js.atan2 (sqrt a) (sqrt (1 - a)) in
  R_earth * c.

End Geo.

(** ** Data model ([lib/db.ts] interfaces; the SQL tables have the same
       columns) *)

Inductive Role := role_employee | role_manager.

Inductive Status := checked_in | checked_out.

Definition Status_eqb (a b : Status) : bool :=
  match a, b with
  | checked_in, checked_in | checked_out, checked_out => true
  | _, _ => false
  end.

Module User.
Record t := mk {
  id : Z;
  name : string;
  email : string;
  password : string;
  role : Role;
  manager_id : option Z
}.
End User.

Module Client.
Record t := mk {
  id : Z;
  name : string;
  address : string;
  latitude : option R;
  longitude : option R
}.
End Client.

Module EmployeeClient.
Record t := mk {
  id : Z;
  employee_id : Z;
  client_id : Z;
  assigned_date : string
}.
End EmployeeClient.

Module Checkin.
Record t := mk {
  id : Z;
  employee_id : Z;
  client_id : Z;
  checkin_time : Z;
  checkout_time : option Z;
  latitude : option R;
  longitude : option R;
  distance_from_client : option R;
  notes : option string;
  status : Status
}.

(** The two assignments of a checkout: [checkout_time] and [status]. *)
Definition close (now : Z) (c : t) : t :=
  mk (id c) (employee_id c) (client_id c) (checkin_time c) (Some now)
     (latitude c) (longitude c) (distance_from_client c) (notes c)
     checked_out.

Definition is_active (c : t) : bool := Status_eqb (status c) checked_in.

(** [employee_id = ? AND status = 'checked_in'] *)
Definition active_of (employeeId : Z) (c : t) : bool :=
  (employee_id c =? employeeId)%Z && is_active c.
End Checkin.

(** The four collections the routes read and write. *)
Record Store := mkStore {
  users : list User.t;
  clients : list Client.t;
  employeeClients : list EmployeeClient.t;
  checkins : list Checkin.t
}.

Definition with_checkins (s : Store) (cs : list Checkin.t) : Store :=
  mkStore (users s) (clients s) (employeeClients s) cs.

(** ** HTTP responses *)

Module Http.

(** A check-in row with the client columns joined to it
    ([SELECT ch.*, c.name as client_name, c.address as client_address ...
    LEFT JOIN clients c]). *)
Record joined := mkJoined {
  row : Checkin.t;
  client_name : option string;
  client_address : option string
}.

(** A check-in row with the client's name only
    ([SELECT ch.*, c.name as client_name ...]). *)
Record named := mkNamed {
  named_row : Checkin.t;
  named_client : option string
}.

Definition name_only (j : joined) : named :=
  mkNamed (row j) (client_name j).

Inductive body :=
| Failure (message : string)
| Success (message : string)
| Created (id : Z) (distance_from_client : option R)
          (distance_warning : option string)
| WithRow (data : joined + Z) (message : string)
          (distance_warning : option string).

Record response := mk { status : Z; payload : body }.

Definition json (code : Z) (b : body) : response := mk code b.

End Http.

(** ** The in-memory data layer ([lib/db.ts]) *)

Module Db.

Definition seed_users : list User.t :=
  [ User.mk 1 "Amit Sharma" "manager@unolo.com" "password123" role_manager None;
    User.mk 2 "Rahul Kumar" "rahul@unolo.com" "password123" role_employee (Some 1%Z);
    User.mk 3 "Priya Singh" "priya@unolo.com" "password123" role_employee (Some 1%Z);
    User.mk 4 "Vikram Patel" "vikram@unolo.com" "password123" role_employee (Some 1%Z) ].

Definition seed_clients : list Client.t :=
  [ Client.mk 1 "ABC Corp" "Cyber City, Gurugram" (Some 28.4946) (Some 77.0887);
    Client.mk 2 "XYZ Ltd" "Sector 44, Gurugram" (Some 28.4595) (Some 77.0266);
    Client.mk 3 "Tech Solutions" "DLF Phase 3, Gurugram" (Some 28.4947) (Some 77.0952);
    Client.mk 4 "Global Services" "Udyog Vihar, Gurugram" (Some 28.5011) (Some 77.0838);
    Client.mk 5 "Innovate Inc" "Sector 18, Noida" (Some 28.5707) (Some 77.3219) ].

Definition seed_employeeClients : list EmployeeClient.t :=
  [ EmployeeClient.mk 1 2 1 "2024-01-01";
    EmployeeClient.mk 2 2 2 "2024-01-01";
    EmployeeClient.mk 3 2 3 "2024-01-15";
    EmployeeClient.mk 4 3 2 "2024-01-01";
    EmployeeClient.mk 5 3 4 "2024-01-01";
    EmployeeClient.mk 6 4 1 "2024-01-10";
    EmployeeClient.mk 7 4 5 "2024-01-10" ].

(** The seed check-ins; 2024-01-15T00:00:00 is 1705276800000 ms. *)
Definition seed_checkins : list Checkin.t :=
  [ Checkin.mk 1 2 1 1705310100000 (Some 1705318200000%Z)
      (Some 28.4946) (Some 77.0887) (Some 0.05) (Some "Regular visit") checked_out;
    Checkin.mk 2 2 2 1705320000000 (Some 1705327200000%Z)
      (Some 28.4595) (Some 77.0266) (Some 0.02) (Some "Product demo") checked_out;
    Checkin.mk 3 2 3 1705330800000 (Some 1705339800000%Z)
      (Some 28.4947) (Some 77.0952) (Some 0.03) (Some "Follow up meeting") checked_out;
    Checkin.mk 4 3 2 1705311000000 (Some 1705320000000%Z)
      (Some 28.4595) (Some 77.0266) (Some 0.01) (Some "Contract discussion") checked_out;
    Checkin.mk 5 3 4 1705323600000 (Some 1705334400000%Z)
      (Some 28.5011) (Some 77.0838) (Some 0.04) (Some "New requirements") checked_out ].

Definition seed : Store :=
  mkStore seed_users seed_clients seed_employeeClients seed_checkins.

Module users_.
Definition findById (s : Store) (id : Z) : option User.t :=
  find (fun u => (User.id u =? id)%Z) (users s).

Definition findByManagerId (s : Store) (managerId : Z) : list User.t :=
  filter (fun u => match User.manager_id u with
                   | Some m => (m =? managerId)%Z
                   | None => false
                   end) (users s).

Definition findByEmail (s : Store) (email : string) : option User.t :=
  find (fun u => String.eqb (User.email u) email) (users s).

End users_.

Module clients_.
Definition findById (s : Store) (id : Z) : option Client.t :=
  find (fun c => (Client.id c =? id)%Z) (clients s).

(** [getByEmployeeId]: the clients whose id occurs among the employee's
    assignments, in the order of the [clients] array. *)
Definition getByEmployeeId (s : Store) (employeeId : Z) : list Client.t :=
  let clientIds :=
    map EmployeeClient.client_id
        (filter (fun ec => (EmployeeClient.employee_id ec =? employeeId)%Z)
                (employeeClients s)) in
  filter (fun c => existsb (Z.eqb (Client.id c)) clientIds) (clients s).

(** [create]: the new client takes [clients.length + 1] as its id and is
    pushed at the end of the array. *)
Definition create (s : Store) (name address : string)
           (latitude longitude : option R) : Client.t * Store :=
  let newClient :=
    Client.mk (Z.of_nat (List.length (clients s)) + 1)%Z name address
              latitude longitude in
  (newClient,
   mkStore (users s) (clients s ++ [newClient]) (employeeClients s)
           (checkins s)).

End clients_.

Module employeeClients_.
Definition isAssigned (s : Store) (employeeId clientId : Z) : bool :=
  existsb (fun ec => (EmployeeClient.employee_id ec =? employeeId)%Z &&
                     (EmployeeClient.client_id ec =? clientId)%Z)
          (employeeClients s).

(** [assign]; [today] is [new Date().toISOString().split('T')[0]]. *)
Definition assign (s : Store) (employeeId clientId : Z) (today : string)
  : EmployeeClient.t * Store :=
  let newAssignment :=
    EmployeeClient.mk (Z.of_nat (List.length (employeeClients s)) + 1)%Z
                      employeeId clientId today in
  (newAssignment,
   mkStore (users s) (clients s) (employeeClients s ++ [newAssignment])
           (checkins s)).

Definition getByEmployeeId (s : Store) (employeeId : Z)
  : list EmployeeClient.t :=
  filter (fun ec => (EmployeeClient.employee_id ec =? employeeId)%Z)
         (employeeClients s).

End employeeClients_.

Module checkins_.
Definition findById (s : Store) (id : Z) : option Checkin.t :=
  find (fun c => (Checkin.id c =? id)%Z) (checkins s).

Definition getActiveByEmployeeId (s : Store) (employeeId : Z)
  : option Checkin.t :=
  find (Checkin.active_of employeeId) (checkins s).

(** [create]: the new row takes [checkins.length + 1] as its id and is
    pushed at the end of the array. *)
Definition create (s : Store) (checkin : Z -> Checkin.t)
  : Checkin.t * Store :=
  let newCheckin := checkin (Z.of_nat (List.length (checkins s)) + 1)%Z in
  (newCheckin, with_checkins s (checkins s ++ [newCheckin])).

(** The array after [checkout]: the first row that [find] reaches with the
    given id is assigned in place. *)
Fixpoint checkout_rows (checkinId now : Z) (rows : list Checkin.t)
  : list Checkin.t :=
  match rows with
  | [] => []
  | c :: rest =>
      if (Checkin.id c =? checkinId)%Z
      then Checkin.close now c :: rest
      else c :: checkout_rows checkinId now rest
  end.

Definition checkout (s : Store) (checkinId now : Z)
  : option Checkin.t * Store :=
  match findById s checkinId with
  | Some c =>
      (Some (Checkin.close now c),
       with_checkins s (checkout_rows checkinId now (checkins s)))
  | None => (None, s)
  end.

Definition getByEmployeeId (s : Store) (employeeId : Z) : list Checkin.t :=
  filter (fun c => (Checkin.employee_id c =? employeeId)%Z) (checkins s).

(** [c.checkin_time.split('T')[0]], the calendar day of a timestamp, counted
    in days since the epoch. *)
Definition checkinDate (c : Checkin.t) : Z :=
  (Checkin.checkin_time c / 86400000)%Z.

(** [getByDateRange]; a bound that is missing (or the empty string) does not
    filter. *)
Definition getByDateRange (s : Store) (employeeId : Z)
           (startDate endDate : option Z) : list Checkin.t :=
  filter (fun c =>
            if negb (Checkin.employee_id c =? employeeId)%Z then false
            else if match startDate with
                    | Some d => (checkinDate c <? d)%Z
                    | None => false
                    end then false
            else if match endDate with
                    | Some d => (d <? checkinDate c)%Z
                    | None => false
                    end then false
            else true)
         (checkins s).

(** [getTodayByManagerId]; [today] is the calendar day of the clock. *)
Definition getTodayByManagerId (s : Store) (managerId today : Z)
  : list Checkin.t :=
  let teamMemberIds := map User.id (users_.findByManagerId s managerId) in
  filter (fun c => existsb (Z.eqb (Checkin.employee_id c)) teamMemberIds &&
                   (checkinDate c =? today)%Z)
         (checkins s).

Definition getActiveCountByManagerId (s : Store) (managerId : Z) : nat :=
  let teamMemberIds := map User.id (users_.findByManagerId s managerId) in
  List.length
    (filter (fun c => existsb (Z.eqb (Checkin.employee_id c)) teamMemberIds &&
                      Checkin.is_active c)
            (checkins s)).

(** [new Set(array)]: the distinct elements in order of first occurrence. *)
Definition new_Set (l : list Z) : list Z :=
  fold_left (fun set x => if existsb (Z.eqb x) set then set
                          else (set ++ [x])%list) l [].

(** [getWeekStatsByEmployeeId]: [(total_checkins, unique_clients)]; [now] is
    the clock, and seven days are 604800000 ms. *)
Definition getWeekStatsByEmployeeId (s : Store) (employeeId now : Z)
  : nat * nat :=
  let weekAgo := (now - 604800000)%Z in
  let weekCheckins :=
    filter (fun c => if negb (Checkin.employee_id c =? employeeId)%Z
                     then false
                     else (weekAgo <=? Checkin.checkin_time c)%Z)
           (checkins s) in
  let uniqueClients := new_Set (map Checkin.client_id weekCheckins) in
  (List.length weekCheckins, List.length uniqueClients).

End checkins_.

End Db.

(** ** SQL statements of [routes/checkin.js] over the tables *)

Module Sql.

(** [SELECT * FROM employee_clients WHERE employee_id = ? AND client_id = ?] *)
Definition assignments (s : Store) (employeeId clientId : Z)
  : list EmployeeClient.t :=
  filter (fun ec => (EmployeeClient.employee_id ec =? employeeId)%Z &&
                    (EmployeeClient.client_id ec =? clientId)%Z)
         (employeeClients s).

(** [SELECT * FROM checkins WHERE employee_id = ? AND status = "checked_in"] *)
Definition activeCheckins (s : Store) (employeeId : Z) : list Checkin.t :=
  filter (Checkin.active_of employeeId) (checkins s).

(** [SELECT latitude, longitude FROM clients WHERE id = ?] *)
Definition clientsById (s : Store) (clientId : Z) : list Client.t :=
  filter (fun c => (Client.id c =? clientId)%Z) (clients s).

(** [ORDER BY checkin_time DESC LIMIT 1]: a row with the greatest
    [checkin_time]; among equal times the one inserted first. *)
Fixpoint latest (rows : list Checkin.t) : list Checkin.t :=
  match rows with
  | [] => []
  | r :: rest =>
      match latest rest with
      | r' :: _ =>
          if (Checkin.checkin_time r <? Checkin.checkin_time r')%Z
          then [r'] else [r]
      | [] => [r]
      end
  end.

(** The id an [INSERT] gives the new row: one more than the greatest id in
    the table. *)
Definition insertId (rows : list Checkin.t) : Z :=
  (fold_right Z.max 0 (map Checkin.id rows) + 1)%Z.

(** [UPDATE checkins SET checkout_time = datetime('now'),
    status = "checked_out" WHERE id = ?] *)
Definition updateCheckout (checkinId now : Z) (rows : list Checkin.t)
  : list Checkin.t :=
  map (fun c => if (Checkin.id c =? checkinId)%Z
                then Checkin.close now c else c) rows.

(** The same [UPDATE] with [WHERE id = ? AND status = ?]. *)
Definition updateCheckoutIfActive (checkinId now : Z)
           (rows : list Checkin.t) : list Checkin.t :=
  map (fun c => if (Checkin.id c =? checkinId)%Z && Checkin.is_active c
                then Checkin.close now c else c) rows.

(** [SELECT ch.*, c.name as client_name, c.address as client_address
    FROM checkins ch LEFT JOIN clients c ON ch.client_id = c.id
    WHERE ch.id = ? LIMIT 1] *)
Definition selectJoined (s : Store) (checkinId : Z) : list Http.joined :=
  match find (fun c => (Checkin.id c =? checkinId)%Z) (checkins s) with
  | Some ch =>
      match find (fun c => (Client.id c =? Checkin.client_id ch)%Z)
                 (clients s) with
      | Some c => [Http.mkJoined ch (Some (Client.name c))
                                 (Some (Client.address c))]
      | None => [Http.mkJoined ch None None]
      end
  | None => []
  end.


(** [DATE(ch.checkin_time)], in days since the epoch. *)
Definition DATE (t : Z) : Z := (t / 86400000)%Z.

(** [checkins ch INNER JOIN clients c ON ch.client_id = c.id], for one
    check-in. *)
Definition innerJoinClients (s : Store) (ch : Checkin.t)
  : list Http.joined :=
  map (fun c => Http.mkJoined ch (Some (Client.name c))
                              (Some (Client.address c)))
      (filter (fun c => (Checkin.client_id ch =? Client.id c)%Z) (clients s)).

(** [checkins ch LEFT JOIN clients c ON ch.client_id = c.id], for one
    check-in: without a client the check-in is kept with null client
    columns. *)
Definition leftJoinClients (s : Store) (ch : Checkin.t)
  : list Http.joined :=
  match innerJoinClients s ch with
  | [] => [Http.mkJoined ch None None]
  | matches => matches
  end.

(** [ORDER BY ch.checkin_time DESC], a stable sort. *)
Fixpoint insert_desc (r : Http.joined) (rows : list Http.joined)
  : list Http.joined :=
  match rows with
  | [] => [r]
  | r' :: rest =>
      if (Checkin.checkin_time (Http.row r') <=?
          Checkin.checkin_time (Http.row r))%Z
      then r :: rows else r' :: insert_desc r rest
  end.

Definition order_desc (rows : list Http.joined) : list Http.joined :=
  fold_right insert_desc [] rows.

(** [WHERE ch.employee_id = ? [AND DATE(ch.checkin_time) >= ?]
    [AND DATE(ch.checkin_time) <= ?]]; a bound is added when the query
    parameter is present and not empty. *)
Definition historyFilter (employeeId : Z) (start_date end_date : option Z)
           (ch : Checkin.t) : bool :=
  (Checkin.employee_id ch =? employeeId)%Z &&
  match start_date with
  | Some d => (d <=? DATE (Checkin.checkin_time ch))%Z
  | None => true
  end &&
  match end_date with
  | Some d => (DATE (Checkin.checkin_time ch) <=? d)%Z
  | None => true
  end.

(** [LIMIT 1]. *)
Definition limit1 {A : Type} (rows : list A) : option A :=
  match rows with
  | r :: _ => Some r
  | [] => None
  end.

(** How the engine prepares a statement that holds a double-quoted token
    naming no column, as ["checked_in"] and ["checked_out"] in the first
    revision of [routes/checkin.js].  SQLite's legacy default (and MySQL, for
    which the first revision was written) reads a string literal.  A build
    with [SQLITE_DQS=0] rejects the statement with "no such column"; that is
    the build of the [better-sqlite3] package that [config/database.js]
    loads, so there [pool.execute] rejects and the handler's [catch] block
    answers. *)
Inductive Engine := reads_string_literal | rejects_statement.

Definition better_sqlite3 : Engine := rejects_statement.

End Sql.

(** The body of [POST /checkin] after JSON parsing, when each coordinate is a
    number or is not there; [Request] below also has [null] coordinates. *)
Record CheckinBody := mkBody {
  body_client_id : option Z;
  body_latitude : option R;
  body_longitude : option R;
  body_notes : option string
}.

(** [!client_id] is false exactly for a present, non-zero id. *)
Definition truthy_id (o : option Z) : bool :=
  match o with
  | Some c => negb (c =? 0)%Z
  | None => false
  end.

(** [notes || null]: the empty string counts as absent. *)
Definition or_null (o : option string) : option string :=
  match o with
  | Some "" => None
  | other => other
  end.

Definition far_warning : string := "You are far from the client location".

(** A coordinate of the JSON body: the key is missing ([undefined] after
    destructuring), or its value is [null], or a number. *)
Module Json.
Inductive coordinate := missing | null | number (x : R).
End Json.

(** The JSON body of a check-in request: [client_id] an integer, [notes] a
    string, each of them possibly missing or [null] (both are falsy and
    treated alike by the three handlers); each coordinate as [Json.coordinate]
    has it. *)
Record Request := mkRequest {
  request_client_id : option Z;
  request_latitude : Json.coordinate;
  request_longitude : Json.coordinate;
  request_notes : option string
}.

(** A coordinate as a number or nothing. *)
Definition number_of (c : Json.coordinate) : option R :=
  match c with
  | Json.number x => Some x
  | Json.null | Json.missing => None
  end.

Definition coordinate_of (o : option R) : Json.coordinate :=
  match o with
  | Some x => Json.number x
  | None => Json.missing
  end.

Definition body_of (req : Request) : CheckinBody :=
  mkBody (request_client_id req) (number_of (request_latitude req))
         (number_of (request_longitude req)) (request_notes req).

Definition request_of (body : CheckinBody) : Request :=
  mkRequest (body_client_id body) (coordinate_of (body_latitude body))
            (coordinate_of (body_longitude body)) (body_notes body).

(** ** [routes/checkin.js], first revision *)

Module ExpressV1.

(** The distance block of [router.post('/')]: both pairs of coordinates are
    tested with [&&], that is by truthiness. *)
Definition distance (clients : list Client.t) (latitude longitude : option R)
  : option R * option string :=
  match clients, latitude, longitude with
  | client :: _, Some lat, Some lon =>
      if Js.truthy lat && Js.truthy lon then
        match Client.latitude client, Client.longitude client with
        | Some clat, Some clon =>
            if Js.truthy clat && Js.truthy clon then
              let distanceFromClient :=
                Js.round2 (Geo.calculateDistance lat lon clat clon) in
              (Some distanceFromClient,
               if Js.gt distanceFromClient 0.5
               then Some far_warning else None)
            else (None, None)
        | _, _ => (None, None)
        end
      else (None, None)
  | _, _, _ => (None, None)
  end.

(** Modelled from the spec: the schema of the [checkins] table is not part of
    the sources, and the [INSERT] of this revision names no [checkin_time];
    the column default that fills it is the current timestamp (section 4.2,
    "insert new Checkin row with status=checked_in, checkin_time = current
    timestamp"). *)
Definition default_checkin_time (now : Z) : Z := now.

(** The [try] block of [router.post('/')], every statement being accepted
    by the engine ([Sql.reads_string_literal]); [post] below adds the [catch]
    block.  A coordinate missing from the body is bound as [NULL]. *)
Definition post_checkin (s : Store) (userId now : Z) (body : CheckinBody)
  : Http.response * Store :=
  match body_client_id body with
  | Some client_id =>
      if negb (truthy_id (Some client_id)) then
        (Http.json 400 (Http.Failure "Client ID is required"), s)
      else if (List.length (Sql.assignments s userId client_id) =? 0)%nat then
        (Http.json 403 (Http.Failure "You are not assigned to this client"), s)
      else if (0 <? List.length (Sql.activeCheckins s userId))%nat then
        (Http.json 400
           (Http.Failure
              "You already have an active check-in. Please checkout first."),
         s)
      else
        let '(distanceFromClient, distanceWarning) :=
          distance (Sql.clientsById s client_id)
                   (body_latitude body) (body_longitude body) in
        let insertId := Sql.insertId (checkins s) in
        let inserted :=
          Checkin.mk insertId userId client_id (default_checkin_time now)
                     None (body_latitude body) (body_longitude body)
                     distanceFromClient (or_null (body_notes body))
                     checked_in in
        (Http.json 201
           (Http.Created insertId distanceFromClient distanceWarning),
         with_checkins s (checkins s ++ [inserted]))
  | None => (Http.json 400 (Http.Failure "Client ID is required"), s)
  end.

(** The [SELECT] of [router.put('/checkout')]:
    [SELECT * FROM checkins WHERE employee_id = ?
     ORDER BY checkin_time DESC LIMIT 1]. *)
Definition lastCheckin (s : Store) (userId : Z) : list Checkin.t :=
  Sql.latest (filter (fun c => (Checkin.employee_id c =? userId)%Z)
                     (checkins s)).

(** The [try] block of [router.put('/checkout')], every statement being
    accepted by the engine; [checkout] below adds the [catch] block. *)
Definition put_checkout (s : Store) (userId now : Z)
  : Http.response * Store :=
  match lastCheckin s userId with
  | [] => (Http.json 404 (Http.Failure "No active check-in found"), s)
  | active :: _ =>
      (Http.json 200 (Http.Success "Checked out successfully"),
       with_checkins s
         (Sql.updateCheckout (Checkin.id active) now (checkins s)))
  end.


(** [router.post('/')] with its [catch] block, on a JSON body.  A [null]
    coordinate is falsy like a missing one.  The [SELECT] of line 63 compares
    [status] with the double-quoted ["checked_in"]: on an engine that rejects
    the statement, [pool.execute] rejects after the two guards that come
    before it, and the handler answers 500. *)
Definition post (engine : Sql.Engine) (s : Store) (userId now : Z)
           (req : Request) : Http.response * Store :=
  match engine with
  | Sql.reads_string_literal => post_checkin s userId now (body_of req)
  | Sql.rejects_statement =>
      match request_client_id req with
      | Some client_id =>
          if negb (truthy_id (Some client_id)) then
            (Http.json 400 (Http.Failure "Client ID is required"), s)
          else if (List.length (Sql.assignments s userId client_id) =? 0)%nat
          then
            (Http.json 403
               (Http.Failure "You are not assigned to this client"), s)
          else (Http.json 500 (Http.Failure "Check-in failed"), s)
      | None => (Http.json 400 (Http.Failure "Client ID is required"), s)
      end
  end.

(** [router.put('/checkout')] with its [catch] block: the [UPDATE] of line
    139 holds the double-quoted ["checked_out"]. *)
Definition checkout (engine : Sql.Engine) (s : Store) (userId now : Z)
  : Http.response * Store :=
  match engine with
  | Sql.reads_string_literal => put_checkout s userId now
  | Sql.rejects_statement =>
      match lastCheckin s userId with
      | [] => (Http.json 404 (Http.Failure "No active check-in found"), s)
      | _ :: _ => (Http.json 500 (Http.Failure "Checkout failed"), s)
      end
  end.

(** [router.get('/clients')]: one row for each pair of a client and an
    assignment of the employee to it. *)
Definition get_clients (s : Store) (userId : Z) : list Client.t :=
  flat_map
    (fun c =>
       map (fun _ => c)
           (filter (fun ec => (Client.id c =? EmployeeClient.client_id ec)%Z &&
                              (EmployeeClient.employee_id ec =? userId)%Z)
                   (employeeClients s)))
    (clients s).

(** [router.get('/history')]; the dates are calendar days. *)
Definition get_history (s : Store) (userId : Z)
           (start_date end_date : option Z) : list Http.joined :=
  Sql.order_desc
    (flat_map (Sql.innerJoinClients s)
              (filter (Sql.historyFilter userId start_date end_date)
                      (checkins s))).

(** [router.get('/active')]: the [data] of the response; the query selects
    the client's name, not its address. *)
Definition get_active (s : Store) (userId : Z) : option Http.named :=
  option_map Http.name_only
    (Sql.limit1
       (Sql.order_desc
          (flat_map (Sql.innerJoinClients s)
                    (filter (Checkin.active_of userId) (checkins s))))).

End ExpressV1.

(** ** [routes/checkin.js], second revision (transactional) *)

Module ExpressV2.

Definition isValidLatitude (v : R) : bool :=
  negb (Js.lt v (-90)) && negb (Js.gt v 90).

Definition isValidLongitude (v : R) : bool :=
  negb (Js.lt v (-180)) && negb (Js.gt v 180).

Definition getMostRecentActiveCheckin (s : Store) (employeeId : Z)
  : list Checkin.t :=
  Sql.latest (filter (Checkin.active_of employeeId) (checkins s)).

(** The distance block: presence is tested against [null]. *)
Definition distance (clients : list Client.t) (lat lng : option R)
  : option R * option string :=
  match clients, lat, lng with
  | client :: _, Some lat, Some lng =>
      match Client.latitude client, Client.longitude client with
      | Some clientLat, Some clientLng =>
          let distanceFromClient :=
            Js.round2 (Geo.calculateDistanceKm lat lng clientLat clientLng) in
          (Some distanceFromClient,
           if Js.gt distanceFromClient 0.5 then Some far_warning else None)
      | _, _ => (None, None)
      end
  | _, _, _ => (None, None)
  end.

Definition validLat (lat : option R) : bool :=
  match lat with Some v => isValidLatitude v | None => true end.

Definition validLng (lng : option R) : bool :=
  match lng with Some v => isValidLongitude v | None => true end.

Definition one_missing (lat lng : option R) : bool :=
  match lat, lng with
  | Some _, None | None, Some _ => true
  | _, _ => false
  end.

(** [router.post('/')], for a body whose coordinates are numbers or
    missing. *)
Definition post_checkin (s : Store) (employeeId now : Z) (body : CheckinBody)
  : Http.response * Store :=
  let lat := body_latitude body in
  let lng := body_longitude body in
  match body_client_id body with
  | Some client_id =>
      if negb (truthy_id (Some client_id)) then
        (Http.json 400 (Http.Failure "client_id is required"), s)
      else if one_missing lat lng then
        (Http.json 400
           (Http.Failure "latitude and longitude must be valid numbers"), s)
      else if negb (validLat lat) then
        (Http.json 400 (Http.Failure "latitude out of range (-90 to 90)"), s)
      else if negb (validLng lng) then
        (Http.json 400
           (Http.Failure "longitude out of range (-180 to 180)"), s)
      else
        let safeNotes :=
          option_map (fun n => substring 0 2000 n) (body_notes body) in
        if (List.length (Sql.assignments s employeeId client_id) =? 0)%nat
        then
          (Http.json 403
             (Http.Failure "You are not assigned to this client"), s)
        else if (0 <? List.length
                        (getMostRecentActiveCheckin s employeeId))%nat then
          (Http.json 400
             (Http.Failure
                "You already have an active check-in. Please checkout first."),
           s)
        else
          let '(distanceFromClient, distanceWarning) :=
            distance (Sql.clientsById s client_id) lat lng in
          let newId := Sql.insertId (checkins s) in
          let inserted :=
            Checkin.mk newId employeeId client_id now None lat lng
                       distanceFromClient safeNotes checked_in in
          let s' := with_checkins s (checkins s ++ [inserted]) in
          let data :=
            match Sql.selectJoined s' newId with
            | r :: _ => inl r
            | [] => inr newId
            end in
          (Http.json 201
             (Http.WithRow data "Checked in successfully" distanceWarning),
           s')
  | None => (Http.json 400 (Http.Failure "client_id is required"), s)
  end.

(** [latitude !== undefined ? parseFloat(latitude) : null]: [None] is [null]
    (the key is missing), [Some None] is [NaN] ([parseFloat(null)]) and
    [Some (Some x)] a number. *)
Definition parse (c : Json.coordinate) : option (option R) :=
  match c with
  | Json.missing => None
  | Json.null => Some None
  | Json.number x => Some (Some x)
  end.

(** [latitude !== undefined]. *)
Definition defined (c : Json.coordinate) : bool :=
  match c with
  | Json.missing => false
  | Json.null | Json.number _ => true
  end.

(** [lat === null]. *)
Definition is_null (v : option (option R)) : bool :=
  match v with
  | None => true
  | Some _ => false
  end.

(** [lat !== null && !isValidLatitude(lat)]: [NaN] is not finite. *)
Definition out_of_range (isValid : R -> bool) (v : option (option R)) : bool :=
  match v with
  | None => false
  | Some None => true
  | Some (Some x) => negb (isValid x)
  end.

(** [router.post('/')] on a JSON body.  A request that passes the checks
    before the transaction has two numbers or nothing as coordinates; the
    rest of the handler is [post_checkin] on it. *)
Definition post (s : Store) (employeeId now : Z) (req : Request)
  : Http.response * Store :=
  let lat := parse (request_latitude req) in
  let lng := parse (request_longitude req) in
  if negb (truthy_id (request_client_id req)) then
    (Http.json 400 (Http.Failure "client_id is required"), s)
  else if (defined (request_latitude req) ||
           defined (request_longitude req)) &&
          (is_null lat || is_null lng) then
    (Http.json 400
       (Http.Failure "latitude and longitude must be valid numbers"), s)
  else if out_of_range isValidLatitude lat then
    (Http.json 400 (Http.Failure "latitude out of range (-90 to 90)"), s)
  else if out_of_range isValidLongitude lng then
    (Http.json 400 (Http.Failure "longitude out of range (-180 to 180)"), s)
  else post_checkin s employeeId now (body_of req).

(** [router.put('/checkout')]. *)
Definition put_checkout (s : Store) (employeeId now : Z)
  : Http.response * Store :=
  match getMostRecentActiveCheckin s employeeId with
  | [] => (Http.json 404 (Http.Failure "No active check-in found"), s)
  | checkin :: _ =>
      let s' :=
        with_checkins s
          (Sql.updateCheckoutIfActive (Checkin.id checkin) now
                                      (checkins s)) in
      let data :=
        match Sql.selectJoined s' (Checkin.id checkin) with
        | r :: _ => inl r
        | [] => inr (Checkin.id checkin)
        end in
      (Http.json 200 (Http.WithRow data "Checked out successfully" None), s')
  end.


(** [router.get('/clients')]. *)
Definition get_clients (s : Store) (userId : Z) : list Client.t :=
  ExpressV1.get_clients s userId.

(** [router.get('/history')], with a [LEFT JOIN]. *)
Definition get_history (s : Store) (userId : Z)
           (start_date end_date : option Z) : list Http.joined :=
  Sql.order_desc
    (flat_map (Sql.leftJoinClients s)
              (filter (Sql.historyFilter userId start_date end_date)
                      (checkins s))).

(** [router.get('/active')]: the [data] of the response; the query selects
    the client's name, not its address. *)
Definition get_active (s : Store) (userId : Z) : option Http.named :=
  option_map Http.name_only
    (Sql.limit1
       (Sql.order_desc
          (flat_map (Sql.leftJoinClients s)
                    (filter (Checkin.active_of userId) (checkins s))))).

End ExpressV2.

(** ** The Next.js route handlers ([app/api/checkin]) *)

Module NextApi.

(** The handlers call [db.getActiveCheckin], [db.getClientById],
    [db.createCheckin] and [db.checkout], a flat data-layer interface that is
    not part of the sources ([lib/db.ts] has the grouped methods
    [db.checkins.*], [db.clients.*]).  Following sections 4.2 and 4.4 of the
    spec each one is the grouped method of [lib/db.ts] with the same role. *)

(** Modelled from the spec: [db.getActiveCheckin], the active-check-in lookup
    ([db.checkins.getActiveByEmployeeId]). *)
Definition getActiveCheckin (s : Store) (userId : Z) : option Checkin.t :=
  Db.checkins_.getActiveByEmployeeId s userId.

(** Modelled from the spec: [db.getClientById], the lookup of a client by id
    ([db.clients.findById]). *)
Definition getClientById (s : Store) (id : Z) : option Client.t :=
  Db.clients_.findById s id.

(** Modelled from the spec: [db.createCheckin], which receives neither a
    time nor a status: the row is inserted ([db.checkins.create]) with
    [checkin_time] the current timestamp, no [checkout_time] and status
    [checked_in]. *)
Definition createCheckin (s : Store) (now employee_id client_id : Z)
           (latitude longitude distance_from_client : option R)
           (notes : option string) : Checkin.t * Store :=
  Db.checkins_.create s
    (fun id => Checkin.mk id employee_id client_id now None
                          latitude longitude distance_from_client notes
                          checked_in).

(** Modelled from the spec: [db.checkout], the checkout of the row with the
    given id ([db.checkins.checkout]). *)
Definition checkout (s : Store) (checkinId now : Z)
  : option Checkin.t * Store :=
  Db.checkins_.checkout s checkinId now.

(** [latitude || null]. *)
Definition number_or_null (o : option R) : option R :=
  match o with
  | Some x => if Js.truthy x then Some x else None
  | None => None
  end.

(** The distance block of the check-in [POST]: the four coordinates are
    tested with [&&]. *)
Definition distance (latitude longitude : option R) (client : Client.t)
  : option R * option string :=
  match latitude, longitude, Client.latitude client, Client.longitude client
  with
  | Some lat, Some lon, Some clat, Some clon =>
      if Js.truthy lat && Js.truthy lon && Js.truthy clat && Js.truthy clon
      then
        let distanceFromClient :=
          Js.round2 (Geo.calculateDistance lat lon clat clon) in
        (Some distanceFromClient,
         if Js.gt distanceFromClient 0.5 then Some far_warning else None)
      else (None, None)
  | _, _, _, _ => (None, None)
  end.

Definition latitude_ok (latitude : option R) : bool :=
  match latitude with
  | Some v => negb (Js.lt v (-90) || Js.gt v 90)
  | None => true
  end.

Definition longitude_ok (longitude : option R) : bool :=
  match longitude with
  | Some v => negb (Js.lt v (-180) || Js.gt v 180)
  | None => true
  end.

Definition notes_too_long (notes : option string) : bool :=
  match or_null notes with
  | Some n => (500 <? String.length n)%nat
  | None => false
  end.

(** [POST] of the check-in route, after the bearer token has been
    verified, for a body whose coordinates are numbers or missing. *)
Definition POST_checkin (s : Store) (userId now : Z) (body : CheckinBody)
  : Http.response * Store :=
  let latitude := body_latitude body in
  let longitude := body_longitude body in
  let notes := body_notes body in
  match body_client_id body with
  | Some client_id =>
      if negb (truthy_id (Some client_id)) then
        (Http.json 400
           (Http.Failure "Please select a client before checking in"), s)
      else if (client_id <? 1)%Z then
        (Http.json 400 (Http.Failure "Invalid client selection"), s)
      else if negb (latitude_ok latitude) then
        (Http.json 400
           (Http.Failure
              "Invalid latitude value. Must be between -90 and 90"), s)
      else if negb (longitude_ok longitude) then
        (Http.json 400
           (Http.Failure
              "Invalid longitude value. Must be between -180 and 180"), s)
      else if notes_too_long notes then
        (Http.json 400
           (Http.Failure "Notes cannot exceed 500 characters"), s)
      else
        match getActiveCheckin s userId with
        | Some _ =>
            (Http.json 400
               (Http.Failure
                  "You already have an active check-in. Please checkout first."),
             s)
        | None =>
            match getClientById s client_id with
            | None =>
                (Http.json 400
                   (Http.Failure "Selected client does not exist"), s)
            | Some client =>
                let '(distanceFromClient, distanceWarning) :=
                  distance latitude longitude client in
                let '(checkin, s') :=
                  createCheckin s now userId client_id
                                (number_or_null latitude)
                                (number_or_null longitude)
                                distanceFromClient (or_null notes) in
                (Http.json 201
                   (Http.Created (Checkin.id checkin) distanceFromClient
                                 distanceWarning),
                 s')
            end
        end
  | None =>
      (Http.json 400
         (Http.Failure "Please select a client before checking in"), s)
  end.

(** [latitude !== undefined && (typeof latitude !== 'number' ||
    latitude < -90 || latitude > 90)], with the two bounds as parameters. *)
Definition invalid_coordinate (lo hi : R) (c : Json.coordinate) : bool :=
  match c with
  | Json.missing => false
  | Json.null => true
  | Json.number v => Js.lt v lo || Js.gt v hi
  end.

(** [POST] of the check-in route on a JSON body.  A request that passes the
    coordinate checks has numbers or nothing as coordinates; the rest of the
    handler is [POST_checkin] on it. *)
Definition POST (s : Store) (userId now : Z) (req : Request)
  : Http.response * Store :=
  match request_client_id req with
  | Some client_id =>
      if negb (truthy_id (Some client_id)) then
        (Http.json 400
           (Http.Failure "Please select a client before checking in"), s)
      else if (client_id <? 1)%Z then
        (Http.json 400 (Http.Failure "Invalid client selection"), s)
      else if invalid_coordinate (-90) 90 (request_latitude req) then
        (Http.json 400
           (Http.Failure
              "Invalid latitude value. Must be between -90 and 90"), s)
      else if invalid_coordinate (-180) 180 (request_longitude req) then
        (Http.json 400
           (Http.Failure
              "Invalid longitude value. Must be between -180 and 180"), s)
      else POST_checkin s userId now (body_of req)
  | None =>
      (Http.json 400
         (Http.Failure "Please select a client before checking in"), s)
  end.

(** [POST] of the checkout route, after the bearer token has been
    verified. *)
Definition POST_checkout (s : Store) (userId now : Z)
  : Http.response * Store :=
  match getActiveCheckin s userId with
  | None =>
      (Http.json 400
         (Http.Failure "No active check-in found to checkout from"), s)
  | Some activeCheckin =>
      (Http.json 200 (Http.Success "Checked out successfully"),
       snd (checkout s (Checkin.id activeCheckin) now))
  end.


(** [GET] of the check-in route: [(hasActiveCheckin, activeCheckin)]. *)
Definition GET_checkin (s : Store) (userId : Z) : bool * option Checkin.t :=
  let activeCheckin := getActiveCheckin s userId in
  (match activeCheckin with Some _ => true | None => false end,
   activeCheckin).

End NextApi.

(** ** The daily summary ([routes/reports.js]) *)

Module Reports.

(** A row of [SELECT id, name, email FROM users WHERE manager_id = ?]. *)
Module Member.
Record t := mk { id : Z; name : string; email : string }.
End Member.

(** A row of the joined check-in query. *)
Module Row.
Record t := mk {
  id : Z;
  employee_id : Z;
  client_id : Z;
  checkin_time : Z;
  checkout_time : option Z;
  latitude : option R;
  longitude : option R;
  distance_from_client : option R;
  notes : option string;
  status : Status;
  employee_name : string;
  employee_email : string;
  client_name : string;
  client_address : string
}.
End Row.

(** An element of an employee's [checkins] list in the response. *)
Module Detail.
Record t := mk {
  id : Z;
  client_id : Z;
  client_name : string;
  client_address : string;
  checkin_time : Z;
  checkout_time : option Z;
  hours_worked : R;
  distance_from_client : option R;
  notes : option string;
  status : Status
}.
End Detail.

(** The per-employee accumulator stored in [employeeMap].  Its
    [clients_visited] and [average_distance] fields are never read and are
    left out. *)
Module Acc.
Record t := mk {
  employee_id : Z;
  employee_name : string;
  employee_email : string;
  total_checkins : nat;
  hours_worked : R;
  client_names : list string;
  total_distance : R;
  distance_count : nat;
  checkins : list Detail.t
}.
End Acc.

(** An element of [employee_breakdown]. *)
Module Entry.
Record t := mk {
  employee_id : Z;
  employee_name : string;
  employee_email : string;
  total_checkins : nat;
  hours_worked : R;
  clients_visited : list string;
  average_distance : option R;
  checkins : list Detail.t
}.
End Entry.

Module TeamSummary.
Record t := mk {
  total_employees : nat;
  employees_with_checkins : nat;
  total_checkins : nat;
  total_hours_worked : R;
  unique_clients_visited : nat;
  average_distance_from_client : option R
}.
End TeamSummary.

Inductive response :=
| Failure (status : Z) (message : string)
| Summary (date : Z) (team_summary : TeamSummary.t)
          (employee_breakdown : list Entry.t).

(** The [date] query parameter: missing, not matching
    [/^\d{4}-\d{2}-\d{2}$/], not a date, or the calendar day it names
    (counted in days since the epoch). *)
Inductive DateParam := NoDate | BadFormat | NotADate | Day (d : Z).

(** The [employee_id] query parameter: missing (or empty), not a number for
    [parseInt], or the number [parseInt] reads. *)
Inductive EmployeeParam := NoEmployee | NotANumber | Employee (id : Z).

(** [DATE(checkin_time)]. *)
Definition DATE (t : Z) : Z := (t / 86400000)%Z.

(** ** The two queries *)

Definition has_manager (managerId : Z) (u : User.t) : bool :=
  match User.manager_id u with
  | Some m => (m =? managerId)%Z
  | None => false
  end.

Definition teamMembers (s : Store) (managerId : Z) : list Member.t :=
  map (fun u => Member.mk (User.id u) (User.name u) (User.email u))
      (filter (has_manager managerId) (users s)).

Definition employeeFilter (p : EmployeeParam) (ch : Checkin.t) : bool :=
  match p with
  | Employee id => (Checkin.employee_id ch =? id)%Z
  | _ => true
  end.

Definition join_row (ch : Checkin.t) (u : User.t) (c : Client.t) : Row.t :=
  Row.mk (Checkin.id ch) (Checkin.employee_id ch) (Checkin.client_id ch)
         (Checkin.checkin_time ch) (Checkin.checkout_time ch)
         (Checkin.latitude ch) (Checkin.longitude ch)
         (Checkin.distance_from_client ch) (Checkin.notes ch)
         (Checkin.status ch) (User.name u) (User.email u)
         (Client.name c) (Client.address c).

(** [FROM checkins ch INNER JOIN users u ON ch.employee_id = u.id
    INNER JOIN clients c ON ch.client_id = c.id
    WHERE u.manager_id = ? AND DATE(ch.checkin_time) = ? [AND
    ch.employee_id = ?]]. *)
Definition joined (s : Store) (managerId date : Z) (p : EmployeeParam)
  : list Row.t :=
  flat_map
    (fun ch =>
       flat_map
         (fun u =>
            map (join_row ch u)
                (filter (fun c => (Checkin.client_id ch =? Client.id c)%Z)
                        (clients s)))
         (filter (fun u => (Checkin.employee_id ch =? User.id u)%Z &&
                           has_manager managerId u)
                 (users s)))
    (filter (fun ch => (DATE (Checkin.checkin_time ch) =? date)%Z &&
                       employeeFilter p ch)
            (checkins s)).

(** [ORDER BY ch.employee_id, ch.checkin_time]. *)
Definition row_leb (a b : Row.t) : bool :=
  (Row.employee_id a <? Row.employee_id b)%Z ||
  ((Row.employee_id a =? Row.employee_id b)%Z &&
   (Row.checkin_time a <=? Row.checkin_time b)%Z).

Fixpoint insert_row (r : Row.t) (rows : list Row.t) : list Row.t :=
  match rows with
  | [] => [r]
  | r' :: rest =>
      if row_leb r r' then r :: rows else r' :: insert_row r rest
  end.

Definition order_rows (rows : list Row.t) : list Row.t :=
  fold_right insert_row [] rows.

Definition checkinsQuery (s : Store) (managerId date : Z)
           (p : EmployeeParam) : list Row.t :=
  order_rows (joined s managerId date p).

(** ** [Map] and [Set] *)

(** [employeeMap]: keys in insertion order; [set] on a present key replaces
    the value where it stands. *)
Definition EmployeeMap := list (Z * Acc.t).

Fixpoint map_set (k : Z) (v : Acc.t) (m : EmployeeMap) : EmployeeMap :=
  match m with
  | [] => [(k, v)]
  | (k', v') :: rest =>
      if (k' =? k)%Z then (k, v) :: rest else (k', v') :: map_set k v rest
  end.

Fixpoint map_get (k : Z) (m : EmployeeMap) : option Acc.t :=
  match m with
  | [] => None
  | (k', v') :: rest => if (k' =? k)%Z then Some v' else map_get k rest
  end.

(** [Set.prototype.add] on strings and on ids. *)
Definition set_add_string (x : string) (l : list string) : list string :=
  if existsb (String.eqb x) l then l else l ++ [x].

Definition set_add_id (x : Z) (l : list Z) : list Z :=
  if existsb (Z.eqb x) l then l else l ++ [x].

(** ** The aggregation *)

(** The variables of the handler that the loops update. *)
Record Totals := mkTotals {
  employeeMap : EmployeeMap;
  totalCheckins : nat;
  totalHoursWorked : R;
  uniqueClients : list Z;
  totalDistance : R;
  distanceCount : nat
}.

Definition skipped (p : EmployeeParam) (member : Member.t) : bool :=
  match p with
  | Employee id => negb (Member.id member =? id)%Z
  | _ => false
  end.

(** The body of [teamMembers.forEach]. *)
Definition init_member (p : EmployeeParam) (m : EmployeeMap)
           (member : Member.t) : EmployeeMap :=
  if skipped p member then m
  else map_set (Member.id member)
               (Acc.mk (Member.id member) (Member.name member)
                       (Member.email member) 0 0 [] 0 0 [])
               m.

(** [hoursWorked] of one check-in. *)
Definition hoursWorked (checkin : Row.t) : R :=
  match Row.checkout_time checkin with
  | Some checkoutTime =>
      IZR (checkoutTime - Row.checkin_time checkin) / (1000 * 60 * 60)
  | None => 0
  end.

Definition detail (checkin : Row.t) : Detail.t :=
  Detail.mk (Row.id checkin) (Row.client_id checkin)
            (Row.client_name checkin) (Row.client_address checkin)
            (Row.checkin_time checkin) (Row.checkout_time checkin)
            (Js.round2 (hoursWorked checkin))
            (Row.distance_from_client checkin) (Row.notes checkin)
            (Row.status checkin).

(** The updates of the [employee] object for one check-in. *)
Definition add_checkin (employee : Acc.t) (checkin : Row.t) : Acc.t :=
  Acc.mk (Acc.employee_id employee) (Acc.employee_name employee)
         (Acc.employee_email employee)
         (S (Acc.total_checkins employee))
         (Acc.hours_worked employee + hoursWorked checkin)
         (set_add_string (Row.client_name checkin)
                         (Acc.client_names employee))
         (match Row.distance_from_client checkin with
          | Some d => Acc.total_distance employee + d
          | None => Acc.total_distance employee
          end)
         (match Row.distance_from_client checkin with
          | Some _ => S (Acc.distance_count employee)
          | None => Acc.distance_count employee
          end)
         (Acc.checkins employee ++ [detail checkin]).

(** The body of [checkins.forEach]. *)
Definition process_checkin (t : Totals) (checkin : Row.t) : Totals :=
  match map_get (Row.employee_id checkin) (employeeMap t) with
  | None => t
  | Some employee =>
      mkTotals
        (map_set (Row.employee_id checkin) (add_checkin employee checkin)
                 (employeeMap t))
        (S (totalCheckins t))
        (totalHoursWorked t + hoursWorked checkin)
        (set_add_id (Row.client_id checkin) (uniqueClients t))
        (match Row.distance_from_client checkin with
         | Some d => totalDistance t + d
         | None => totalDistance t
         end)
        (match Row.distance_from_client checkin with
         | Some _ => S (distanceCount t)
         | None => distanceCount t
         end)
  end.

(** [total / count] rounded, or [null] when nothing was counted. *)
Definition average (total : R) (count : nat) : option R :=
  if (0 <? count)%nat then Some (Js.round2 (total / INR count)) else None.

(** The object pushed on [employeeBreakdown]. *)
Definition finalize (employee : Acc.t) : Entry.t :=
  Entry.mk (Acc.employee_id employee) (Acc.employee_name employee)
           (Acc.employee_email employee) (Acc.total_checkins employee)
           (Js.round2 (Acc.hours_worked employee))
           (Acc.client_names employee)
           (average (Acc.total_distance employee)
                    (Acc.distance_count employee))
           (Acc.checkins employee).

(** [employeeBreakdown.sort((a, b) => b.total_checkins - a.total_checkins)]:
    a stable sort, greatest count first. *)
Fixpoint insert_entry (e : Entry.t) (l : list Entry.t) : list Entry.t :=
  match l with
  | [] => [e]
  | e' :: rest =>
      if (Entry.total_checkins e' <=? Entry.total_checkins e)%nat
      then e :: l else e' :: insert_entry e rest
  end.

Definition sort_breakdown (l : list Entry.t) : list Entry.t :=
  fold_right insert_entry [] l.

Definition aggregate (p : EmployeeParam) (teamMembers : list Member.t)
           (checkins : list Row.t) : Totals :=
  fold_left process_checkin checkins
            (mkTotals (fold_left (init_member p) teamMembers [])
                      0 0 [] 0 0).

Definition empty_summary : TeamSummary.t :=
  TeamSummary.mk 0 0 0 0 0 None.

(** The response built from the team and the day's check-ins. *)
Definition build (date : Z) (p : EmployeeParam)
           (teamMembers : list Member.t) (checkins : list Row.t)
  : response :=
  let t := aggregate p teamMembers checkins in
  let values := map snd (employeeMap t) in
  let employeesWithCheckins :=
    List.length (filter (fun e => (0 <? Acc.total_checkins e)%nat) values) in
  let employeeBreakdown := sort_breakdown (map finalize values) in
  Summary date
    (TeamSummary.mk
       (match p with
        | NoEmployee => List.length teamMembers
        | _ => 1%nat
        end)
       employeesWithCheckins
       (totalCheckins t)
       (Js.round2 (totalHoursWorked t))
       (List.length (uniqueClients t))
       (average (totalDistance t) (distanceCount t)))
    employeeBreakdown.

(** [router.get('/daily-summary')], after [authenticateToken] and
    [requireManager]. *)
Definition daily_summary (s : Store) (managerId : Z) (date : DateParam)
           (employee_id : EmployeeParam) : response :=
  match date with
  | NoDate =>
      Failure 400 "Date parameter is required (format: YYYY-MM-DD)"
  | BadFormat => Failure 400 "Invalid date format. Use YYYY-MM-DD"
  | NotADate => Failure 400 "Invalid date provided"
  | Day d =>
      let members := teamMembers s managerId in
      if (List.length members =? 0)%nat then
        Summary d empty_summary []
      else
        match employee_id with
        | NotANumber => Failure 400 "Invalid employee_id parameter"
        | _ =>
            build d employee_id members
                  (checkinsQuery s managerId d employee_id)
        end
  end.

End Reports.

(** ** JavaScript numbers as IEEE-754 binary64

    The arithmetic of the daily summary is sums, quotients and
    [Math.round]; these are the operations of [PrimFloat], so this part of
    the handler is modelled on the numbers the code computes with. *)

Module Js64.

(** The number of an integer, exact up to 2^53 in absolute value (time
    values are at most 8.64e15, counters far smaller). *)
Definition of_Z (z : Z) : float :=
  if (z <? 0)%Z
  then PrimFloat.opp (PrimFloat.of_uint63 (Uint63.of_Z (- z)))
  else PrimFloat.of_uint63 (Uint63.of_Z z).

Definition of_nat (n : nat) : float := of_Z (Z.of_nat n).

(** [Math.round]: the integer nearest to [x], the greater one at a tie.  An
    integral number, a zero, an infinity and [NaN] are returned as they are;
    a negative number that rounds to zero gives [-0].  A finite [x] is
    [m * 2^e] up to sign; for [e < 0] the result is
    [floor ((2 * x + 1) / 2)], computed on integers. *)
Definition round (x : float) : float :=
  match Prim2SF x with
  | S754_finite sign m e =>
      if (0 <=? e)%Z then x
      else
        let n := (((if sign then Z.neg m else Z.pos m) * 2 + 2 ^ (- e))
                  / 2 ^ (- e + 1))%Z in
        if (n =? 0)%Z then (if sign then (-0)%float else 0%float)
        else of_Z n
  | _ => x
  end.

(** [Math.round(x * 100) / 100]. *)
Definition round2 (x : float) : float :=
  PrimFloat.div (round (PrimFloat.mul x 100%float)) 100%float.


End Js64.

(** ** The aggregation of [routes/reports.js] on binary64 numbers

    The handler of [GET /daily-summary] as a function of its parameters and
    of the rows its two queries return; the distances of the rows are the
    numbers the driver reads from the [distance_from_client] column. *)

Module Reports64.

(** A row of the joined check-in query. *)
Module Row.
Record t := mk {
  id : Z;
  employee_id : Z;
  client_id : Z;
  checkin_time : Z;
  checkout_time : option Z;
  latitude : option float;
  longitude : option float;
  distance_from_client : option float;
  notes : option string;
  status : Status;
  employee_name : string;
  employee_email : string;
  client_name : string;
  client_address : string
}.
End Row.

(** An element of an employee's [checkins] list in the response. *)
Module Detail.
Record t := mk {
  id : Z;
  client_id : Z;
  client_name : string;
  client_address : string;
  checkin_time : Z;
  checkout_time : option Z;
  hours_worked : float;
  distance_from_client : option float;
  notes : option string;
  status : Status
}.
End Detail.

(** The per-employee accumulator stored in [employeeMap] (without its
    [clients_visited] and [average_distance] fields, which are never
    read). *)
Module Acc.
Record t := mk {
  employee_id : Z;
  employee_name : string;
  employee_email : string;
  total_checkins : nat;
  hours_worked : float;
  client_names : list string;
  total_distance : float;
  distance_count : nat;
  checkins : list Detail.t
}.
End Acc.

(** An element of [employee_breakdown]. *)
Module Entry.
Record t := mk {
  employee_id : Z;
  employee_name : string;
  employee_email : string;
  total_checkins : nat;
  hours_worked : float;
  clients_visited : list string;
  average_distance : option float;
  checkins : list Detail.t
}.
End Entry.

Module TeamSummary.
Record t := mk {
  total_employees : nat;
  employees_with_checkins : nat;
  total_checkins : nat;
  total_hours_worked : float;
  unique_clients_visited : nat;
  average_distance_from_client : option float
}.
End TeamSummary.

Inductive response :=
| Failure (status : Z) (message : string)
| Summary (date : Z) (team_summary : TeamSummary.t)
          (employee_breakdown : list Entry.t).

(** [employeeMap]: keys in insertion order; [set] on a present key replaces
    the value where it stands. *)
Definition EmployeeMap := list (Z * Acc.t).

Fixpoint map_set (k : Z) (v : Acc.t) (m : EmployeeMap) : EmployeeMap :=
  match m with
  | [] => [(k, v)]
  | (k', v') :: rest =>
      if (k' =? k)%Z then (k, v) :: rest else (k', v') :: map_set k v rest
  end.

Fixpoint map_get (k : Z) (m : EmployeeMap) : option Acc.t :=
  match m with
  | [] => None
  | (k', v') :: rest => if (k' =? k)%Z then Some v' else map_get k rest
  end.

(** The variables of the handler that the loops update. *)
Record Totals := mkTotals {
  employeeMap : EmployeeMap;
  totalCheckins : nat;
  totalHoursWorked : float;
  uniqueClients : list Z;
  totalDistance : float;
  distanceCount : nat
}.

(** The body of [teamMembers.forEach]. *)
Definition init_member (p : Reports.EmployeeParam) (m : EmployeeMap)
           (member : Reports.Member.t) : EmployeeMap :=
  if Reports.skipped p member then m
  else map_set (Reports.Member.id member)
               (Acc.mk (Reports.Member.id member)
                       (Reports.Member.name member)
                       (Reports.Member.email member)
                       0 0%float [] 0%float 0 [])
               m.

(** [hoursWorked] of one check-in:
    [(checkoutTime - checkinTime) / (1000 * 60 * 60)], and 0 without a
    [checkout_time]. *)
Definition hoursWorked (checkin : Row.t) : float :=
  match Row.checkout_time checkin with
  | Some checkoutTime =>
      PrimFloat.div
        (PrimFloat.sub (Js64.of_Z checkoutTime)
                       (Js64.of_Z (Row.checkin_time checkin)))
        (1000 * 60 * 60)%float
  | None => 0%float
  end.

Definition detail (checkin : Row.t) : Detail.t :=
  Detail.mk (Row.id checkin) (Row.client_id checkin)
            (Row.client_name checkin) (Row.client_address checkin)
            (Row.checkin_time checkin) (Row.checkout_time checkin)
            (Js64.round2 (hoursWorked checkin))
            (Row.distance_from_client checkin) (Row.notes checkin)
            (Row.status checkin).

(** The updates of the [employee] object for one check-in. *)
Definition add_checkin (employee : Acc.t) (checkin : Row.t) : Acc.t :=
  Acc.mk (Acc.employee_id employee) (Acc.employee_name employee)
         (Acc.employee_email employee)
         (S (Acc.total_checkins employee))
         (PrimFloat.add (Acc.hours_worked employee) (hoursWorked checkin))
         (Reports.set_add_string (Row.client_name checkin)
                                 (Acc.client_names employee))
         (match Row.distance_from_client checkin with
          | Some d => PrimFloat.add (Acc.total_distance employee) d
          | None => Acc.total_distance employee
          end)
         (match Row.distance_from_client checkin with
          | Some _ => S (Acc.distance_count employee)
          | None => Acc.distance_count employee
          end)
         (Acc.checkins employee ++ [detail checkin]).

(** The body of [checkins.forEach]. *)
Definition process_checkin (t : Totals) (checkin : Row.t) : Totals :=
  match map_get (Row.employee_id checkin) (employeeMap t) with
  | None => t
  | Some employee =>
      mkTotals
        (map_set (Row.employee_id checkin) (add_checkin employee checkin)
                 (employeeMap t))
        (S (totalCheckins t))
        (PrimFloat.add (totalHoursWorked t) (hoursWorked checkin))
        (Reports.set_add_id (Row.client_id checkin) (uniqueClients t))
        (match Row.distance_from_client checkin with
         | Some d => PrimFloat.add (totalDistance t) d
         | None => totalDistance t
         end)
        (match Row.distance_from_client checkin with
         | Some _ => S (distanceCount t)
         | None => distanceCount t
         end)
  end.

(** [count > 0 ? Math.round((total / count) * 100) / 100 : null]. *)
Definition average (total : float) (count : nat) : option float :=
  if (0 <? count)%nat
  then Some (Js64.round2 (PrimFloat.div total (Js64.of_nat count)))
  else None.

(** The object pushed on [employeeBreakdown]. *)
Definition finalize (employee : Acc.t) : Entry.t :=
  Entry.mk (Acc.employee_id employee) (Acc.employee_name employee)
           (Acc.employee_email employee) (Acc.total_checkins employee)
           (Js64.round2 (Acc.hours_worked employee))
           (Acc.client_names employee)
           (average (Acc.total_distance employee)
                    (Acc.distance_count employee))
           (Acc.checkins employee).

(** [employeeBreakdown.sort((a, b) => b.total_checkins - a.total_checkins)]:
    a stable sort, greatest count first. *)
Fixpoint insert_entry (e : Entry.t) (l : list Entry.t) : list Entry.t :=
  match l with
  | [] => [e]
  | e' :: rest =>
      if (Entry.total_checkins e' <=? Entry.total_checkins e)%nat
      then e :: l else e' :: insert_entry e rest
  end.

Definition sort_breakdown (l : list Entry.t) : list Entry.t :=
  fold_right insert_entry [] l.

Definition aggregate (p : Reports.EmployeeParam)
           (teamMembers : list Reports.Member.t) (checkins : list Row.t)
  : Totals :=
  fold_left process_checkin checkins
            (mkTotals (fold_left (init_member p) teamMembers [])
                      0 0%float [] 0%float 0).

Definition empty_summary : TeamSummary.t :=
  TeamSummary.mk 0 0 0 0%float 0 None.

(** The response built from the team and the day's check-ins. *)
Definition build (date : Z) (p : Reports.EmployeeParam)
           (teamMembers : list Reports.Member.t) (checkins : list Row.t)
  : response :=
  let t := aggregate p teamMembers checkins in
  let values := map snd (employeeMap t) in
  let employeesWithCheckins :=
    List.length (filter (fun e => (0 <? Acc.total_checkins e)%nat) values) in
  let employeeBreakdown := sort_breakdown (map finalize values) in
  Summary date
    (TeamSummary.mk
       (match p with
        | Reports.NoEmployee => List.length teamMembers
        | _ => 1%nat
        end)
       employeesWithCheckins
       (totalCheckins t)
       (Js64.round2 (totalHoursWorked t))
       (List.length (uniqueClients t))
       (average (totalDistance t) (distanceCount t)))
    employeeBreakdown.

(** The handler, after [authenticateToken] and [requireManager]:
    [teamMembers] and [checkins] are the results of its two queries (the
    second one is not run when the first returns no row). *)
Definition daily_summary (date : Reports.DateParam)
           (employee_id : Reports.EmployeeParam)
           (teamMembers : list Reports.Member.t) (checkins : list Row.t)
  : response :=
  match date with
  | Reports.NoDate =>
      Failure 400 "Date parameter is required (format: YYYY-MM-DD)"
  | Reports.BadFormat => Failure 400 "Invalid date format. Use YYYY-MM-DD"
  | Reports.NotADate => Failure 400 "Invalid date provided"
  | Reports.Day d =>
      if (List.length teamMembers =? 0)%nat then
        Summary d empty_summary []
      else
        match employee_id with
        | Reports.NotANumber => Failure 400 "Invalid employee_id parameter"
        | _ => build d employee_id teamMembers checkins
        end
  end.

End Reports64.

(** ** The check-in state machine *)

(** One request that may write the [checkins] collection: a check-in or a
    checkout, by any user, at any time, through any of the three
    handlers. *)
Inductive step (s : Store) : Store -> Prop :=
| step_v1_checkin (userId now : Z) (body : CheckinBody) :
    step s (snd (ExpressV1.post_checkin s userId now body))
| step_v1_checkout (userId now : Z) :
    step s (snd (ExpressV1.put_checkout s userId now))
| step_v2_checkin (userId now : Z) (body : CheckinBody) :
    step s (snd (ExpressV2.post_checkin s userId now body))
| step_v2_checkout (userId now : Z) :
    step s (snd (ExpressV2.put_checkout s userId now))
| step_next_checkin (userId now : Z) (body : CheckinBody) :
    step s (snd (NextApi.POST_checkin s userId now body))
| step_next_checkout (userId now : Z) :
    step s (snd (NextApi.POST_checkout s userId now)).

Inductive reachable (init : Store) : Store -> Prop :=
| reachable_init : reachable init init
| reachable_step (s s' : Store) :
    reachable init s -> step s s' -> reachable init s'.

(** ** Predicates used in the statements *)

(** The number of check-ins of [employeeId] with status [checked_in]. *)
Definition active_count (s : Store) (employeeId : Z) : nat :=
  List.length (filter (Checkin.active_of employeeId) (checkins s)).

(** At most one active check-in per employee. *)
Definition single_active (s : Store) : Prop :=
  forall employeeId : Z, (active_count s employeeId <= 1)%nat.

(** The employee has no check-in with status [checked_in]. *)
Definition no_active (s : Store) (employeeId : Z) : bool :=
  forallb (fun c => negb (Checkin.active_of employeeId c)) (checkins s).

(** The employee has no check-in at all. *)
Definition no_checkin (s : Store) (employeeId : Z) : bool :=
  forallb (fun c => negb (Checkin.employee_id c =? employeeId)%Z)
          (checkins s).

(** What a checkout may do to one row: nothing, or set [checkout_time] to the
    current timestamp and [status] to [checked_out] with every other column
    kept. *)
Definition closed_from (now : Z) (c c' : Checkin.t) : Prop :=
  Checkin.id c' = Checkin.id c /\
  Checkin.employee_id c' = Checkin.employee_id c /\
  Checkin.client_id c' = Checkin.client_id c /\
  Checkin.checkin_time c' = Checkin.checkin_time c /\
  Checkin.latitude c' = Checkin.latitude c /\
  Checkin.longitude c' = Checkin.longitude c /\
  Checkin.distance_from_client c' = Checkin.distance_from_client c /\
  Checkin.notes c' = Checkin.notes c /\
  Checkin.checkout_time c' = Some now /\
  Checkin.status c' = checked_out.

Definition checkout_row (now : Z) (c c' : Checkin.t) : Prop :=
  c' = c \/ closed_from now c c'.

(** What a checkout may do to the store: the other collections are kept and
    the check-ins change row by row as [checkout_row] allows. *)
Definition checkout_frame (now : Z) (s s' : Store) : Prop :=
  users s' = users s /\
  clients s' = clients s /\
  employeeClients s' = employeeClients s /\
  Forall2 (checkout_row now) (checkins s) (checkins s').

(** [s'] is [s] with the check-in [c] of employee [u] appended, status
    [checked_in]. *)
Definition inserted_by (s s' : Store) (u : Z) (c : Checkin.t) : Prop :=
  users s' = users s /\
  clients s' = clients s /\
  employeeClients s' = employeeClients s /\
  checkins s' = (checkins s ++ [c])%list /\
  Checkin.employee_id c = u /\
  Checkin.status c = checked_in.

(** A request for a client with neither coordinates nor notes. *)
Definition bare_request (client_id : Z) : CheckinBody :=
  mkBody (Some client_id) None None None.

(** The seed data after employee 4 has checked in at client 1 (through the
    Next.js route, at 2024-01-16T10:13:20Z). *)
Definition seed_with_active : Store :=
  snd (NextApi.POST_checkin Db.seed 4 1705400000000 (bare_request 1)).

Definition with_employeeClients (s : Store) (ecs : list EmployeeClient.t)
  : Store :=
  mkStore (users s) (clients s) ecs (checkins s).

(** The client a check-in request names, as the handlers look it up. *)
Definition target_client (s : Store) (body : CheckinBody) : option Client.t :=
  match body_client_id body with
  | Some cid => Db.clients_.findById s cid
  | None => None
  end.

(** One of the four coordinates that enter the distance is the number 0. *)
Definition zero_coordinate (s : Store) (body : CheckinBody) : Prop :=
  body_latitude body = Some 0 \/
  body_longitude body = Some 0 \/
  exists client, target_client s body = Some client /\
                 (Client.latitude client = Some 0 \/
                  Client.longitude client = Some 0).

(** The handler answered [r] and left [s']: either nothing was created, or a
    check-in was created with no distance and the response carries neither
    a distance nor a warning. *)
Definition no_distance_outcome (s : Store) (u : Z)
           (r : Http.response * Store) : Prop :=
  (snd r = s /\ Http.status (fst r) <> 201%Z) \/
  (exists c, fst r = Http.json 201 (Http.Created (Checkin.id c) None None) /\
             inserted_by s (snd r) u c /\
             Checkin.distance_from_client c = None).

(** A request on the equator: latitude 0, longitude 77.0887, for client 1. *)
Definition equator_request : CheckinBody :=
  mkBody (Some 1%Z) (Some 0) (Some 77.0887) None.

(** ** Reference quantities for the daily summary *)

(** The sum of a list of numbers. *)
Definition Rsum (l : list R) : R := fold_right Rplus 0 l.

(** The non-null distances of a list of check-ins. *)
Definition distances (rows : list Reports.Row.t) : list R :=
  flat_map (fun r => match Reports.Row.distance_from_client r with
                     | Some d => [d]
                     | None => []
                     end) rows.

(** The mean of a list of numbers rounded to two decimals; [None] for the
    empty list. *)
Definition mean2 (l : list R) : option R :=
  match l with
  | [] => None
  | _ :: _ => Some (Js.round2 (Rsum l / INR (List.length l)))
  end.

(** The check-ins of one employee among the rows of the query. *)
Definition rows_of (employeeId : Z) (rows : list Reports.Row.t)
  : list Reports.Row.t :=
  filter (fun r => (Reports.Row.employee_id r =? employeeId)%Z) rows.

(** The rows of the query that the aggregation counts: those of the
    employees that have an entry in the breakdown. *)
Definition counted (breakdown : list Reports.Entry.t)
           (rows : list Reports.Row.t) : list Reports.Row.t :=
  filter (fun r => existsb (Z.eqb (Reports.Row.employee_id r))
                           (map Reports.Entry.employee_id breakdown))
         rows.

(** Some check-in of the employee falls on the day. *)
Definition has_checkin_on (s : Store) (date employeeId : Z) : bool :=
  existsb (fun ch => (Checkin.employee_id ch =? employeeId)%Z &&
                     (Reports.DATE (Checkin.checkin_time ch) =? date)%Z)
          (checkins s).

(** Greatest [total_checkins] first. *)
Definition more_checkins (a b : Reports.Entry.t) : Prop :=
  (Reports.Entry.total_checkins b <= Reports.Entry.total_checkins a)%nat.

(** An accumulator as [teamMembers.forEach] creates it. *)
Definition fresh (kv : Z * Reports.Acc.t) : Prop :=
  Reports.Acc.employee_id (snd kv) = fst kv /\
  Reports.Acc.total_checkins (snd kv) = 0%nat /\
  Reports.Acc.hours_worked (snd kv) = 0 /\
  Reports.Acc.total_distance (snd kv) = 0 /\
  Reports.Acc.distance_count (snd kv) = 0%nat /\
  Reports.Acc.checkins (snd kv) = [].

(** The per-key view of the map after the loop over [rows]. *)
Definition absorb (rows : list Reports.Row.t) (kv : Z * Reports.Acc.t)
  : Z * Reports.Acc.t :=
  (fst kv, fold_left Reports.add_checkin (rows_of (fst kv) rows) (snd kv)).

(** The rows the loop does not skip. *)
Definition counted_by (keys : list Z) (rows : list Reports.Row.t)
  : list Reports.Row.t :=
  filter (fun r => existsb (Z.eqb (Reports.Row.employee_id r)) keys) rows.

(** An entry of the breakdown lists exactly the check-ins of its employee
    among [rows], in order, and counts them. *)
Definition entry_counts (rows : list Reports.Row.t) (e : Reports.Entry.t)
  : Prop :=
  Reports.Entry.total_checkins e =
    List.length (rows_of (Reports.Entry.employee_id e) rows) /\
  Reports.Entry.checkins e =
    map Reports.detail (rows_of (Reports.Entry.employee_id e) rows).

(** The hours of one check-in: the time between check-in and checkout in
    hours, or 0 when there is no [checkout_time]. *)
Definition hours_between (r : Reports.Row.t) : R :=
  match Reports.Row.checkout_time r with
  | Some checkout =>
      (IZR checkout - IZR (Reports.Row.checkin_time r)) / 3600000
  | None => 0
  end.

(** An entry of the breakdown carries the rounded sum of the hours and the
    rounded mean of the non-null distances of its employee's check-ins. *)
Definition entry_totals (rows : list Reports.Row.t) (e : Reports.Entry.t)
  : Prop :=
  Reports.Entry.hours_worked e =
    Js.round2 (Rsum (map hours_between
                         (rows_of (Reports.Entry.employee_id e) rows))) /\
  Reports.Entry.average_distance e =
    mean2 (distances (rows_of (Reports.Entry.employee_id e) rows)).

(** ** Predicates for the further properties *)

(** The columns of a check-in that are written once, at creation. *)
Definition core (c : Checkin.t) :=
  (Checkin.id c, Checkin.employee_id c, Checkin.client_id c,
   Checkin.checkin_time c, Checkin.latitude c, Checkin.longitude c,
   Checkin.distance_from_client c, Checkin.notes c).

(** The ids of the check-ins are 1, 2, ..., n in insertion order. *)
Definition dense_ids (s : Store) : Prop :=
  map Checkin.id (checkins s) =
  map Z.of_nat (seq 1 (List.length (checkins s))).

(** A later version [c'] of the check-in [c]: the same creation columns, and
    not reopened. *)
Definition evolves (c c' : Checkin.t) : Prop :=
  core c' = core c /\
  (Checkin.status c = checked_out -> Checkin.status c' = checked_out).

(** The check-ins of [s] are still in [s'], in place and evolved, followed by
    the check-ins created since. *)
Definition extends (s s' : Store) : Prop :=
  exists old added,
    checkins s' = (old ++ added)%list /\ Forall2 evolves (checkins s) old.

(** A checkout that touches open check-ins only. *)
Definition closes_open (now : Z) (c c' : Checkin.t) : Prop :=
  c' = c \/ (Checkin.status c = checked_in /\ closed_from now c c').

(** The day of a timestamp lies within the optional bounds. *)
Definition within (start_date end_date : option Z) (t : Z) : Prop :=
  match start_date with
  | Some d => (d <= Sql.DATE t)%Z
  | None => True
  end /\
  match end_date with
  | Some d => (Sql.DATE t <= d)%Z
  | None => True
  end.

(** Latest [checkin_time] first. *)
Definition later_first (a b : Http.joined) : Prop :=
  (Checkin.checkin_time (Http.row b) <=
   Checkin.checkin_time (Http.row a))%Z.

(** A check-in as the three handlers create it. *)
Definition created_by (u now : Z) (c : Checkin.t) : Prop :=
  Checkin.employee_id c = u /\
  Checkin.checkin_time c = now /\
  Checkin.checkout_time c = None /\
  Checkin.status c = checked_in.

(** A latitude and a longitude within their ranges. *)
Definition in_range (lat lon : R) : Prop :=
  -90 <= lat <= 90 /\ -180 <= lon <= 180.


(** Stored coordinates of the transactional route: both or none, within the
    ranges. *)
Definition coordinates_ok (lat lon : option R) : Prop :=
  match lat, lon with
  | Some x, Some y => in_range x y
  | None, None => True
  | _, _ => False
  end.

(** A stored coordinate of the Next.js handler: none, or non-zero and at most
    [bound] in absolute value. *)
Definition coordinate_ok (bound : R) (o : option R) : Prop :=
  match o with
  | Some x => x <> 0 /\ - bound <= x <= bound
  | None => True
  end.

(** Stored notes: none, or (when [nonempty]) not empty, and at most [limit]
    characters long. *)
Definition notes_ok (nonempty : bool) (limit : nat) (o : option string)
  : Prop :=
  match o with
  | Some n => (if nonempty then n <> "" else True) /\
              (String.length n <= limit)%nat
  | None => True
  end.

(** [U] lists the elements of [l] once each. *)
Definition distinct_of (l U : list Z) : Prop :=
  NoDup U /\ forall x, In x U <-> In x l.

(** The check-in counts for the week report: of the employee, not older than
    seven days. *)
Definition in_week (employeeId now : Z) (c : Checkin.t) : bool :=
  (Checkin.employee_id c =? employeeId)%Z &&
  (now - 604800000 <=? Checkin.checkin_time c)%Z.

(** The entries of a breakdown that count at least one check-in. *)
Definition with_checkins_entries (breakdown : list Reports.Entry.t)
  : list Reports.Entry.t :=
  filter (fun e => (0 <? Reports.Entry.total_checkins e)%nat) breakdown.

(** The employee is a member of the manager's team. *)
Definition team_member (s : Store) (managerId employeeId : Z) : bool :=
  existsb (Z.eqb employeeId)
          (map Reports.Member.id (Reports.teamMembers s managerId)).

(** ** Predicates on JSON requests *)

(** The coordinates the transactional route accepts: none at all, or a
    latitude within [-90, 90] together with a longitude within
    [-180, 180]. *)
Definition coordinate_pair (lat lng : Json.coordinate) : Prop :=
  match lat, lng with
  | Json.missing, Json.missing => True
  | Json.number x, Json.number y => in_range x y
  | _, _ => False
  end.

(** A coordinate the Next.js handler accepts: missing, or a number of
    absolute value at most [bound]. *)
Definition coordinate_within (bound : R) (c : Json.coordinate) : Prop :=
  match c with
  | Json.missing => True
  | Json.number x => - bound <= x <= bound
  | Json.null => False
  end.

(** Notes of at most [limit] characters, or none. *)
Definition notes_within (limit : nat) (o : option string) : Prop :=
  match o with
  | Some n => (String.length n <= limit)%nat
  | None => True
  end.

(** A request that names a client and nothing else. *)
Definition client_request (client_id : Z) : Request :=
  mkRequest (Some client_id) Json.missing Json.missing None.

(** A request with a [null] latitude. *)
Definition null_latitude_request (client_id : Z) : Request :=
  mkRequest (Some client_id) Json.null (Json.number 77.0887) None.

(** What a checkout does to the check-ins, row by row: a row that [closes]
    selects is closed ([closed_from]), every other row is the one it was. *)
Definition only_closes (now : Z) (closes : Checkin.t -> bool)
           (rows rows' : list Checkin.t) : Prop :=
  Forall2 (fun c c' => if closes c then closed_from now c c' else c' = c)
          rows rows'.

(** The rows the [UPDATE] of the transactional route addresses: those with
    the id of the selected check-in that are still checked in. *)
Definition open_with_id (checkinId : Z) (c : Checkin.t) : bool :=
  (Checkin.id c =? checkinId)%Z &&
  match Checkin.status c with
  | checked_in => true
  | checked_out => false
  end.

(** [rows'] is [rows] with the first row of id [checkinId] replaced by
    [c']. *)
Definition replaces_first (checkinId : Z) (c c' : Checkin.t)
           (rows rows' : list Checkin.t) : Prop :=
  exists before after,
    rows = (before ++ c :: after)%list /\
    Forall (fun x => Checkin.id x <> checkinId) before /\
    Checkin.id c = checkinId /\
    rows' = (before ++ c' :: after)%list.

(** The user is a member of the manager's team: their [manager_id] is the
    manager's id. *)
Definition reports_to (managerId : Z) (u : User.t) : bool :=
  match User.manager_id u with
  | Some m => (m =? managerId)%Z
  | None => false
  end.

(** Some check-in of the employee falls on the day and is at a client that
    exists. *)
Definition has_visit_on (s : Store) (date employeeId : Z) : bool :=
  existsb (fun ch => (Checkin.employee_id ch =? employeeId)%Z &&
                     (Reports.DATE (Checkin.checkin_time ch) =? date)%Z &&
                     existsb (fun c => (Client.id c =? Checkin.client_id ch)%Z)
                             (clients s))
          (checkins s).

(** ** Reference quantities on binary64 numbers *)













(** The check-ins of the seed data on 2024-01-15 as the query returns
    them. *)
Definition seed_rows64 : list Reports64.Row.t :=
  [ Reports64.Row.mk 1 2 1 1705310100000 (Some 1705318200000%Z)
      (Some 28.4946%float) (Some 77.0887%float) (Some 0.05%float)
      (Some "Regular visit") checked_out
      "Rahul Kumar" "rahul@unolo.com" "ABC Corp" "Cyber City, Gurugram";
    Reports64.Row.mk 2 2 2 1705320000000 (Some 1705327200000%Z)
      (Some 28.4595%float) (Some 77.0266%float) (Some 0.02%float)
      (Some "Product demo") checked_out
      "Rahul Kumar" "rahul@unolo.com" "XYZ Ltd" "Sector 44, Gurugram";
    Reports64.Row.mk 3 2 3 1705330800000 (Some 1705339800000%Z)
      (Some 28.4947%float) (Some 77.0952%float) (Some 0.03%float)
      (Some "Follow up meeting") checked_out
      "Rahul Kumar" "rahul@unolo.com" "Tech Solutions"
      "DLF Phase 3, Gurugram";
    Reports64.Row.mk 4 3 2 1705311000000 (Some 1705320000000%Z)
      (Some 28.4595%float) (Some 77.0266%float) (Some 0.01%float)
      (Some "Contract discussion") checked_out
      "Priya Singh" "priya@unolo.com" "XYZ Ltd" "Sector 44, Gurugram";
    Reports64.Row.mk 5 3 4 1705323600000 (Some 1705334400000%Z)
      (Some 28.5011%float) (Some 77.0838%float) (Some 0.04%float)
      (Some "New requirements") checked_out
      "Priya Singh" "priya@unolo.com" "Global Services"
      "Udyog Vihar, Gurugram" ].

Definition seed_members : list Reports.Member.t :=
  [ Reports.Member.mk 2 "Rahul Kumar" "rahul@unolo.com";
    Reports.Member.mk 3 "Priya Singh" "priya@unolo.com";
    Reports.Member.mk 4 "Vikram Patel" "vikram@unolo.com" ].

(** * Properties *)

(** ** Geodistance *)

Section GeoFacts.

Lemma atan2_0_1 : Js.atan2 0 1 = 0.
Proof.
  unfold Js.atan2.
  destruct (Rlt_dec 0 1) as [_ | H]; [| exfalso; apply H; lra].
  replace (0 / 1) with 0 by lra. apply atan_0.
Qed.

Lemma haversine_a_swap (lat1 lon1 lat2 lon2 : R) :
  sin (Geo.toRad (lat2 - lat1) / 2) * sin (Geo.toRad (lat2 - lat1) / 2) +
  cos (Geo.toRad lat1) * cos (Geo.toRad lat2) *
  sin (Geo.toRad (lon2 - lon1) / 2) * sin (Geo.toRad (lon2 - lon1) / 2) =
  sin (Geo.toRad (lat1 - lat2) / 2) * sin (Geo.toRad (lat1 - lat2) / 2) +
  cos (Geo.toRad lat2) * cos (Geo.toRad lat1) *
  sin (Geo.toRad (lon1 - lon2) / 2) * sin (Geo.toRad (lon1 - lon2) / 2).
Proof.
  unfold Geo.toRad.
  replace ((lat1 - lat2) * (PI / 180) / 2)
    with (- ((lat2 - lat1) * (PI / 180) / 2)) by lra.
  replace ((lon1 - lon2) * (PI / 180) / 2)
    with (- ((lon2 - lon1) * (PI / 180) / 2)) by lra.
  rewrite !sin_neg. ring.
Qed.

(** C7. [calculateDistance] gives 0 for two identical points and the same
    value whichever of two points comes first. *)
Theorem calculateDistance_identity_symmetry :
  (forall lat lon : R, Geo.calculateDistance lat lon lat lon = 0) /\
  (forall lat1 lon1 lat2 lon2 : R,
      Geo.calculateDistance lat1 lon1 lat2 lon2 =
      Geo.calculateDistance lat2 lon2 lat1 lon1).
Proof.
  split.
  - intros lat lon. unfold Geo.calculateDistance, Geo.toRad.
    replace (lat - lat) with 0 by lra.
    replace (lon - lon) with 0 by lra.
    replace (0 * (PI / 180) / 2) with 0 by lra.
    rewrite sin_0.
    replace (0 * 0 + cos (lat * (PI / 180)) * cos (lat * (PI / 180)) * 0 * 0)
      with 0 by ring.
    replace (1 - 0) with 1 by lra.
    rewrite sqrt_0, sqrt_1, atan2_0_1. ring.
  - intros lat1 lon1 lat2 lon2. unfold Geo.calculateDistance.
    cbv zeta. rewrite (haversine_a_swap lat1 lon1 lat2 lon2). reflexivity.
Qed.


End GeoFacts.

(** ** Checkout *)

Section CheckoutFacts.

Lemma latest_nil (rows : list Checkin.t) :
  Sql.latest rows = [] -> rows = [].
Proof.
  destruct rows as [| r rest]; [reflexivity |].
  simpl. destruct (Sql.latest rest) as [| r' l]; [discriminate |].
  destruct (Checkin.checkin_time r <? Checkin.checkin_time r')%Z;
    discriminate.
Qed.

Lemma latest_In (rows : list Checkin.t) (r : Checkin.t) (l : list Checkin.t) :
  Sql.latest rows = r :: l -> In r rows.
Proof.
  revert r l. induction rows as [| x rest IH]; intros r l; simpl.
  - discriminate.
  - destruct (Sql.latest rest) as [| r' l'] eqn:E.
    + intros [= <- _]. now left.
    + destruct (Checkin.checkin_time x <? Checkin.checkin_time r')%Z;
        intros [= <- _].
      * right. eapply IH. reflexivity.
      * now left.
Qed.

Lemma no_active_filter (s : Store) (e : Z) :
  no_active s e = true -> filter (Checkin.active_of e) (checkins s) = [].
Proof.
  unfold no_active. induction (checkins s) as [| c rest IH]; simpl.
  - reflexivity.
  - intros H. apply andb_true_iff in H as [Hc Hrest].
    apply negb_true_iff in Hc. rewrite Hc. auto.
Qed.

Lemma no_active_find (s : Store) (e : Z) :
  no_active s e = true -> Db.checkins_.getActiveByEmployeeId s e = None.
Proof.
  unfold no_active, Db.checkins_.getActiveByEmployeeId.
  induction (checkins s) as [| c rest IH]; simpl.
  - reflexivity.
  - intros H. apply andb_true_iff in H as [Hc Hrest].
    apply negb_true_iff in Hc. rewrite Hc. auto.
Qed.

Lemma no_checkin_filter (s : Store) (e : Z) :
  no_checkin s e = true ->
  filter (fun c => (Checkin.employee_id c =? e)%Z) (checkins s) = [].
Proof.
  unfold no_checkin. induction (checkins s) as [| c rest IH]; simpl.
  - reflexivity.
  - intros H. apply andb_true_iff in H as [Hc Hrest].
    apply negb_true_iff in Hc. rewrite Hc. auto.
Qed.

(** C1, as the routes have it.  For an employee without an active check-in
    the checkout fails and the store is returned as it was: with 404 in the
    transactional Express route, with 400 in the Next.js route; the first
    Express revision answers 404 when the employee has no check-in at
    all. *)
Theorem checkout_without_active (s : Store) (employeeId now : Z)
        (H : no_active s employeeId = true) :
  ExpressV2.put_checkout s employeeId now =
    (Http.json 404 (Http.Failure "No active check-in found"), s) /\
  NextApi.POST_checkout s employeeId now =
    (Http.json 400 (Http.Failure "No active check-in found to checkout from"),
     s) /\
  (no_checkin s employeeId = true ->
   ExpressV1.put_checkout s employeeId now =
     (Http.json 404 (Http.Failure "No active check-in found"), s)).
Proof.
  repeat split.
  - unfold ExpressV2.put_checkout, ExpressV2.getMostRecentActiveCheckin.
    now rewrite (no_active_filter s employeeId H).
  - unfold NextApi.POST_checkout, NextApi.getActiveCheckin.
    now rewrite (no_active_find s employeeId H).
  - intros Hnone. unfold ExpressV1.put_checkout, ExpressV1.lastCheckin.
    now rewrite (no_checkin_filter s employeeId Hnone).
Qed.

Lemma checkout_without_active_witness :
  no_active Db.seed 4 = true /\
  no_checkin Db.seed 4 = true /\
  ExpressV2.put_checkout Db.seed 4 1705400000000 =
    (Http.json 404 (Http.Failure "No active check-in found"), Db.seed) /\
  NextApi.POST_checkout Db.seed 4 1705400000000 =
    (Http.json 400 (Http.Failure "No active check-in found to checkout from"),
     Db.seed) /\
  ExpressV1.put_checkout Db.seed 4 1705400000000 =
    (Http.json 404 (Http.Failure "No active check-in found"), Db.seed).
Proof.
  assert (Ha : no_active Db.seed 4 = true) by reflexivity.
  assert (Hn : no_checkin Db.seed 4 = true) by reflexivity.
  destruct (checkout_without_active Db.seed 4 1705400000000 Ha)
    as (H2 & H3 & H1).
  split; [exact Ha |]. split; [exact Hn |].
  split; [exact H2 |]. split; [exact H3 | exact (H1 Hn)].
Defined.

(** C1, as stated, fails on the seed data for employee 2, whose three
    check-ins are all checked out: the Next.js route answers 400, and the
    first Express revision, whose [SELECT] has no status condition, answers
    200 and overwrites the [checkout_time] of the latest check-in. *)
Lemma checkout_without_active_counterexample :
  no_active Db.seed 2 = true /\
  Http.status (fst (NextApi.POST_checkout Db.seed 2 1705400000000)) = 400%Z /\
  ~ (Http.status (fst (NextApi.POST_checkout Db.seed 2 1705400000000))
     = 404%Z /\
     snd (NextApi.POST_checkout Db.seed 2 1705400000000) = Db.seed) /\
  Http.status (fst (ExpressV1.put_checkout Db.seed 2 1705400000000))
    = 200%Z /\
  map Checkin.checkout_time
      (checkins (snd (ExpressV1.put_checkout Db.seed 2 1705400000000))) =
    [Some 1705318200000%Z; Some 1705327200000%Z; Some 1705400000000%Z;
     Some 1705320000000%Z; Some 1705334400000%Z] /\
  ~ (Http.status (fst (ExpressV1.put_checkout Db.seed 2 1705400000000))
     = 404%Z /\
     snd (ExpressV1.put_checkout Db.seed 2 1705400000000) = Db.seed).
Proof.
  repeat split; try reflexivity.
  - intros [H _]. discriminate H.
  - intros [H _]. discriminate H.
Qed.

End CheckoutFacts.

(** ** The frame of a checkout *)

Section CheckoutFrame.

(** The current timestamp of the checkout request. *)
Variable now : Z.

Lemma close_closed_from (c : Checkin.t) :
  closed_from now c (Checkin.close now c).
Proof. unfold closed_from; simpl; repeat split. Qed.

Lemma checkout_row_refl (rows : list Checkin.t) :
  Forall2 (checkout_row now) rows rows.
Proof. induction rows; constructor; auto. now left. Qed.

Lemma checkout_rows_frame (checkinId : Z) (rows : list Checkin.t) :
  Forall2 (checkout_row now) rows
          (Db.checkins_.checkout_rows checkinId now rows).
Proof.
  induction rows as [| c rest IH]; simpl.
  - constructor.
  - destruct (Checkin.id c =? checkinId)%Z.
    + constructor.
      * right. apply close_closed_from.
      * apply checkout_row_refl.
    + constructor; [now left | exact IH].
Qed.

Lemma updateCheckout_frame (checkinId : Z) (rows : list Checkin.t) :
  Forall2 (checkout_row now) rows (Sql.updateCheckout checkinId now rows).
Proof.
  induction rows as [| c rest IH]; simpl; constructor; auto.
  destruct (Checkin.id c =? checkinId)%Z.
  - right. apply close_closed_from.
  - now left.
Qed.

Lemma updateCheckoutIfActive_frame (checkinId : Z)
      (rows : list Checkin.t) :
  Forall2 (checkout_row now) rows
          (Sql.updateCheckoutIfActive checkinId now rows).
Proof.
  induction rows as [| c rest IH]; simpl; constructor; auto.
  destruct ((Checkin.id c =? checkinId)%Z && Checkin.is_active c).
  - right. apply close_closed_from.
  - now left.
Qed.

Lemma checkout_frame_refl (s : Store) : checkout_frame now s s.
Proof. repeat split. apply checkout_row_refl. Qed.

Lemma db_checkout_frame (s : Store) (checkinId : Z) :
  checkout_frame now s (snd (Db.checkins_.checkout s checkinId now)).
Proof.
  unfold Db.checkins_.checkout.
  destruct (Db.checkins_.findById s checkinId).
  - repeat split. apply checkout_rows_frame.
  - apply checkout_frame_refl.
Qed.

Lemma v2_checkout_frame (s : Store) (employeeId : Z) :
  checkout_frame now s (snd (ExpressV2.put_checkout s employeeId now)).
Proof.
  unfold ExpressV2.put_checkout.
  destruct (ExpressV2.getMostRecentActiveCheckin s employeeId).
  - apply checkout_frame_refl.
  - repeat split. apply updateCheckoutIfActive_frame.
Qed.

Lemma checkout_rows_In (checkinId : Z) (rows : list Checkin.t)
      (c : Checkin.t) :
  find (fun c => (Checkin.id c =? checkinId)%Z) rows = Some c ->
  In (Checkin.close now c) (Db.checkins_.checkout_rows checkinId now rows).
Proof.
  induction rows as [| x rest IH]; simpl.
  - discriminate.
  - destruct (Checkin.id x =? checkinId)%Z.
    + intros [= ->]. now left.
    + intros H. right. auto.
Qed.

Lemma updateCheckoutIfActive_In (rows : list Checkin.t)
      (c : Checkin.t) :
  In c rows -> Checkin.is_active c = true ->
  In (Checkin.close now c)
     (Sql.updateCheckoutIfActive (Checkin.id c) now rows).
Proof.
  intros Hin Hact. unfold Sql.updateCheckoutIfActive.
  apply in_map_iff. exists c. split; [| exact Hin].
  now rewrite Z.eqb_refl, Hact.
Qed.

(** The other two checkout handlers change rows in the same way. *)
Lemma other_checkouts_frame (s : Store) (employeeId : Z) :
  checkout_frame now s (snd (ExpressV1.put_checkout s employeeId now)) /\
  checkout_frame now s (snd (NextApi.POST_checkout s employeeId now)).
Proof.
  split.
  - unfold ExpressV1.put_checkout.
    destruct (ExpressV1.lastCheckin s employeeId).
    + apply checkout_frame_refl.
    + repeat split. apply updateCheckout_frame.
  - unfold NextApi.POST_checkout.
    destruct (NextApi.getActiveCheckin s employeeId).
    + apply db_checkout_frame.
    + apply checkout_frame_refl.
Qed.

Lemma checkout_rows_first (checkinId : Z) (rows : list Checkin.t)
      (c : Checkin.t) :
  find (fun x => (Checkin.id x =? checkinId)%Z) rows = Some c ->
  replaces_first checkinId c (Checkin.close now c) rows
                 (Db.checkins_.checkout_rows checkinId now rows).
Proof.
  induction rows as [| x rest IH]; simpl; [discriminate |].
  destruct (Checkin.id x =? checkinId)%Z eqn:E.
  - intros H. injection H as <-. exists [], rest. simpl.
    apply Z.eqb_eq in E. repeat split; [constructor | exact E].
  - intros H. destruct (IH H) as (before & after & Hrows & Hall & Hid & Hout).
    exists (x :: before), after. simpl. rewrite Hrows at 1. rewrite Hout.
    apply Z.eqb_neq in E.
    repeat split; [constructor; assumption | exact Hid].
Qed.

Lemma updateCheckoutIfActive_only (checkinId : Z) (rows : list Checkin.t) :
  only_closes now (open_with_id checkinId) rows
              (Sql.updateCheckoutIfActive checkinId now rows).
Proof.
  unfold only_closes, Sql.updateCheckoutIfActive.
  induction rows as [| c rest IH]; simpl; constructor; [| exact IH].
  unfold open_with_id, Checkin.is_active.
  destruct (Checkin.id c =? checkinId)%Z; simpl; [| reflexivity].
  destruct (Checkin.status c); simpl;
    [apply close_closed_from | reflexivity].
Qed.

End CheckoutFrame.

(** C8. A checkout ([db.checkins.checkout] and the [UPDATE] of the
    transactional route) keeps users, clients and assignments, and leaves
    each check-in either untouched or changed in [checkout_time] (now the
    current timestamp) and [status] (now [checked_out]) only: id, employee,
    client, [checkin_time], coordinates, [distance_from_client] and notes
    are the ones it had.  The row the checkout selects is closed in this
    way, and no other row changes: [db.checkins.checkout] replaces the first
    check-in with the given id and nothing else (nothing at all when there
    is none), and the [UPDATE] changes the rows that have the id of the
    selected check-in and are checked in, and no other row. *)
Theorem checkout_changes_time_and_status_only
        (s : Store) (employeeId checkinId now : Z) :
  checkout_frame now s (snd (Db.checkins_.checkout s checkinId now)) /\
  (forall c, Db.checkins_.findById s checkinId = Some c ->
     fst (Db.checkins_.checkout s checkinId now) =
       Some (Checkin.close now c) /\
     In (Checkin.close now c)
        (checkins (snd (Db.checkins_.checkout s checkinId now)))) /\
  checkout_frame now s (snd (ExpressV2.put_checkout s employeeId now)) /\
  (forall checkin rest,
     ExpressV2.getMostRecentActiveCheckin s employeeId = checkin :: rest ->
     In (Checkin.close now checkin)
        (checkins (snd (ExpressV2.put_checkout s employeeId now)))) /\
  match Db.checkins_.findById s checkinId with
  | Some c =>
      exists c',
        closed_from now c c' /\
        fst (Db.checkins_.checkout s checkinId now) = Some c' /\
        replaces_first checkinId c c' (checkins s)
          (checkins (snd (Db.checkins_.checkout s checkinId now)))
  | None => Db.checkins_.checkout s checkinId now = (None, s)
  end /\
  match ExpressV2.getMostRecentActiveCheckin s employeeId with
  | checkin :: _ =>
      Checkin.employee_id checkin = employeeId /\
      Checkin.status checkin = checked_in /\
      only_closes now (open_with_id (Checkin.id checkin)) (checkins s)
        (checkins (snd (ExpressV2.put_checkout s employeeId now)))
  | [] => snd (ExpressV2.put_checkout s employeeId now) = s
  end.
Proof.
  split; [apply db_checkout_frame |].
  split.
  { intros c Hc. unfold Db.checkins_.checkout. rewrite Hc. simpl.
    split; [reflexivity |].
    apply checkout_rows_In. exact Hc. }
  split; [apply v2_checkout_frame |].
  split.
  { intros checkin rest Hsel. unfold ExpressV2.put_checkout.
    rewrite Hsel. simpl.
    unfold ExpressV2.getMostRecentActiveCheckin in Hsel.
    apply latest_In in Hsel. apply filter_In in Hsel as [Hin Hact].
    apply updateCheckoutIfActive_In; [exact Hin |].
    unfold Checkin.active_of in Hact.
    now apply andb_true_iff in Hact as [_ Hact]. }
  split.
  { unfold Db.checkins_.checkout.
    destruct (Db.checkins_.findById s checkinId) as [c |] eqn:Hc;
      [| reflexivity].
    exists (Checkin.close now c). simpl.
    split; [apply close_closed_from |]. split; [reflexivity |].
    apply checkout_rows_first. exact Hc. }
  unfold ExpressV2.put_checkout.
  destruct (ExpressV2.getMostRecentActiveCheckin s employeeId)
    as [| checkin rest] eqn:Hsel; [reflexivity |].
  simpl. unfold ExpressV2.getMostRecentActiveCheckin in Hsel.
  apply latest_In in Hsel. apply filter_In in Hsel as [_ Hact].
  unfold Checkin.active_of, Checkin.is_active in Hact.
  apply andb_true_iff in Hact as [Hemp Hst]. apply Z.eqb_eq in Hemp.
  split; [exact Hemp |]. split.
  - destruct (Checkin.status checkin); [reflexivity | discriminate].
  - apply updateCheckoutIfActive_only.
Qed.

Lemma checkout_changes_time_and_status_only_witness :
  fst (Db.checkins_.checkout seed_with_active 6 1705403600000) =
    Some (Checkin.mk 6 4 1 1705400000000 (Some 1705403600000%Z)
                     None None None None checked_out) /\
  In (Checkin.mk 6 4 1 1705400000000 (Some 1705403600000%Z)
                 None None None None checked_out)
     (checkins (snd (ExpressV2.put_checkout seed_with_active 4
                                            1705403600000))) /\
  only_closes 1705403600000 (open_with_id 6) (checkins seed_with_active)
    (checkins (snd (ExpressV2.put_checkout seed_with_active 4
                                           1705403600000))).
Proof.
  destruct (checkout_changes_time_and_status_only
              seed_with_active 4 6 1705403600000)
    as (_ & Hdb & _ & Hv2 & _ & Honly).
  split; [| split].
  - exact (proj1 (Hdb (Checkin.mk 6 4 1 1705400000000 None None None None
                                  None checked_in) eq_refl)).
  - exact (Hv2 (Checkin.mk 6 4 1 1705400000000 None None None None None
                           checked_in) [] eq_refl).
  - exact (proj2 (proj2 Honly)).
Defined.


(** ** Creating a check-in: the outcomes of the three handlers *)

Section CreateOutcomes.

Lemma assignments_isAssigned (s : Store) (u c : Z) :
  (List.length (Sql.assignments s u c) =? 0)%nat =
  negb (Db.employeeClients_.isAssigned s u c).
Proof.
  unfold Sql.assignments, Db.employeeClients_.isAssigned.
  induction (employeeClients s) as [| ec rest IH]; simpl.
  - reflexivity.
  - destruct ((EmployeeClient.employee_id ec =? u)%Z &&
              (EmployeeClient.client_id ec =? c)%Z); simpl; auto.
Qed.

Lemma find_none_filter {A : Type} (f : A -> bool) (l : list A) :
  find f l = None -> filter f l = [].
Proof.
  induction l as [| x rest IH]; simpl; [reflexivity |].
  destruct (f x); [discriminate | exact IH].
Qed.

Lemma length_zero_nil {A : Type} (l : list A) :
  (0 <? List.length l)%nat = false -> l = [].
Proof. destruct l; [reflexivity | discriminate]. Qed.

(** First Express revision: either a 201 with one row appended, or a 400 or
    403 with the store as it was. *)
Lemma v1_post_outcomes (s : Store) (u now : Z) (body : CheckinBody) :
  let r := ExpressV1.post_checkin s u now body in
  (exists cid c d w,
      body_client_id body = Some cid /\ cid <> 0%Z /\
      Db.employeeClients_.isAssigned s u cid = true /\
      active_count s u = 0%nat /\
      ExpressV1.distance (Sql.clientsById s cid)
                         (body_latitude body) (body_longitude body) = (d, w) /\
      fst r = Http.json 201 (Http.Created (Checkin.id c) d w) /\
      inserted_by s (snd r) u c /\
      Checkin.client_id c = cid /\
      Checkin.distance_from_client c = d) \/
  (snd r = s /\
   (Http.status (fst r) = 400%Z \/
    (Http.status (fst r) = 403%Z /\
     exists cid, body_client_id body = Some cid /\ cid <> 0%Z /\
                 Db.employeeClients_.isAssigned s u cid = false))).
Proof.
  unfold ExpressV1.post_checkin.
  destruct (body_client_id body) as [cid |] eqn:Hcid; simpl;
    [| right; auto].
  destruct (cid =? 0)%Z eqn:Hz; simpl; [right; auto |].
  apply Z.eqb_neq in Hz.
  rewrite assignments_isAssigned.
  destruct (Db.employeeClients_.isAssigned s u cid) eqn:Hass; simpl.
  2:{ right. split; [reflexivity |]. right. split; [reflexivity |].
      exists cid. auto. }
  destruct (0 <? List.length (Sql.activeCheckins s u))%nat eqn:Hact; simpl;
    [right; auto |].
  apply length_zero_nil in Hact.
  destruct (ExpressV1.distance (Sql.clientsById s cid) (body_latitude body)
                               (body_longitude body)) as [d w] eqn:Hd.
  left. eexists cid, _, d, w. simpl.
  repeat split; try reflexivity; try assumption.
  unfold active_count. unfold Sql.activeCheckins in Hact. now rewrite Hact.
Qed.

(** Second Express revision. *)
Lemma v2_post_outcomes (s : Store) (u now : Z) (body : CheckinBody) :
  let r := ExpressV2.post_checkin s u now body in
  (exists cid c,
      body_client_id body = Some cid /\ cid <> 0%Z /\
      Db.employeeClients_.isAssigned s u cid = true /\
      active_count s u = 0%nat /\
      Http.status (fst r) = 201%Z /\
      inserted_by s (snd r) u c /\
      Checkin.client_id c = cid) \/
  (snd r = s /\
   (Http.status (fst r) = 400%Z \/
    (Http.status (fst r) = 403%Z /\
     exists cid, body_client_id body = Some cid /\ cid <> 0%Z /\
                 Db.employeeClients_.isAssigned s u cid = false))).
Proof.
  unfold ExpressV2.post_checkin.
  destruct (body_client_id body) as [cid |] eqn:Hcid; simpl;
    [| right; auto].
  destruct (cid =? 0)%Z eqn:Hz; simpl; [right; auto |].
  apply Z.eqb_neq in Hz.
  destruct (ExpressV2.one_missing _ _); simpl; [right; auto |].
  destruct (ExpressV2.validLat _); simpl; [| right; auto].
  destruct (ExpressV2.validLng _); simpl; [| right; auto].
  rewrite assignments_isAssigned.
  destruct (Db.employeeClients_.isAssigned s u cid) eqn:Hass; simpl.
  2:{ right. split; [reflexivity |]. right. split; [reflexivity |].
      exists cid. auto. }
  destruct (0 <? List.length (ExpressV2.getMostRecentActiveCheckin s u))%nat
    eqn:Hact; simpl; [right; auto |].
  apply length_zero_nil in Hact.
  unfold ExpressV2.getMostRecentActiveCheckin in Hact.
  apply latest_nil in Hact.
  destruct (ExpressV2.distance (Sql.clientsById s cid) (body_latitude body)
                               (body_longitude body)) as [d w] eqn:Hd.
  left. eexists cid, _. simpl.
  repeat split; try reflexivity; try assumption.
  unfold active_count. now rewrite Hact.
Qed.

(** The Next.js handler: either a 201 with one row appended, or a 400 with
    the store as it was.  The assignments are not read. *)
Lemma next_post_outcomes (s : Store) (u now : Z) (body : CheckinBody) :
  let r := NextApi.POST_checkin s u now body in
  (exists cid client c d w,
      body_client_id body = Some cid /\
      NextApi.getClientById s cid = Some client /\
      active_count s u = 0%nat /\
      NextApi.distance (body_latitude body) (body_longitude body) client
        = (d, w) /\
      fst r = Http.json 201 (Http.Created (Checkin.id c) d w) /\
      inserted_by s (snd r) u c /\
      Checkin.client_id c = cid /\
      Checkin.distance_from_client c = d) \/
  (snd r = s /\ Http.status (fst r) = 400%Z).
Proof.
  unfold NextApi.POST_checkin.
  destruct (body_client_id body) as [cid |] eqn:Hcid; simpl;
    [| right; auto].
  destruct (cid =? 0)%Z; simpl; [right; auto |].
  destruct (cid <? 1)%Z; simpl; [right; auto |].
  destruct (NextApi.latitude_ok _); simpl; [| right; auto].
  destruct (NextApi.longitude_ok _); simpl; [| right; auto].
  destruct (NextApi.notes_too_long _); simpl; [right; auto |].
  destruct (NextApi.getActiveCheckin s u) eqn:Hact; simpl; [right; auto |].
  destruct (NextApi.getClientById s cid) as [client |] eqn:Hcl; simpl;
    [| right; auto].
  destruct (NextApi.distance (body_latitude body) (body_longitude body)
                             client) as [d w] eqn:Hd.
  left. eexists cid, client, _, d, w. simpl.
  repeat split; try reflexivity; try assumption.
  unfold active_count.
  unfold NextApi.getActiveCheckin, Db.checkins_.getActiveByEmployeeId in Hact.
  now rewrite (find_none_filter _ _ Hact).
Qed.

End CreateOutcomes.

(** ** The handlers on JSON bodies *)

Section JsonRequests.

Variables (s : Store) (u now : Z).

Lemma js_lt_false (a b : R) : Js.lt a b = false <-> b <= a.
Proof.
  unfold Js.lt. destruct (Rlt_dec a b); split; intros H;
    try reflexivity; try discriminate; lra.
Qed.

Lemma js_gt_false (a b : R) : Js.gt a b = false <-> a <= b.
Proof.
  unfold Js.gt. destruct (Rlt_dec b a); split; intros H;
    try reflexivity; try discriminate; lra.
Qed.

Lemma isValidLatitude_iff (v : R) :
  ExpressV2.isValidLatitude v = true <-> -90 <= v <= 90.
Proof.
  unfold ExpressV2.isValidLatitude.
  rewrite andb_true_iff, !negb_true_iff, js_lt_false, js_gt_false. tauto.
Qed.

Lemma isValidLongitude_iff (v : R) :
  ExpressV2.isValidLongitude v = true <-> -180 <= v <= 180.
Proof.
  unfold ExpressV2.isValidLongitude.
  rewrite andb_true_iff, !negb_true_iff, js_lt_false, js_gt_false. tauto.
Qed.

Lemma request_of_body (body : CheckinBody) : body_of (request_of body) = body.
Proof. destruct body as [c [x |] [y |] n]; reflexivity. Qed.

(** The handlers on [CheckinBody] are the handlers on the JSON bodies
    without [null] coordinates. *)
Lemma v2_post_request_of (body : CheckinBody) :
  ExpressV2.post s u now (request_of body) =
  ExpressV2.post_checkin s u now body.
Proof.
  unfold ExpressV2.post. rewrite request_of_body.
  unfold ExpressV2.post_checkin.
  destruct body as [[c |] [x |] [y |] n]; simpl; try reflexivity;
    destruct (c =? 0)%Z; simpl; try reflexivity;
    repeat match goal with
           | |- context [ExpressV2.isValidLatitude ?v] =>
               destruct (ExpressV2.isValidLatitude v); simpl
           | |- context [ExpressV2.isValidLongitude ?v] =>
               destruct (ExpressV2.isValidLongitude v); simpl
           end; reflexivity.
Qed.

Lemma next_POST_request_of (body : CheckinBody) :
  NextApi.POST s u now (request_of body) = NextApi.POST_checkin s u now body.
Proof.
  unfold NextApi.POST. rewrite request_of_body.
  unfold NextApi.POST_checkin.
  destruct body as [[c |] [x |] [y |] n]; simpl; try reflexivity;
    destruct (c =? 0)%Z; simpl; try reflexivity;
    destruct (c <? 1)%Z; simpl; try reflexivity;
    repeat match goal with
           | |- context [Js.lt ?a ?b || Js.gt ?c ?d] =>
               destruct (Js.lt a b || Js.gt c d); simpl
           end; reflexivity.
Qed.

(** The transactional route on a JSON body: the coordinate checks pass
    exactly for a [coordinate_pair]; a body that fails them gets 400 and the
    store is untouched. *)
Lemma v2_post_validation (req : Request) (cid : Z) :
  request_client_id req = Some cid -> cid <> 0%Z ->
  (coordinate_pair (request_latitude req) (request_longitude req) /\
   ExpressV2.post s u now req = ExpressV2.post_checkin s u now (body_of req) /\
   ExpressV2.one_missing (body_latitude (body_of req))
                         (body_longitude (body_of req)) = false /\
   ExpressV2.validLat (body_latitude (body_of req)) = true /\
   ExpressV2.validLng (body_longitude (body_of req)) = true) \/
  (~ coordinate_pair (request_latitude req) (request_longitude req) /\
   snd (ExpressV2.post s u now req) = s /\
   Http.status (fst (ExpressV2.post s u now req)) = 400%Z).
Proof.
  intros Hcid Hnz. unfold ExpressV2.post. rewrite Hcid. simpl.
  apply Z.eqb_neq in Hnz. rewrite Hnz. simpl.
  destruct req as [c lat lng n]. simpl in *.
  destruct lat as [| | x], lng as [| | y]; simpl;
    try (right; split; [intros [] |];
         repeat match goal with
                | |- context [ExpressV2.isValidLatitude ?v] =>
                    destruct (ExpressV2.isValidLatitude v); simpl
                end;
         split; reflexivity).
  - left. repeat split; reflexivity.
  - destruct (ExpressV2.isValidLatitude x) eqn:Hx; simpl.
    + destruct (ExpressV2.isValidLongitude y) eqn:Hy; simpl.
      * left. split; [| repeat split; reflexivity].
        apply isValidLatitude_iff in Hx. apply isValidLongitude_iff in Hy.
        split; assumption.
      * right. split; [| split; reflexivity].
        intros [_ H]. apply isValidLongitude_iff in H. congruence.
    + right. split; [| split; reflexivity].
      intros [H _]. apply isValidLatitude_iff in H. congruence.
Qed.

Lemma v2_request_outcomes (req : Request) :
  let r := ExpressV2.post s u now req in
  (exists cid c,
      request_client_id req = Some cid /\ cid <> 0%Z /\
      coordinate_pair (request_latitude req) (request_longitude req) /\
      Db.employeeClients_.isAssigned s u cid = true /\
      active_count s u = 0%nat /\
      Http.status (fst r) = 201%Z /\
      inserted_by s (snd r) u c /\
      Checkin.client_id c = cid) \/
  (snd r = s /\
   (Http.status (fst r) = 400%Z \/
    (Http.status (fst r) = 403%Z /\
     exists cid, request_client_id req = Some cid /\ cid <> 0%Z /\
                 Db.employeeClients_.isAssigned s u cid = false))).
Proof.
  destruct (request_client_id req) as [cid |] eqn:Hcid.
  2:{ right. unfold ExpressV2.post. rewrite Hcid. simpl. auto. }
  destruct (Z.eq_dec cid 0) as [-> | Hnz].
  { right. unfold ExpressV2.post. rewrite Hcid. simpl. auto. }
  destruct (v2_post_validation req cid Hcid Hnz)
    as [(Hpair & Heq & _) | (_ & Hs & H400)].
  - simpl. rewrite Heq.
    destruct (v2_post_outcomes s u now (body_of req))
      as [(cid' & c & Hcid' & Hnz' & Hass & Hnone & Hst & Hins & Hc)
         | Hfail].
    + left. simpl in Hcid'. rewrite Hcid in Hcid'. injection Hcid' as <-.
      exists cid, c. repeat split; try assumption; try reflexivity;
        apply Hins.
    + right. simpl in Hfail. rewrite Hcid in Hfail. exact Hfail.
  - right. split; [exact Hs | left; exact H400].
Qed.

Lemma invalid_coordinate_iff (bound : R) (c : Json.coordinate) :
  NextApi.invalid_coordinate (- bound) bound c = false <->
  coordinate_within bound c.
Proof.
  destruct c as [| | x]; simpl.
  - tauto.
  - split; [discriminate | intros []].
  - rewrite orb_false_iff, js_lt_false, js_gt_false. tauto.
Qed.

(** The Next.js handler on a JSON body: the coordinate checks pass exactly
    for coordinates within their bounds ([null] is refused). *)
Lemma next_POST_validation (req : Request) (cid : Z) :
  request_client_id req = Some cid -> (1 <= cid)%Z ->
  (coordinate_within 90 (request_latitude req) /\
   coordinate_within 180 (request_longitude req) /\
   NextApi.POST s u now req = NextApi.POST_checkin s u now (body_of req)) \/
  (~ (coordinate_within 90 (request_latitude req) /\
      coordinate_within 180 (request_longitude req)) /\
   snd (NextApi.POST s u now req) = s /\
   Http.status (fst (NextApi.POST s u now req)) = 400%Z).
Proof.
  intros Hcid Hpos. unfold NextApi.POST. rewrite Hcid.
  assert (Hnz : (cid =? 0)%Z = false) by (apply Z.eqb_neq; lia).
  assert (Hlt : (cid <? 1)%Z = false) by (apply Z.ltb_ge; lia).
  simpl. rewrite Hnz, Hlt. simpl.
  change (-90) with (- (90)). change (-180) with (- (180)).
  destruct (NextApi.invalid_coordinate (- (90)) 90 (request_latitude req))
    eqn:Hlat.
  { right. split; [| split; reflexivity]. intros [H _].
    apply invalid_coordinate_iff in H. congruence. }
  destruct (NextApi.invalid_coordinate (- (180)) 180 (request_longitude req))
    eqn:Hlng.
  { right. split; [| split; reflexivity]. intros [_ H].
    apply invalid_coordinate_iff in H. congruence. }
  left. apply invalid_coordinate_iff in Hlat, Hlng. auto.
Qed.

Lemma next_request_outcomes (req : Request) :
  let r := NextApi.POST s u now req in
  (exists cid client c,
      request_client_id req = Some cid /\ (1 <= cid)%Z /\
      coordinate_within 90 (request_latitude req) /\
      coordinate_within 180 (request_longitude req) /\
      NextApi.getClientById s cid = Some client /\
      active_count s u = 0%nat /\
      Http.status (fst r) = 201%Z /\
      inserted_by s (snd r) u c /\
      Checkin.client_id c = cid) \/
  (snd r = s /\ Http.status (fst r) = 400%Z).
Proof.
  destruct (request_client_id req) as [cid |] eqn:Hcid.
  2:{ right. unfold NextApi.POST. rewrite Hcid. simpl. auto. }
  destruct (Z_lt_le_dec cid 1) as [Hlt | Hpos].
  { right. unfold NextApi.POST. rewrite Hcid.
    destruct (negb (truthy_id (Some cid))); [simpl; auto |].
    apply Z.ltb_lt in Hlt. rewrite Hlt. simpl. auto. }
  destruct (next_POST_validation req cid Hcid Hpos)
    as [(Hlat & Hlng & Heq) | (_ & Hs & H400)].
  - simpl. rewrite Heq.
    destruct (next_post_outcomes s u now (body_of req))
      as [(cid' & client & c & d & w & Hcid' & Hcl & Hnone & _ & Hfst & Hins
           & Hc & _) | Hfail].
    + left. simpl in Hcid'. rewrite Hcid in Hcid'. injection Hcid' as <-.
      exists cid, client, c. rewrite Hfst.
      repeat split; try assumption; try reflexivity;
        try apply Hlat; try apply Hlng; apply Hins.
    + right. exact Hfail.
  - right. split; assumption.
Qed.

(** The first Express revision with its [catch] block: an engine that
    rejects the double-quoted token lets no request through. *)
Lemma v1_request_outcomes (engine : Sql.Engine) (req : Request) :
  let r := ExpressV1.post engine s u now req in
  (exists cid c,
      engine = Sql.reads_string_literal /\
      request_client_id req = Some cid /\ cid <> 0%Z /\
      Db.employeeClients_.isAssigned s u cid = true /\
      active_count s u = 0%nat /\
      Http.status (fst r) = 201%Z /\
      inserted_by s (snd r) u c /\
      Checkin.client_id c = cid) \/
  (snd r = s /\
   (Http.status (fst r) = 400%Z \/
    (Http.status (fst r) = 403%Z /\
     exists cid, request_client_id req = Some cid /\ cid <> 0%Z /\
                 Db.employeeClients_.isAssigned s u cid = false) \/
    (Http.status (fst r) = 500%Z /\ engine = Sql.rejects_statement /\
     exists cid, request_client_id req = Some cid /\ cid <> 0%Z /\
                 Db.employeeClients_.isAssigned s u cid = true))).
Proof.
  destruct engine; simpl.
  - destruct (v1_post_outcomes s u now (body_of req))
      as [(cid & c & d & w & Hcid & Hnz & Hass & Hnone & _ & Hfst & Hins
           & Hc & _) | [Hs [H400 | H403]]].
    + left. exists cid, c. rewrite Hfst.
      repeat split; try assumption; try reflexivity; apply Hins.
    + right. split; [exact Hs | left; exact H400].
    + right. split; [exact Hs | right; left; exact H403].
  - right. destruct (request_client_id req) as [cid |] eqn:Hcid;
      [| simpl; auto].
    destruct (cid =? 0)%Z eqn:Hz; simpl; [auto |].
    apply Z.eqb_neq in Hz. rewrite assignments_isAssigned.
    destruct (Db.employeeClients_.isAssigned s u cid) eqn:Hass; simpl.
    + split; [reflexivity |]. right; right.
      split; [reflexivity |]. split; [reflexivity |]. exists cid. auto.
    + split; [reflexivity |]. right; left.
      split; [reflexivity |]. exists cid. auto.
Qed.

(** A request on a JSON body, on either engine, changes nothing or is a
    step of the state machine. *)
Lemma request_step (engine : Sql.Engine) (req : Request) :
  (snd (NextApi.POST s u now req) = s \/
   step s (snd (NextApi.POST s u now req))) /\
  (snd (ExpressV2.post s u now req) = s \/
   step s (snd (ExpressV2.post s u now req))) /\
  (snd (ExpressV1.post engine s u now req) = s \/
   step s (snd (ExpressV1.post engine s u now req))) /\
  (snd (ExpressV1.checkout engine s u now) = s \/
   step s (snd (ExpressV1.checkout engine s u now))).
Proof.
  split; [| split; [| split]].
  - unfold NextApi.POST.
    repeat match goal with
           | |- context [match ?o with Some _ => _ | None => _ end] =>
               destruct o
           | |- context [if ?b then _ else _] => destruct b
           end; try (left; reflexivity).
    right. apply step_next_checkin.
  - unfold ExpressV2.post.
    repeat match goal with
           | |- context [if ?b then _ else _] => destruct b
           end; try (left; reflexivity).
    right. apply step_v2_checkin.
  - destruct engine; simpl.
    + right. apply step_v1_checkin.
    + left. destruct (request_client_id req) as [cid |]; [| reflexivity].
      repeat match goal with
             | |- context [if ?b then _ else _] => destruct b
             end; reflexivity.
  - destruct engine; simpl.
    + right. apply step_v1_checkout.
    + left. destruct (ExpressV1.lastCheckin s u); reflexivity.
Qed.

End JsonRequests.

(** ** At most one active check-in per employee *)

Section SingleActive.

Lemma closed_not_active (now e : Z) (c c' : Checkin.t) :
  closed_from now c c' -> Checkin.active_of e c' = false.
Proof.
  intros H. unfold Checkin.active_of, Checkin.is_active.
  destruct H as (_ & _ & _ & _ & _ & _ & _ & _ & _ & Hst).
  rewrite Hst. simpl. apply andb_false_r.
Qed.

Lemma checkout_rows_active (now e : Z) (rows rows' : list Checkin.t) :
  Forall2 (checkout_row now) rows rows' ->
  (List.length (filter (Checkin.active_of e) rows') <=
   List.length (filter (Checkin.active_of e) rows))%nat.
Proof.
  induction 1 as [| c c' rest rest' Hrow _ IH]; simpl; [lia |].
  destruct Hrow as [-> | Hclosed].
  - destruct (Checkin.active_of e c); simpl; lia.
  - rewrite (closed_not_active now e c c' Hclosed).
    destruct (Checkin.active_of e c); simpl; lia.
Qed.

Lemma checkout_frame_single_active (now : Z) (s s' : Store) :
  checkout_frame now s s' -> single_active s -> single_active s'.
Proof.
  intros (_ & _ & _ & Hrows) Hs e. unfold active_count.
  specialize (Hs e). unfold active_count in Hs.
  pose proof (checkout_rows_active now e _ _ Hrows). lia.
Qed.

Lemma inserted_single_active (s s' : Store) (u : Z) (c : Checkin.t) :
  inserted_by s s' u c -> active_count s u = 0%nat ->
  single_active s -> single_active s'.
Proof.
  intros (_ & _ & _ & Hrows & Hu & _) Hnone Hs e.
  unfold active_count in *. rewrite Hrows, filter_app, length_app. simpl.
  destruct (Z.eq_dec e u) as [-> | Hne].
  - rewrite Hnone. destruct (Checkin.active_of u c); simpl; lia.
  - assert (Hc : Checkin.active_of e c = false).
    { unfold Checkin.active_of. rewrite Hu.
      apply Z.eqb_neq in Hne. rewrite Z.eqb_sym in Hne.
      now rewrite Hne. }
    rewrite Hc. simpl. specialize (Hs e). unfold active_count in Hs. lia.
Qed.

Lemma step_single_active (s s' : Store) :
  step s s' -> single_active s -> single_active s'.
Proof.
  intros Hstep Hs. destruct Hstep.
  - destruct (v1_post_outcomes s userId now body)
      as [(cid & c & d & w & _ & _ & _ & Hnone & _ & _ & Hins & _)
         | [-> _]]; [| exact Hs].
    eapply inserted_single_active; eassumption.
  - eapply checkout_frame_single_active; [| exact Hs].
    apply (other_checkouts_frame now s userId).
  - destruct (v2_post_outcomes s userId now body)
      as [(cid & c & _ & _ & _ & Hnone & _ & Hins & _) | [-> _]];
      [| exact Hs].
    eapply inserted_single_active; eassumption.
  - eapply checkout_frame_single_active; [| exact Hs].
    apply (v2_checkout_frame now s userId).
  - destruct (next_post_outcomes s userId now body)
      as [(cid & cl & c & d & w & _ & _ & Hnone & _ & _ & Hins & _)
         | [-> _]]; [| exact Hs].
    eapply inserted_single_active; eassumption.
  - eapply checkout_frame_single_active; [| exact Hs].
    apply (other_checkouts_frame now s userId).
Qed.

End SingleActive.

Section SingleActiveClaims.

Lemma seed_single_active : single_active Db.seed.
Proof.
  intros e. unfold active_count. simpl.
  unfold Checkin.active_of, Checkin.is_active. simpl.
  rewrite !andb_false_r. simpl. lia.
Qed.

Lemma reachable_single_active (init s : Store) :
  single_active init -> reachable init s -> single_active s.
Proof.
  intros Hinit Hreach. induction Hreach as [| s s' _ IH Hstep].
  - exact Hinit.
  - exact (step_single_active s s' Hstep IH).
Qed.

(** C2, as the routes have it.  In every store reachable from one with at
    most one active check-in per employee, every employee has at most one
    active check-in, and a further request to any handler, on a JSON body
    and on either engine, leaves a store of which that still holds.
    While an employee has an active check-in no handler
    creates another one for them and the store is returned as it was: the
    Next.js handler answers 400; the transactional Express handler answers
    400, or 403 when the employee is not assigned to the requested client
    (that check comes before the active-check-in guard); the first Express
    revision answers 403 in that same case, and otherwise 400, or 500 from
    its [catch] block when the engine rejects its active-check-in query. *)
Theorem single_active_invariant (init s : Store)
        (Hinit : single_active init) (Hreach : reachable init s) :
  single_active s /\
  (forall (u now : Z) (req : Request) (engine : Sql.Engine),
     single_active (snd (NextApi.POST s u now req)) /\
     single_active (snd (ExpressV2.post s u now req)) /\
     single_active (snd (ExpressV1.post engine s u now req)) /\
     single_active (snd (ExpressV1.checkout engine s u now))) /\
  forall (u now : Z) (req : Request),
    (0 < active_count s u)%nat ->
    (snd (NextApi.POST s u now req) = s /\
     Http.status (fst (NextApi.POST s u now req)) = 400%Z) /\
    (snd (ExpressV2.post s u now req) = s /\
     (Http.status (fst (ExpressV2.post s u now req)) = 400%Z \/
      (Http.status (fst (ExpressV2.post s u now req)) = 403%Z /\
       exists cid, request_client_id req = Some cid /\ cid <> 0%Z /\
                   Db.employeeClients_.isAssigned s u cid = false))) /\
    (forall engine : Sql.Engine,
       snd (ExpressV1.post engine s u now req) = s /\
       (Http.status (fst (ExpressV1.post engine s u now req)) = 400%Z \/
        (Http.status (fst (ExpressV1.post engine s u now req)) = 403%Z /\
         exists cid, request_client_id req = Some cid /\ cid <> 0%Z /\
                     Db.employeeClients_.isAssigned s u cid = false) \/
        (Http.status (fst (ExpressV1.post engine s u now req)) = 500%Z /\
         engine = Sql.rejects_statement /\
         exists cid, request_client_id req = Some cid /\ cid <> 0%Z /\
                     Db.employeeClients_.isAssigned s u cid = true))).
Proof.
  assert (Hs : single_active s)
    by exact (reachable_single_active init s Hinit Hreach).
  split; [exact Hs |]. split.
  { intros u now req engine.
    destruct (request_step s u now engine req) as (Hn & H2 & H1 & Hc).
    repeat split;
      match goal with
      | H : snd ?r = s \/ step s (snd ?r) |- single_active (snd ?r) =>
          destruct H as [-> | Hstep];
          [exact Hs | exact (step_single_active s _ Hstep Hs)]
      end. }
  intros u now req Hact. split; [| split].
  - destruct (next_request_outcomes s u now req)
      as [(cid & cl & c & _ & _ & _ & _ & _ & Hnone & _) | H];
      [lia | exact H].
  - destruct (v2_request_outcomes s u now req)
      as [(cid & c & _ & _ & _ & _ & Hnone & _) | H];
      [lia | exact H].
  - intros engine.
    destruct (v1_request_outcomes s u now engine req)
      as [(cid & c & _ & _ & _ & _ & Hnone & _) | H];
      [lia | exact H].
Qed.

Lemma single_active_invariant_witness :
  single_active seed_with_active /\
  snd (NextApi.POST seed_with_active 4 1705400060000 (client_request 5)) =
    seed_with_active /\
  snd (ExpressV2.post seed_with_active 4 1705400060000 (client_request 5)) =
    seed_with_active /\
  snd (ExpressV1.post Sql.better_sqlite3 seed_with_active 4 1705400060000
                      (client_request 5)) = seed_with_active.
Proof.
  assert (Hreach : reachable Db.seed seed_with_active).
  { eapply reachable_step; [apply reachable_init |].
    exact (step_next_checkin Db.seed 4 1705400000000 (bare_request 1)). }
  destruct (single_active_invariant Db.seed seed_with_active
              seed_single_active Hreach) as (Hinv & _ & Hconflict).
  assert (Hact : (0 < active_count seed_with_active 4)%nat).
  { unfold lt. apply le_n. }
  destruct (Hconflict 4%Z 1705400060000%Z (client_request 5) Hact)
    as ((Hn & _) & (H2 & _) & H1).
  split; [exact Hinv |]. split; [exact Hn |]. split; [exact H2 |].
  exact (proj1 (H1 Sql.better_sqlite3)).
Defined.

(** C2, as stated, fails for the Express handlers: employee 4 has an active
    check-in and asks for client 2, to which they are not assigned; the
    answer is 403, not 400, on a JSON body as on a [CheckinBody], and
    whatever the engine. *)
Lemma conflict_status_counterexample :
  active_count seed_with_active 4 = 1%nat /\
  Http.status (fst (ExpressV1.post_checkin seed_with_active 4 1705400060000
                                           (bare_request 2))) = 403%Z /\
  Http.status (fst (ExpressV2.post_checkin seed_with_active 4 1705400060000
                                           (bare_request 2))) = 403%Z /\
  Http.status (fst (ExpressV1.post_checkin seed_with_active 4 1705400060000
                                           (bare_request 2))) <> 400%Z /\
  Http.status (fst (ExpressV2.post seed_with_active 4 1705400060000
                                   (client_request 2))) = 403%Z /\
  Http.status (fst (ExpressV1.post Sql.better_sqlite3 seed_with_active 4
                                   1705400060000 (client_request 2)))
    = 403%Z.
Proof.
  repeat split; try reflexivity. intros H. discriminate H.
Qed.

End SingleActiveClaims.

(** ** The assignment check *)

Section AssignmentCheck.

(** C3, as the routes have it.  When employee [E] has no assignment to
    client [C], neither Express revision inserts anything.  The first
    revision answers 403, whatever the engine; the second answers 403 when
    the coordinates pass its validation and 400 when they fail it, that
    check coming first; a client id of 0 is refused with 400 by both before
    they look at the assignments.  The Next.js handler does not read the
    assignments: its answer and the check-ins it leaves are the same
    whatever the assignments are. *)
Theorem checkin_requires_assignment
        (s : Store) (E C now : Z) (req : Request)
        (Hclient : request_client_id req = Some C)
        (Hnone : Db.employeeClients_.isAssigned s E C = false) :
  (forall engine : Sql.Engine,
     ExpressV1.post engine s E now req =
       (if (C =? 0)%Z
        then Http.json 400 (Http.Failure "Client ID is required")
        else Http.json 403
               (Http.Failure "You are not assigned to this client"),
        s)) /\
  (snd (ExpressV2.post s E now req) = s /\
   (Http.status (fst (ExpressV2.post s E now req)) = 403%Z <->
    C <> 0%Z /\
    coordinate_pair (request_latitude req) (request_longitude req)) /\
   (Http.status (fst (ExpressV2.post s E now req)) = 400%Z <->
    C = 0%Z \/
    ~ coordinate_pair (request_latitude req) (request_longitude req))) /\
  (forall ecs : list EmployeeClient.t,
     fst (NextApi.POST (with_employeeClients s ecs) E now req) =
     fst (NextApi.POST s E now req) /\
     checkins (snd (NextApi.POST (with_employeeClients s ecs) E now req)) =
     checkins (snd (NextApi.POST s E now req))).
Proof.
  split; [| split].
  - intros engine. destruct engine; simpl.
    + unfold ExpressV1.post_checkin. simpl. rewrite Hclient. simpl.
      destruct (C =? 0)%Z; simpl; [reflexivity |].
      rewrite assignments_isAssigned, Hnone. reflexivity.
    + rewrite Hclient. simpl.
      destruct (C =? 0)%Z; simpl; [reflexivity |].
      rewrite assignments_isAssigned, Hnone. reflexivity.
  - destruct (Z.eq_dec C 0) as [-> | Hnz].
    { unfold ExpressV2.post. rewrite Hclient. simpl.
      split; [reflexivity |]. split.
      - split; [discriminate | intros [H _]; now contradiction H].
      - split; [now left | reflexivity]. }
    destruct (v2_post_validation s E now req C Hclient Hnz)
      as [(Hpair & Heq & Hone & Hlat & Hlng) | (Hbad & Hs & H400)].
    + assert (Hpost : ExpressV2.post s E now req =
                      (Http.json 403
                         (Http.Failure "You are not assigned to this client"),
                       s)).
      { simpl in Hone, Hlat, Hlng. apply Z.eqb_neq in Hnz.
        rewrite Heq. unfold ExpressV2.post_checkin. simpl.
        rewrite Hclient. simpl. rewrite Hnz. simpl.
        rewrite Hone, Hlat, Hlng. simpl.
        rewrite assignments_isAssigned, Hnone. reflexivity. }
      rewrite Hpost. simpl. split; [reflexivity |]. split.
      * split; [intros _; split; assumption | reflexivity].
      * split; [discriminate |]. intros [H | H]; contradiction.
    + split; [exact Hs |]. rewrite H400. split.
      * split; [discriminate | intros [_ H]; contradiction].
      * split; [intros _; now right | reflexivity].
  - intros ecs.
    assert (Hbody : forall body,
               fst (NextApi.POST_checkin (with_employeeClients s ecs) E now
                                         body) =
               fst (NextApi.POST_checkin s E now body) /\
               checkins (snd (NextApi.POST_checkin
                                (with_employeeClients s ecs) E now body)) =
               checkins (snd (NextApi.POST_checkin s E now body))).
    { intros body. destruct s as [us cs es chs].
      unfold NextApi.POST_checkin, with_employeeClients. simpl.
      unfold NextApi.getActiveCheckin, NextApi.getClientById,
        Db.checkins_.getActiveByEmployeeId, Db.clients_.findById. simpl.
      destruct (body_client_id body) as [cid |]; [| split; reflexivity].
      repeat first
        [ split; reflexivity
        | match goal with
          | |- context [if ?b then _ else _] => destruct b; simpl
          | |- context [find ?f ?l] => destruct (find f l); simpl
          | |- context [let (_, _) := ?p in _] => destruct p; simpl
          end ]. }
    unfold NextApi.POST. rewrite Hclient.
    repeat match goal with
           | |- context [if ?b then _ else _] => destruct b
           end; try (split; reflexivity); apply Hbody.
Qed.

Lemma checkin_requires_assignment_witness :
  ExpressV1.post Sql.better_sqlite3 Db.seed 3 1705400000000
                 (client_request 1) =
    (Http.json 403 (Http.Failure "You are not assigned to this client"),
     Db.seed) /\
  snd (ExpressV2.post Db.seed 3 1705400000000 (client_request 1)) =
    Db.seed.
Proof.
  assert (Hnone : Db.employeeClients_.isAssigned Db.seed 3 1 = false)
    by reflexivity.
  destruct (checkin_requires_assignment Db.seed 3 1 1705400000000
              (client_request 1) eq_refl Hnone) as (H1 & (H2 & _) & _).
  split; [exact (H1 Sql.better_sqlite3) | exact H2].
Defined.

(** C3, as stated, fails for the Next.js handler: employee 3 is not
    assigned to client 1 and the check-in is created all the same. *)
Lemma unassigned_checkin_counterexample :
  Db.employeeClients_.isAssigned Db.seed 3 1 = false /\
  Http.status (fst (NextApi.POST_checkin Db.seed 3 1705400000000
                                         (bare_request 1))) = 201%Z /\
  map (fun c => (Checkin.id c, Checkin.employee_id c, Checkin.client_id c,
                 Checkin.status c))
      (checkins (snd (NextApi.POST_checkin Db.seed 3 1705400000000
                                           (bare_request 1)))) =
    [ (1, 2, 1, checked_out); (2, 2, 2, checked_out);
      (3, 2, 3, checked_out); (4, 3, 2, checked_out);
      (5, 3, 4, checked_out); (6, 3, 1, checked_in) ]%Z.
Proof. repeat split. Qed.

End AssignmentCheck.

(** ** The distance stored with a check-in *)

Section DistanceFacts.

Lemma truthy_0 : Js.truthy 0 = false.
Proof.
  unfold Js.truthy. destruct (Req_dec_T 0 0) as [_ | H];
    [reflexivity | now contradiction H].
Qed.

Lemma truthy_nonzero (x : R) : x <> 0 -> Js.truthy x = true.
Proof.
  intros H. unfold Js.truthy. destruct (Req_dec_T x 0) as [E | _];
    [contradiction | reflexivity].
Qed.

Lemma gt_iff (a b : R) : Js.gt a b = true <-> a > b.
Proof.
  unfold Js.gt. destruct (Rlt_dec b a) as [H | H]; split; intros H';
    try reflexivity; try discriminate; [exact H | contradiction].
Qed.

(** [Math.round(x * 100) / 100] is a multiple of 0.01 within 0.005 of
    [x]. *)
Lemma round2_spec (x : R) :
  (exists n : Z, Js.round2 x = IZR n / 100) /\
  x - / 200 < Js.round2 x <= x + / 200.
Proof.
  unfold Js.round2, Js.round. split.
  - eexists. reflexivity.
  - pose proof (Zfloor_bound (x * 100 + / 2)) as [Hlo Hhi]. lra.
Qed.

Lemma filter_head_find {A : Type} (f : A -> bool) (l : list A) :
  find f l = match filter f l with x :: _ => Some x | [] => None end.
Proof.
  induction l as [| x rest IH]; simpl; [reflexivity |].
  destruct (f x); [reflexivity | exact IH].
Qed.

Lemma v1_distance_zero (cs : list Client.t) (lat lon : option R) :
  lat = Some 0 \/ lon = Some 0 \/
  (exists client rest, cs = client :: rest /\
                       (Client.latitude client = Some 0 \/
                        Client.longitude client = Some 0)) ->
  ExpressV1.distance cs lat lon = (None, None).
Proof.
  unfold ExpressV1.distance.
  intros [-> | [-> | (client & rest & -> & Hc)]].
  - destruct cs; [reflexivity |]. destruct lon; [| reflexivity].
    rewrite truthy_0. reflexivity.
  - destruct cs; [reflexivity |]. destruct lat; [| reflexivity].
    rewrite truthy_0, andb_false_r. reflexivity.
  - destruct lat as [lat |]; [| reflexivity].
    destruct lon as [lon |]; [| reflexivity].
    destruct (Js.truthy lat && Js.truthy lon); [| reflexivity].
    destruct Hc as [-> | ->].
    + destruct (Client.longitude client); rewrite ?truthy_0; reflexivity.
    + destruct (Client.latitude client); [| reflexivity].
      rewrite truthy_0, andb_false_r. reflexivity.
Qed.

Lemma next_distance_zero (lat lon : option R) (client : Client.t) :
  lat = Some 0 \/ lon = Some 0 \/
  Client.latitude client = Some 0 \/ Client.longitude client = Some 0 ->
  NextApi.distance lat lon client = (None, None).
Proof.
  unfold NextApi.distance.
  intros H.
  destruct lat as [lat |]; [| reflexivity].
  destruct lon as [lon |]; [| reflexivity].
  destruct (Client.latitude client) as [clat |]; [| reflexivity].
  destruct (Client.longitude client) as [clon |]; [| reflexivity].
  destruct H as [[= ->] | [[= ->] | [[= ->] | [= ->]]]];
    rewrite truthy_0, ?andb_false_r; reflexivity.
Qed.

(** C10. When the latitude or the longitude of the request, or of the
    client the request names, is 0, the first Express revision and the
    Next.js handler compute no distance: if they create the check-in its
    [distance_from_client] is null and the response has neither distance
    nor warning. *)
Theorem zero_coordinate_no_distance
        (s : Store) (u now : Z) (body : CheckinBody)
        (Hzero : zero_coordinate s body) :
  no_distance_outcome s u (ExpressV1.post_checkin s u now body) /\
  no_distance_outcome s u (NextApi.POST_checkin s u now body).
Proof.
  split.
  - destruct (v1_post_outcomes s u now body)
      as [(cid & c & d & w & Hcid & _ & _ & _ & Hd & Hr & Hins & _ & Hc)
         | [Hs Hst]].
    + right. exists c.
      assert (Hnone : ExpressV1.distance (Sql.clientsById s cid)
                        (body_latitude body) (body_longitude body)
                      = (None, None)).
      { apply v1_distance_zero.
        destruct Hzero as [H | [H | (client & Htc & Hc0)]]; auto.
        right; right. unfold target_client in Htc. rewrite Hcid in Htc.
        unfold Db.clients_.findById in Htc.
        rewrite filter_head_find in Htc. unfold Sql.clientsById.
        destruct (filter (fun c0 => (Client.id c0 =? cid)%Z) (clients s))
          as [| x rest]; [discriminate |].
        injection Htc as ->. exists client, rest. auto. }
      rewrite Hnone in Hd. injection Hd as <- <-.
      repeat split; auto; apply Hins.
    + left. split; [exact Hs |].
      destruct Hst as [H | [H _]]; rewrite H; discriminate.
  - destruct (next_post_outcomes s u now body)
      as [(cid & client & c & d & w & Hcid & Hcl & _ & Hd & Hr & Hins
           & _ & Hc) | [Hs Hst]].
    + right. exists c.
      assert (Hnone : NextApi.distance (body_latitude body)
                        (body_longitude body) client = (None, None)).
      { apply next_distance_zero.
        destruct Hzero as [H | [H | (client' & Htc & Hc0)]]; auto.
        right; right. unfold target_client in Htc. rewrite Hcid in Htc.
        unfold NextApi.getClientById in Hcl. congruence. }
      rewrite Hnone in Hd. injection Hd as <- <-.
      repeat split; auto; apply Hins.
    + left. split; [exact Hs |]. rewrite Hst. discriminate.
Qed.

Lemma zero_coordinate_no_distance_witness :
  no_distance_outcome Db.seed 2
    (ExpressV1.post_checkin Db.seed 2 1705400000000 equator_request) /\
  no_distance_outcome Db.seed 2
    (NextApi.POST_checkin Db.seed 2 1705400000000 equator_request).
Proof.
  apply (zero_coordinate_no_distance Db.seed 2 1705400000000
                                     equator_request).
  left. reflexivity.
Defined.

End DistanceFacts.

Section DistanceClaims.

(** Decides the comparisons of [Js] on numerals. *)
Ltac js_decide :=
  unfold Js.lt, Js.gt, Js.truthy;
  repeat match goal with
         | |- context [Rlt_dec ?a ?b] =>
             destruct (Rlt_dec a b); try (exfalso; lra)
         | |- context [Req_dec_T ?a ?b] =>
             destruct (Req_dec_T a b); try (exfalso; lra)
         end.

(** When the four coordinates are non-zero the distance block of the first
    Express revision and of the Next.js handler yields the rounded
    haversine distance, and the warning exactly when it exceeds 0.5. *)
Lemma distance_of_nonzero_coordinates
      (client : Client.t) (rest : list Client.t) (lat lon clat clon : R) :
  Client.latitude client = Some clat ->
  Client.longitude client = Some clon ->
  lat <> 0 -> lon <> 0 -> clat <> 0 -> clon <> 0 ->
  let D := Js.round2 (Geo.calculateDistance lat lon clat clon) in
  ExpressV1.distance (client :: rest) (Some lat) (Some lon) =
    (Some D, if Js.gt D 0.5 then Some far_warning else None) /\
  NextApi.distance (Some lat) (Some lon) client =
    (Some D, if Js.gt D 0.5 then Some far_warning else None).
Proof.
  intros Hclat Hclon Hlat Hlon Hclat0 Hclon0 D.
  unfold ExpressV1.distance, NextApi.distance.
  rewrite Hclat, Hclon.
  rewrite (truthy_nonzero lat Hlat), (truthy_nonzero lon Hlon),
    (truthy_nonzero clat Hclat0), (truthy_nonzero clon Hclon0).
  split; reflexivity.
Qed.

(** With four non-zero coordinates, an assignment and no active check-in,
    the first Express revision answers 201, stores the haversine distance
    rounded to two decimals, and warns exactly when that distance exceeds
    0.5 km. *)
Lemma v1_checkin_stores_rounded_distance
      (s : Store) (u now cid : Z) (body : CheckinBody)
      (client : Client.t) (lat lon clat clon : R) :
  body_client_id body = Some cid -> cid <> 0%Z ->
  Db.employeeClients_.isAssigned s u cid = true ->
  active_count s u = 0%nat ->
  Db.clients_.findById s cid = Some client ->
  body_latitude body = Some lat -> body_longitude body = Some lon ->
  Client.latitude client = Some clat ->
  Client.longitude client = Some clon ->
  lat <> 0 -> lon <> 0 -> clat <> 0 -> clon <> 0 ->
  let D := Js.round2 (Geo.calculateDistance lat lon clat clon) in
  exists c w,
    ExpressV1.post_checkin s u now body =
      (Http.json 201 (Http.Created (Checkin.id c) (Some D) w),
       with_checkins s (checkins s ++ [c])) /\
    Checkin.distance_from_client c = Some D /\
    Checkin.status c = checked_in /\
    (w = Some far_warning <-> D > 0.5) /\
    (w = None <-> ~ D > 0.5).
Proof.
  intros Hcid Hnz Hass Hact Hcl Hlat Hlon Hclat Hclon H1 H2 H3 H4 D.
  unfold ExpressV1.post_checkin. rewrite Hcid. simpl.
  apply Z.eqb_neq in Hnz. rewrite Hnz. simpl.
  rewrite assignments_isAssigned, Hass. simpl.
  unfold active_count in Hact. unfold Sql.activeCheckins.
  apply length_zero_iff_nil in Hact. rewrite Hact. simpl.
  unfold Db.clients_.findById in Hcl. rewrite filter_head_find in Hcl.
  unfold Sql.clientsById.
  destruct (filter (fun c => (Client.id c =? cid)%Z) (clients s))
    as [| x rest]; [discriminate |]. injection Hcl as ->.
  rewrite Hlat, Hlon.
  destruct (distance_of_nonzero_coordinates client rest lat lon clat clon
              Hclat Hclon H1 H2 H3 H4) as [-> _].
  fold D.
  exists (Checkin.mk (Sql.insertId (checkins s)) u cid now None
                     (Some lat) (Some lon) (Some D)
                     (or_null (body_notes body)) checked_in),
         (if Js.gt D 0.5 then Some far_warning else None).
  split; [reflexivity |]. simpl.
  split; [reflexivity |]. split; [reflexivity |].
  pose proof (gt_iff D 0.5) as [Hgt1 Hgt2].
  destruct (Js.gt D 0.5).
  - split; split.
    + intros _. now apply Hgt1.
    + reflexivity.
    + discriminate.
    + intros Hn. exfalso. apply Hn. now apply Hgt1.
  - split; split.
    + discriminate.
    + intros Hd. apply Hgt2 in Hd. discriminate.
    + intros _ Hd. apply Hgt2 in Hd. discriminate.
    + reflexivity.
Qed.

(** C4 at a request on the equator (latitude 0, longitude 77.0887) by
    employee 2 for client 1, whose coordinates are stored: both handlers
    create the check-in with a null [distance_from_client] and no warning,
    and the Next.js handler stores the latitude as null as well. *)
Theorem equator_checkin_has_no_distance :
  ExpressV1.post_checkin Db.seed 2 1705400000000 equator_request =
    (Http.json 201 (Http.Created 6 None None),
     with_checkins Db.seed
       (Db.seed_checkins ++
        [Checkin.mk 6 2 1 1705400000000 None (Some 0) (Some 77.0887)
                    None None checked_in])) /\
  NextApi.POST_checkin Db.seed 2 1705400000000 equator_request =
    (Http.json 201 (Http.Created 6 None None),
     with_checkins Db.seed
       (Db.seed_checkins ++
        [Checkin.mk 6 2 1 1705400000000 None None (Some 77.0887)
                    None None checked_in])).
Proof.
  split.
  - unfold ExpressV1.post_checkin, equator_request. simpl.
    rewrite truthy_0. reflexivity.
  - unfold NextApi.POST_checkin, equator_request. simpl.
    assert (Hlat : Js.lt 0 (-90) || Js.gt 0 90 = false) by (js_decide; reflexivity).
    assert (Hlon : Js.lt 77.0887 (-180) || Js.gt 77.0887 180 = false)
      by (js_decide; reflexivity).
    rewrite Hlat, Hlon. simpl.
    unfold NextApi.number_or_null.
    rewrite truthy_0. simpl.
    assert (Ht : Js.truthy 77.0887 = true) by (apply truthy_nonzero; lra).
    rewrite Ht. reflexivity.
Qed.

End DistanceClaims.

(** ** The daily summary *)

Section EmptyTeam.

(** C9. For a manager without team members the daily summary is the
    success response with every count 0, a null average distance and an
    empty breakdown, whatever the check-ins in the store are. *)
Theorem daily_summary_empty_team
        (s : Store) (managerId d : Z) (p : Reports.EmployeeParam)
        (Hteam : Reports.teamMembers s managerId = []) :
  Reports.daily_summary s managerId (Reports.Day d) p =
    Reports.Summary d (Reports.TeamSummary.mk 0 0 0 0 0 None) [] /\
  forall cs : list Checkin.t,
    Reports.daily_summary (with_checkins s cs) managerId (Reports.Day d) p =
      Reports.Summary d (Reports.TeamSummary.mk 0 0 0 0 0 None) [].
Proof.
  split.
  - unfold Reports.daily_summary. rewrite Hteam. reflexivity.
  - intros cs. unfold Reports.daily_summary.
    replace (Reports.teamMembers (with_checkins s cs) managerId)
      with (Reports.teamMembers s managerId) by reflexivity.
    rewrite Hteam. reflexivity.
Qed.

Lemma daily_summary_empty_team_witness :
  Reports.daily_summary Db.seed 2 (Reports.Day 19737) Reports.NoEmployee =
    Reports.Summary 19737 (Reports.TeamSummary.mk 0 0 0 0 0 None) [].
Proof.
  apply (daily_summary_empty_team Db.seed 2 19737 Reports.NoEmployee).
  reflexivity.
Defined.

End EmptyTeam.

(** *** Sorting the breakdown *)

Section SortFacts.

Lemma insert_entry_perm (e : Reports.Entry.t) (l : list Reports.Entry.t) :
  Permutation (Reports.insert_entry e l) (e :: l).
Proof.
  induction l as [| e' rest IH]; simpl.
  - apply Permutation_refl.
  - destruct (Reports.Entry.total_checkins e' <=?
              Reports.Entry.total_checkins e)%nat.
    + apply Permutation_refl.
    + apply perm_trans with (e' :: e :: rest).
      * now apply perm_skip.
      * apply perm_swap.
Qed.

Lemma sort_breakdown_perm (l : list Reports.Entry.t) :
  Permutation (Reports.sort_breakdown l) l.
Proof.
  induction l as [| e rest IH]; simpl.
  - apply perm_nil.
  - apply perm_trans with (e :: Reports.sort_breakdown rest).
    + apply insert_entry_perm.
    + now apply perm_skip.
Qed.

Lemma insert_entry_sorted (e : Reports.Entry.t) (l : list Reports.Entry.t) :
  StronglySorted more_checkins l ->
  StronglySorted more_checkins (Reports.insert_entry e l).
Proof.
  induction 1 as [| e' rest Hsorted IH Hall]; simpl.
  - constructor; constructor.
  - destruct (Reports.Entry.total_checkins e' <=?
              Reports.Entry.total_checkins e)%nat eqn:Hle.
    + apply Nat.leb_le in Hle. constructor.
      * now constructor.
      * constructor; [exact Hle |].
        eapply Forall_impl; [| exact Hall].
        unfold more_checkins. intros x Hx. lia.
    + apply Nat.leb_gt in Hle. constructor; [exact IH |].
      apply (Permutation_Forall
               (Permutation_sym (insert_entry_perm e rest))).
      constructor; [| exact Hall]. unfold more_checkins. lia.
Qed.

Lemma sort_breakdown_sorted (l : list Reports.Entry.t) :
  StronglySorted more_checkins (Reports.sort_breakdown l).
Proof.
  induction l as [| e rest IH]; simpl.
  - constructor.
  - now apply insert_entry_sorted.
Qed.

Lemma filter_length_perm {A : Type} (f : A -> bool) (l l' : list A) :
  Permutation l l' ->
  List.length (filter f l) = List.length (filter f l').
Proof.
  induction 1 as [| x l l' _ IH | x y l | l l' l'' _ IH1 _ IH2]; simpl.
  - reflexivity.
  - destruct (f x); simpl; congruence.
  - destruct (f x), (f y); reflexivity.
  - congruence.
Qed.

Lemma existsb_perm {A : Type} (f : A -> bool) (l l' : list A) :
  Permutation l l' -> existsb f l = existsb f l'.
Proof.
  induction 1 as [| x l l' _ IH | x y l | l l' l'' _ IH1 _ IH2]; simpl.
  - reflexivity.
  - now rewrite IH.
  - destruct (f x), (f y); reflexivity.
  - congruence.
Qed.

End SortFacts.

(** *** The employee map *)

Section MapFacts.

Lemma map_get_none (k : Z) (m : Reports.EmployeeMap) :
  Reports.map_get k m = None <-> ~ In k (map fst m).
Proof.
  induction m as [| [k' v'] rest IH]; simpl.
  - split; [intros _ [] | reflexivity].
  - destruct (k' =? k)%Z eqn:E.
    + apply Z.eqb_eq in E. split; [discriminate | intros H; tauto].
    + apply Z.eqb_neq in E. rewrite IH. tauto.
Qed.

Lemma map_get_existsb (k : Z) (m : Reports.EmployeeMap) :
  existsb (Z.eqb k) (map fst m) =
  match Reports.map_get k m with Some _ => true | None => false end.
Proof.
  induction m as [| [k' v'] rest IH]; simpl.
  - reflexivity.
  - rewrite (Z.eqb_sym k k'). destruct (k' =? k)%Z; simpl; auto.
Qed.

Lemma map_set_keys_present (k : Z) (v e : Reports.Acc.t)
      (m : Reports.EmployeeMap) :
  Reports.map_get k m = Some e ->
  map fst (Reports.map_set k v m) = map fst m.
Proof.
  induction m as [| [k' v'] rest IH]; simpl.
  - discriminate.
  - destruct (k' =? k)%Z eqn:E; simpl.
    + apply Z.eqb_eq in E. now subst.
    + intros H. now rewrite IH.
Qed.

Lemma map_set_keys_absent (k : Z) (v : Reports.Acc.t)
      (m : Reports.EmployeeMap) :
  Reports.map_get k m = None ->
  map fst (Reports.map_set k v m) = (map fst m ++ [k])%list.
Proof.
  induction m as [| [k' v'] rest IH]; simpl.
  - reflexivity.
  - destruct (k' =? k)%Z; simpl; [discriminate |].
    intros H. now rewrite IH.
Qed.

Lemma map_set_In (k : Z) (v : Reports.Acc.t) (m : Reports.EmployeeMap)
      (kv : Z * Reports.Acc.t) :
  In kv (Reports.map_set k v m) -> kv = (k, v) \/ In kv m.
Proof.
  induction m as [| [k' v'] rest IH]; simpl.
  - intros [<- | []]. now left.
  - destruct (k' =? k)%Z; simpl.
    + intros [<- | H]; [now left | right; now right].
    + intros [<- | H]; [right; now left |].
      destruct (IH H); [now left | right; now right].
Qed.

Lemma map_set_NoDup (k : Z) (v : Reports.Acc.t) (m : Reports.EmployeeMap) :
  NoDup (map fst m) -> NoDup (map fst (Reports.map_set k v m)).
Proof.
  intros Hnd. destruct (Reports.map_get k m) as [e |] eqn:Hget.
  - now rewrite (map_set_keys_present k v e m Hget).
  - rewrite (map_set_keys_absent k v m Hget).
    apply map_get_none in Hget.
    apply NoDup_rev in Hnd. rewrite <- (rev_involutive (_ ++ _)%list).
    apply NoDup_rev. rewrite rev_unit. constructor; [| exact Hnd].
    now rewrite <- in_rev.
Qed.

End MapFacts.

(** *** The aggregation loop *)

Section AggregationFacts.

Lemma fold_add_checkin (l : list Reports.Row.t) (e : Reports.Acc.t) :
  let e' := fold_left Reports.add_checkin l e in
  Reports.Acc.employee_id e' = Reports.Acc.employee_id e /\
  Reports.Acc.total_checkins e' =
    (Reports.Acc.total_checkins e + List.length l)%nat /\
  Reports.Acc.hours_worked e' =
    Reports.Acc.hours_worked e + Rsum (map Reports.hoursWorked l) /\
  Reports.Acc.total_distance e' =
    Reports.Acc.total_distance e + Rsum (distances l) /\
  Reports.Acc.distance_count e' =
    (Reports.Acc.distance_count e + List.length (distances l))%nat /\
  Reports.Acc.checkins e' =
    (Reports.Acc.checkins e ++ map Reports.detail l)%list.
Proof.
  revert e. induction l as [| r rest IH]; intros e; simpl.
  - repeat split; try lia; try lra. now rewrite app_nil_r.
  - destruct (IH (Reports.add_checkin e r))
      as (Hid & Htc & Hh & Htd & Hdc & Hcs).
    simpl in *. rewrite Hid, Htc, Hh, Htd, Hdc, Hcs.
    repeat split; try lia; try lra.
    + destruct (Reports.Row.distance_from_client r); simpl; lra.
    + destruct (Reports.Row.distance_from_client r); simpl; lia.
    + now rewrite <- app_assoc.
Qed.

Lemma rows_of_other (k : Z) (r : Reports.Row.t) (rows : list Reports.Row.t) :
  Reports.Row.employee_id r <> k ->
  rows_of k (r :: rows) = rows_of k rows.
Proof.
  intros H. unfold rows_of. simpl.
  apply Z.eqb_neq in H. now rewrite H.
Qed.

Lemma rows_of_same (r : Reports.Row.t) (rows : list Reports.Row.t) :
  rows_of (Reports.Row.employee_id r) (r :: rows) =
  r :: rows_of (Reports.Row.employee_id r) rows.
Proof. unfold rows_of. simpl. now rewrite Z.eqb_refl. Qed.

Lemma absorb_skip (r : Reports.Row.t) (rows : list Reports.Row.t)
      (m : Reports.EmployeeMap) :
  ~ In (Reports.Row.employee_id r) (map fst m) ->
  map (absorb (r :: rows)) m = map (absorb rows) m.
Proof.
  intros Hnot. apply map_ext_in. intros [k v] Hin. unfold absorb.
  cbn [fst snd]. rewrite rows_of_other; [reflexivity |].
  intros Heq. apply Hnot. rewrite Heq. apply in_map_iff. now exists (k, v).
Qed.

Lemma absorb_set (r : Reports.Row.t) (rows : list Reports.Row.t)
      (m : Reports.EmployeeMap) (e : Reports.Acc.t) :
  NoDup (map fst m) ->
  Reports.map_get (Reports.Row.employee_id r) m = Some e ->
  map (absorb rows)
      (Reports.map_set (Reports.Row.employee_id r)
                       (Reports.add_checkin e r) m) =
  map (absorb (r :: rows)) m.
Proof.
  induction m as [| [k' v'] rest IH]; simpl; [discriminate |].
  intros Hnd Hget. inversion Hnd as [| ? ? Hnotin Hnd']; subst.
  destruct (k' =? Reports.Row.employee_id r)%Z eqn:E.
  - apply Z.eqb_eq in E. subst k'. injection Hget as ->. cbn [map].
    rewrite (absorb_skip r rows rest Hnotin). f_equal.
    unfold absorb. cbn [fst snd]. now rewrite rows_of_same.
  - cbn [map]. rewrite (IH Hnd' Hget). f_equal.
    unfold absorb. cbn [fst snd].
    apply Z.eqb_neq in E. rewrite rows_of_other; [reflexivity |].
    intros H. now apply E.
Qed.

Lemma process_keys (t : Reports.Totals) (r : Reports.Row.t) :
  map fst (Reports.employeeMap (Reports.process_checkin t r)) =
  map fst (Reports.employeeMap t).
Proof.
  unfold Reports.process_checkin.
  destruct (Reports.map_get (Reports.Row.employee_id r)
                            (Reports.employeeMap t)) as [e |] eqn:Hget.
  - simpl. eapply map_set_keys_present. exact Hget.
  - reflexivity.
Qed.

(** After the loop each accumulator has absorbed exactly the rows of its
    own employee, in the order of the query. *)
Lemma process_map (rows : list Reports.Row.t) (t : Reports.Totals) :
  NoDup (map fst (Reports.employeeMap t)) ->
  Reports.employeeMap (fold_left Reports.process_checkin rows t) =
  map (absorb rows) (Reports.employeeMap t).
Proof.
  revert t. induction rows as [| r rest IH]; intros t Hnd; simpl.
  - unfold absorb. simpl. rewrite <- (map_id (Reports.employeeMap t)) at 1.
    apply map_ext. now intros [k v].
  - rewrite IH by (now rewrite process_keys).
    unfold Reports.process_checkin.
    destruct (Reports.map_get (Reports.Row.employee_id r)
                              (Reports.employeeMap t)) as [e |] eqn:Hget.
    + simpl. now apply absorb_set.
    + symmetry. apply absorb_skip. now apply map_get_none.
Qed.

Lemma process_totals (rows : list Reports.Row.t) (t : Reports.Totals) :
  let t' := fold_left Reports.process_checkin rows t in
  let cnt := counted_by (map fst (Reports.employeeMap t)) rows in
  Reports.totalCheckins t' =
    (Reports.totalCheckins t + List.length cnt)%nat /\
  Reports.totalHoursWorked t' =
    Reports.totalHoursWorked t + Rsum (map Reports.hoursWorked cnt) /\
  Reports.totalDistance t' = Reports.totalDistance t + Rsum (distances cnt) /\
  Reports.distanceCount t' =
    (Reports.distanceCount t + List.length (distances cnt))%nat.
Proof.
  revert t. induction rows as [| r rest IH]; intros t; simpl.
  - repeat split; try lia; lra.
  - destruct (IH (Reports.process_checkin t r)) as (Hc & Hh & Hd & Hn).
    rewrite process_keys in Hc, Hh, Hd, Hn.
    rewrite Hc, Hh, Hd, Hn. clear Hc Hh Hd Hn.
    unfold counted_by. simpl. rewrite map_get_existsb.
    unfold Reports.process_checkin.
    destruct (Reports.map_get (Reports.Row.employee_id r)
                              (Reports.employeeMap t)) as [e |]; simpl.
    + repeat split; try lia; try lra.
      * destruct (Reports.Row.distance_from_client r); simpl; lra.
      * destruct (Reports.Row.distance_from_client r); simpl;
          rewrite ?length_app; simpl; lia.
    + repeat split; try lia; lra.
Qed.

(** [teamMembers.forEach] builds a map with distinct keys and fresh
    accumulators, one for each member that is not skipped. *)
Lemma init_map_invariant (p : Reports.EmployeeParam)
      (members : list Reports.Member.t) (m : Reports.EmployeeMap) :
  NoDup (map fst m) -> Forall fresh m ->
  let m' := fold_left (Reports.init_member p) members m in
  NoDup (map fst m') /\ Forall fresh m' /\
  (forall k, In k (map fst m') <->
             In k (map fst m) \/
             exists member, In member members /\
                            Reports.skipped p member = false /\
                            Reports.Member.id member = k).
Proof.
  revert m. induction members as [| member rest IH]; intros m Hnd Hfresh;
    simpl.
  - split; [exact Hnd |]. split; [exact Hfresh |].
    intros k. split; [now left |].
    intros [H | (x & [] & _)]. exact H.
  - unfold Reports.init_member at 2 4 6.
    destruct (Reports.skipped p member) eqn:Hskip.
    + destruct (IH m Hnd Hfresh) as (H1 & H2 & H3).
      split; [exact H1 |]. split; [exact H2 |].
      intros k. rewrite H3. split.
      * intros [H | (x & Hx & Hs & Hk)]; [now left |].
        right. exists x. split; [now right | auto].
      * intros [H | (x & [<- | Hx] & Hs & Hk)]; [now left | congruence |].
        right. exists x. auto.
    + set (v := Reports.Acc.mk (Reports.Member.id member)
                  (Reports.Member.name member)
                  (Reports.Member.email member) 0 0 [] 0 0 []).
      assert (Hnd' : NoDup (map fst (Reports.map_set
                                       (Reports.Member.id member) v m)))
        by now apply map_set_NoDup.
      assert (Hfresh' : Forall fresh (Reports.map_set
                                        (Reports.Member.id member) v m)).
      { apply Forall_forall. intros kv Hin.
        apply map_set_In in Hin as [-> | Hin].
        - unfold fresh, v. simpl. repeat split.
        - rewrite Forall_forall in Hfresh. now apply Hfresh. }
      destruct (IH _ Hnd' Hfresh') as (H1 & H2 & H3).
      split; [exact H1 |]. split; [exact H2 |].
      intros k. rewrite H3.
      assert (Hkeys : In k (map fst (Reports.map_set
                                       (Reports.Member.id member) v m)) <->
                      In k (map fst m) \/ Reports.Member.id member = k).
      { destruct (Reports.map_get (Reports.Member.id member) m) as [e |]
          eqn:Hget.
        - rewrite (map_set_keys_present _ v e m Hget). split; [now left |].
          intros [H | <-]; [exact H |].
          destruct (in_dec Z.eq_dec (Reports.Member.id member) (map fst m))
            as [Hin | Hnot]; [exact Hin |].
          apply map_get_none in Hnot. congruence.
        - rewrite (map_set_keys_absent _ v m Hget), in_app_iff. simpl.
          tauto. }
      rewrite Hkeys. split.
      * intros [[H | H] | (x & Hx & Hs & Hk)].
        -- now left.
        -- right. exists member. split; [now left | auto].
        -- right. exists x. split; [now right | auto].
      * intros [H | (x & [<- | Hx] & Hs & Hk)].
        -- left. now left.
        -- left. now right.
        -- right. exists x. auto.
Qed.

End AggregationFacts.

(** *** The response *)

Section BreakdownFacts.

Lemma average_mean2 (l : list R) :
  Reports.average (0 + Rsum l) (0 + List.length l) = mean2 l.
Proof.
  unfold Reports.average, mean2. destruct l as [| x rest]; simpl.
  - reflexivity.
  - now rewrite Rplus_0_l.
Qed.

Lemma round2_0 : Js.round2 0 = 0.
Proof.
  unfold Js.round2, Js.round.
  rewrite (Zfloor_eq 0 (0 * 100 + / 2)) by lra. lra.
Qed.

Lemma hoursWorked_hours_between (r : Reports.Row.t) :
  Reports.hoursWorked r = hours_between r.
Proof.
  unfold Reports.hoursWorked, hours_between.
  destruct (Reports.Row.checkout_time r); [| reflexivity].
  rewrite minus_IZR. lra.
Qed.

(** The entries before sorting, from a map of fresh accumulators. *)
Lemma finalized_entries (rows : list Reports.Row.t)
      (m : Reports.EmployeeMap) :
  Forall fresh m ->
  let entries := map Reports.finalize (map snd (map (absorb rows) m)) in
  map Reports.Entry.employee_id entries = map fst m /\
  Forall (entry_counts rows) entries /\
  Forall (entry_totals rows) entries.
Proof.
  induction 1 as [| [k v] rest Hkv _ IH]; simpl.
  - repeat split; constructor.
  - destruct IH as (Hids & Hcounts & Htotals).
    destruct Hkv as (Hid & Htc & Hh & Htd & Hdc & Hcs). simpl in *.
    destruct (fold_add_checkin (rows_of k rows) v)
      as (Fid & Ftc & Fh & Ftd & Fdc & Fcs). simpl in *.
    rewrite Hid in Fid.
    split; [now rewrite Fid, Hids |].
    split; constructor; try assumption.
    + unfold entry_counts. simpl. rewrite Fid, Ftc, Fcs, Htc, Hcs.
      split; reflexivity.
    + unfold entry_totals. simpl. rewrite Fid, Fh, Ftd, Fdc, Hh, Htd, Hdc.
      rewrite (map_ext _ _ hoursWorked_hours_between).
      split; [now rewrite Rplus_0_l | apply average_mean2].
Qed.

Lemma count_NoDup (x : Z) (l : list Z) :
  NoDup l -> In x l ->
  List.length (filter (fun k => (k =? x)%Z) l) = 1%nat.
Proof.
  induction 1 as [| y rest Hnot Hnd IH]; simpl; [intros [] |].
  intros [-> | Hin].
  - rewrite Z.eqb_refl. simpl. f_equal.
    apply length_zero_iff_nil.
    destruct (filter (fun k => (k =? x)%Z) rest) as [| z zs] eqn:E;
      [reflexivity |].
    assert (Hz : In z (filter (fun k => (k =? x)%Z) rest))
      by (rewrite E; now left).
    apply filter_In in Hz as [Hz Hzx]. apply Z.eqb_eq in Hzx. now subst.
  - destruct (y =? x)%Z eqn:E.
    + apply Z.eqb_eq in E. now subst.
    + now apply IH.
Qed.

Lemma filter_map_length {A B : Type} (f : A -> B) (p : B -> bool)
      (l : list A) :
  List.length (filter (fun a => p (f a)) l) =
  List.length (filter p (map f l)).
Proof.
  induction l as [| a rest IH]; simpl; [reflexivity |].
  destruct (p (f a)); simpl; now rewrite IH.
Qed.

(** What [build] returns, in terms of the rows of the query. *)
Lemma build_spec (d : Z) (p : Reports.EmployeeParam)
      (members : list Reports.Member.t) (rows : list Reports.Row.t) :
  exists team breakdown keys,
    Reports.build d p members rows = Reports.Summary d team breakdown /\
    NoDup keys /\
    (forall k, In k keys <->
               exists member, In member members /\
                              Reports.skipped p member = false /\
                              Reports.Member.id member = k) /\
    Permutation (map Reports.Entry.employee_id breakdown) keys /\
    Forall (entry_counts rows) breakdown /\
    Forall (entry_totals rows) breakdown /\
    StronglySorted more_checkins breakdown /\
    Reports.TeamSummary.total_hours_worked team =
      Js.round2 (Rsum (map hours_between (counted_by keys rows))) /\
    Reports.TeamSummary.average_distance_from_client team =
      mean2 (distances (counted_by keys rows)) /\
    Reports.TeamSummary.total_checkins team =
      List.length (counted_by keys rows).
Proof.
  unfold Reports.build, Reports.aggregate.
  set (m0 := fold_left (Reports.init_member p) members []).
  set (t0 := Reports.mkTotals m0 0 0 [] 0 0).
  destruct (init_map_invariant p members [] (NoDup_nil _) (Forall_nil _))
    as (Hnd & Hfresh & Hkeys). fold m0 in Hnd, Hfresh, Hkeys.
  assert (Hmap : Reports.employeeMap
                   (fold_left Reports.process_checkin rows t0) =
                 map (absorb rows) m0) by now apply process_map.
  destruct (process_totals rows t0) as (Hc & Hh & Hd & Hn).
  simpl in Hc, Hh, Hd, Hn.
  destruct (finalized_entries rows m0 Hfresh) as (Hids & Hcounts & Htotals).
  eexists _, _, (map fst m0). split; [reflexivity |]. simpl.
  rewrite Hmap.
  split; [exact Hnd |].
  split.
  { intros k. rewrite Hkeys. simpl. split.
    - intros [[] | H]; exact H.
    - intros H; now right. }
  split.
  { rewrite <- Hids. apply Permutation_map. apply sort_breakdown_perm. }
  split.
  { eapply Permutation_Forall;
      [apply Permutation_sym, sort_breakdown_perm | exact Hcounts]. }
  split.
  { eapply Permutation_Forall;
      [apply Permutation_sym, sort_breakdown_perm | exact Htotals]. }
  split; [apply sort_breakdown_sorted |].
  split.
  { rewrite Hh, Rplus_0_l.
    now rewrite (map_ext _ _ hoursWorked_hours_between). }
  split; [rewrite Hd, Hn; apply average_mean2 | exact Hc].
Qed.

End BreakdownFacts.

Section QueryFacts.

(** The parameters of the check-in query of the report. *)
Variables (s : Store) (managerId d : Z) (p : Reports.EmployeeParam).

Lemma insert_row_perm (r : Reports.Row.t) (rows : list Reports.Row.t) :
  Permutation (Reports.insert_row r rows) (r :: rows).
Proof.
  induction rows as [| r' rest IH]; simpl.
  - apply Permutation_refl.
  - destruct (Reports.row_leb r r').
    + apply Permutation_refl.
    + apply perm_trans with (r' :: r :: rest);
        [now apply perm_skip | apply perm_swap].
Qed.

Lemma order_rows_perm (rows : list Reports.Row.t) :
  Permutation (Reports.order_rows rows) rows.
Proof.
  induction rows as [| r rest IH]; simpl.
  - apply perm_nil.
  - apply perm_trans with (r :: Reports.order_rows rest);
      [apply insert_row_perm | now apply perm_skip].
Qed.

(** Every row of the query comes from a check-in of that employee on that
    day. *)
Lemma checkinsQuery_has_checkin (r : Reports.Row.t) :
  In r (Reports.checkinsQuery s managerId d p) ->
  has_checkin_on s d (Reports.Row.employee_id r) = true.
Proof.
  unfold Reports.checkinsQuery. intros Hin.
  apply (Permutation_in _ (order_rows_perm _)) in Hin.
  unfold Reports.joined in Hin.
  apply in_flat_map in Hin as (ch & Hch & Hin).
  apply filter_In in Hch as [Hch Hcond].
  apply andb_true_iff in Hcond as [Hdate _].
  apply in_flat_map in Hin as (u & _ & Hin).
  apply in_map_iff in Hin as (c & <- & _).
  unfold has_checkin_on. apply existsb_exists. exists ch.
  split; [exact Hch |]. simpl. now rewrite Z.eqb_refl.
Qed.

Lemma rows_of_nil (k : Z) :
  has_checkin_on s d k = false ->
  rows_of k (Reports.checkinsQuery s managerId d p) = [].
Proof.
  intros Hnone.
  destruct (rows_of k (Reports.checkinsQuery s managerId d p))
    as [| r rest] eqn:E; [reflexivity |].
  assert (Hr : In r (rows_of k (Reports.checkinsQuery s managerId d p)))
    by (rewrite E; now left).
  apply filter_In in Hr as [Hin Hk]. apply Z.eqb_eq in Hk.
  apply checkinsQuery_has_checkin in Hin. congruence.
Qed.

(** The rows of the query, in terms of the three tables. *)
Lemma checkinsQuery_rows (r : Reports.Row.t) :
  In r (Reports.checkinsQuery s managerId d p) <->
  exists ch u c,
    In ch (checkins s) /\ In u (users s) /\ In c (clients s) /\
    Reports.DATE (Checkin.checkin_time ch) = d /\
    Reports.employeeFilter p ch = true /\
    Checkin.employee_id ch = User.id u /\
    reports_to managerId u = true /\
    Checkin.client_id ch = Client.id c /\
    r = Reports.join_row ch u c.
Proof.
  unfold Reports.checkinsQuery. split.
  - intros Hin. apply (Permutation_in _ (order_rows_perm _)) in Hin.
    unfold Reports.joined in Hin.
    apply in_flat_map in Hin as (ch & Hch & Hin).
    apply filter_In in Hch as [Hch Hcond].
    apply andb_true_iff in Hcond as [Hdate Hfilter].
    apply in_flat_map in Hin as (u & Hu & Hin).
    apply filter_In in Hu as [Hu Hucond].
    apply andb_true_iff in Hucond as [Hid Hman].
    apply in_map_iff in Hin as (c & <- & Hc).
    apply filter_In in Hc as [Hc Hcid].
    exists ch, u, c. apply Z.eqb_eq in Hdate, Hid, Hcid.
    repeat split; assumption.
  - intros (ch & u & c & Hch & Hu & Hc & Hdate & Hfilter & Hid & Hman & Hcid
            & ->).
    apply (Permutation_in _ (Permutation_sym (order_rows_perm _))).
    unfold Reports.joined. apply in_flat_map. exists ch. split.
    + apply filter_In. split; [exact Hch |].
      apply andb_true_iff. split; [now apply Z.eqb_eq | exact Hfilter].
    + apply in_flat_map. exists u. split.
      * apply filter_In. split; [exact Hu |].
        apply andb_true_iff. split; [now apply Z.eqb_eq | exact Hman].
      * apply in_map. apply filter_In. split; [exact Hc |].
        now apply Z.eqb_eq.
Qed.

Lemma teamMembers_users (member : Reports.Member.t) :
  In member (Reports.teamMembers s managerId) <->
  exists u, In u (users s) /\ reports_to managerId u = true /\
            member = Reports.Member.mk (User.id u) (User.name u)
                                       (User.email u).
Proof.
  unfold Reports.teamMembers. rewrite in_map_iff. split.
  - intros (u & <- & Hu). apply filter_In in Hu as [Hu Hman].
    exists u. repeat split; assumption.
  - intros (u & Hu & Hman & ->). exists u. split; [reflexivity |].
    apply filter_In. split; assumption.
Qed.

(** An employee of the team has rows in the query exactly when they have a
    check-in on the day at a client that exists. *)
Lemma rows_of_has_visit (u : User.t) :
  In u (users s) -> reports_to managerId u = true ->
  (0 <? List.length
          (rows_of (User.id u)
                   (Reports.checkinsQuery s managerId d Reports.NoEmployee)))%nat
  = has_visit_on s d (User.id u).
Proof.
  intros Hu Hman.
  destruct (has_visit_on s d (User.id u)) eqn:Hvisit.
  - apply existsb_exists in Hvisit as (ch & Hch & Hcond).
    apply andb_true_iff in Hcond as [Hcond Hcl].
    apply andb_true_iff in Hcond as [Hemp Hdate].
    apply existsb_exists in Hcl as (c & Hc & Hcid).
    apply Z.eqb_eq in Hemp, Hdate, Hcid.
    assert (Hin : In (Reports.join_row ch u c)
                     (rows_of (User.id u)
                        (Reports.checkinsQuery s managerId d
                                               Reports.NoEmployee))).
    { apply filter_In. split.
      - unfold Reports.checkinsQuery.
        apply (Permutation_in _ (Permutation_sym (order_rows_perm _))).
        unfold Reports.joined. apply in_flat_map. exists ch. split.
        + apply filter_In. split; [exact Hch |]. simpl.
          rewrite andb_true_r. now apply Z.eqb_eq.
        + apply in_flat_map. exists u. split.
          * apply filter_In. split; [exact Hu |].
            apply andb_true_iff. split; [now apply Z.eqb_eq | exact Hman].
          * apply in_map. apply filter_In. split; [exact Hc |].
            apply Z.eqb_eq. now symmetry.
      - simpl. now apply Z.eqb_eq. }
    destruct (rows_of (User.id u) _); [destruct Hin | reflexivity].
  - destruct (rows_of (User.id u)
                (Reports.checkinsQuery s managerId d Reports.NoEmployee))
      as [| r rest] eqn:E; [reflexivity |]. exfalso.
    assert (Hr : In r (rows_of (User.id u)
                         (Reports.checkinsQuery s managerId d
                                                Reports.NoEmployee)))
      by (rewrite E; now left).
    apply filter_In in Hr as [Hr Hk]. apply Z.eqb_eq in Hk.
    unfold Reports.checkinsQuery in Hr.
    apply (Permutation_in _ (order_rows_perm _)) in Hr.
    unfold Reports.joined in Hr.
    apply in_flat_map in Hr as (ch & Hch & Hr).
    apply filter_In in Hch as [Hch Hcond].
    apply andb_true_iff in Hcond as [Hdate _].
    apply in_flat_map in Hr as (u' & _ & Hr).
    apply in_map_iff in Hr as (c & <- & Hc).
    apply filter_In in Hc as [Hc Hcid]. simpl in Hk.
    apply not_true_iff_false in Hvisit. apply Hvisit.
    apply existsb_exists. exists ch. split; [exact Hch |].
    apply andb_true_iff. split.
    + apply andb_true_iff. split; [now apply Z.eqb_eq | exact Hdate].
    + apply existsb_exists. exists c. split; [exact Hc |].
      rewrite Z.eqb_sym. exact Hcid.
Qed.

End QueryFacts.

Section DailySummaryClaims.

(** C5. Without an employee filter the daily summary succeeds with a
    breakdown that has exactly one entry for each team member (each user
    whose [manager_id] is the manager) and no other entry; an entry counts
    and lists exactly the check-ins of its employee on that day, so it
    counts at least one exactly when the employee has a check-in that day at
    a client that exists, and the entry of a member without check-ins on
    that day has [total_checkins = 0] and an empty [checkins] list; and the
    entries are in descending order of [total_checkins]. *)
Theorem breakdown_one_entry_per_member (s : Store) (managerId d : Z) :
  exists team breakdown,
    Reports.daily_summary s managerId (Reports.Day d) Reports.NoEmployee =
      Reports.Summary d team breakdown /\
    Forall (fun u =>
              if reports_to managerId u
              then List.length
                     (filter (fun e => (Reports.Entry.employee_id e =?
                                        User.id u)%Z)
                             breakdown) = 1%nat
              else True)
           (users s) /\
    Forall (fun e =>
              existsb (fun u => reports_to managerId u &&
                                (User.id u =? Reports.Entry.employee_id e)%Z)
                      (users s) = true /\
              entry_counts
                (Reports.checkinsQuery s managerId d Reports.NoEmployee) e /\
              (0 <? Reports.Entry.total_checkins e)%nat =
                has_visit_on s d (Reports.Entry.employee_id e) /\
              (if has_checkin_on s d (Reports.Entry.employee_id e)
               then True
               else Reports.Entry.total_checkins e = 0%nat /\
                    Reports.Entry.checkins e = []))
           breakdown /\
    StronglySorted more_checkins breakdown.
Proof.
  unfold Reports.daily_summary.
  destruct (List.length (Reports.teamMembers s managerId) =? 0)%nat eqn:Hlen.
  - apply Nat.eqb_eq, length_zero_iff_nil in Hlen.
    exists Reports.empty_summary, [].
    split; [reflexivity |]. split; [| split; constructor].
    apply Forall_forall. intros u Hu.
    destruct (reports_to managerId u) eqn:Hman; [| exact I].
    assert (Hin : In (Reports.Member.mk (User.id u) (User.name u)
                                        (User.email u))
                     (Reports.teamMembers s managerId)).
    { apply teamMembers_users. exists u. auto. }
    rewrite Hlen in Hin. destruct Hin.
  - destruct (build_spec d Reports.NoEmployee
                (Reports.teamMembers s managerId)
                (Reports.checkinsQuery s managerId d Reports.NoEmployee))
      as (team & breakdown & keys & Hbuild & Hnd & Hkeys & Hperm & Hcounts
          & _ & Hsorted & _).
    exists team, breakdown. split; [exact Hbuild |].
    assert (Hkey : forall k, In k keys <->
                     exists u, In u (users s) /\
                               reports_to managerId u = true /\
                               User.id u = k).
    { intros k. rewrite Hkeys. split.
      - intros (member & Hmember & _ & <-).
        apply teamMembers_users in Hmember as (u & Hu & Hman & ->).
        exists u. auto.
      - intros (u & Hu & Hman & <-).
        exists (Reports.Member.mk (User.id u) (User.name u) (User.email u)).
        split; [| split; reflexivity].
        apply teamMembers_users. exists u. auto. }
    split; [| split; [| exact Hsorted]].
    + apply Forall_forall. intros u Hu.
      destruct (reports_to managerId u) eqn:Hman; [| exact I].
      rewrite (filter_map_length Reports.Entry.employee_id
                 (fun k => (k =? User.id u)%Z)).
      rewrite (filter_length_perm _ _ _ Hperm).
      apply count_NoDup; [exact Hnd |].
      apply Hkey. exists u. auto.
    + rewrite Forall_forall in Hcounts. apply Forall_forall. intros e He.
      assert (Hin : In (Reports.Entry.employee_id e) keys).
      { apply (Permutation_in _ Hperm). now apply in_map. }
      apply Hkey in Hin as (u & Hu & Hman & Hid).
      split; [| split; [now apply Hcounts | split]].
      * apply existsb_exists. exists u. split; [exact Hu |].
        rewrite Hman. simpl. now apply Z.eqb_eq.
      * destruct (Hcounts e He) as [Htc _]. rewrite Htc, <- Hid.
        now apply rows_of_has_visit.
      * destruct (has_checkin_on s d (Reports.Entry.employee_id e)) eqn:Hhas;
          [exact I |].
        destruct (Hcounts e He) as [Htc Hcs].
        rewrite (rows_of_nil s managerId d Reports.NoEmployee _ Hhas)
          in Htc, Hcs.
        split; assumption.
Qed.

Lemma counted_keys (breakdown : list Reports.Entry.t) (keys : list Z)
      (rows : list Reports.Row.t) :
  Permutation (map Reports.Entry.employee_id breakdown) keys ->
  counted breakdown rows = counted_by keys rows.
Proof.
  intros Hperm. unfold counted, counted_by. apply filter_ext.
  intros r. now apply existsb_perm.
Qed.

End DailySummaryClaims.

Section SeedSummary.

(** The seed data on 2024-01-15, for manager 1: three entries, employee 2
    with three check-ins first, employee 4 with none last; two employees
    with check-ins, five check-ins, four clients. *)
Example seed_daily_summary_counts :
  exists team breakdown,
    Reports.daily_summary Db.seed 1 (Reports.Day 19737) Reports.NoEmployee =
      Reports.Summary 19737 team breakdown /\
    map (fun e => (Reports.Entry.employee_id e,
                   Reports.Entry.total_checkins e,
                   List.length (Reports.Entry.checkins e))) breakdown =
      [(2%Z, 3%nat, 3%nat); (3%Z, 2%nat, 2%nat); (4%Z, 0%nat, 0%nat)] /\
    Reports.TeamSummary.total_employees team = 3%nat /\
    Reports.TeamSummary.employees_with_checkins team = 2%nat /\
    Reports.TeamSummary.total_checkins team = 5%nat /\
    Reports.TeamSummary.unique_clients_visited team = 4%nat.
Proof.
  eexists. eexists. split; [reflexivity |].
  repeat split.
Qed.

End SeedSummary.

Section SeedValues.

Lemma round2_eq (x : R) (n : Z) :
  IZR n - / 2 <= x * 100 < IZR n + / 2 -> Js.round2 x = IZR n / 100.
Proof.
  intros H. unfold Js.round2, Js.round.
  rewrite (Zfloor_eq n (x * 100 + / 2)) by lra. reflexivity.
Qed.

(** Rewrites some [Js.round2 x] of the goal into [n / 100]. *)
Ltac round2_value n :=
  match goal with
  | |- context [Js.round2 ?x] =>
      rewrite (round2_eq x n) by (simpl INR; lra)
  end.

End SeedValues.

(** * Further properties *)

(** ** The range of the idealised distance *)

Section DistanceRange.





End DistanceRange.

(** ** What a successful check-in inserts *)

Section CreatedRows.

Variables (s : Store) (u now : Z) (body : CheckinBody).

Lemma v1_post_created :
  let r := ExpressV1.post_checkin s u now body in
  (snd r = s /\ Http.status (fst r) <> 201%Z) \/
  (exists c,
      inserted_by s (snd r) u c /\ created_by u now c /\
      Checkin.id c = Sql.insertId (checkins s) /\
      Http.status (fst r) = 201%Z /\
      Checkin.distance_from_client c =
        fst (ExpressV1.distance (Sql.clientsById s (Checkin.client_id c))
                                (body_latitude body) (body_longitude body))).
Proof.
  unfold ExpressV1.post_checkin.
  destruct (body_client_id body) as [cid |]; simpl;
    [| left; split; [reflexivity | discriminate]].
  repeat match goal with
         | |- context [if ?b then _ else _] =>
             destruct b; simpl;
             try (left; split; [reflexivity | discriminate])
         end.
  destruct (ExpressV1.distance (Sql.clientsById s cid) (body_latitude body)
                               (body_longitude body)) as [d w] eqn:Hd.
  right. eexists.
  split; [unfold inserted_by; simpl; repeat split |].
  unfold created_by. simpl. rewrite Hd. repeat split.
Qed.

Lemma v2_post_created :
  let r := ExpressV2.post_checkin s u now body in
  (snd r = s /\ Http.status (fst r) <> 201%Z) \/
  (exists c,
      inserted_by s (snd r) u c /\ created_by u now c /\
      Checkin.id c = Sql.insertId (checkins s) /\
      Http.status (fst r) = 201%Z /\
      body_client_id body = Some (Checkin.client_id c) /\
      Db.employeeClients_.isAssigned s u (Checkin.client_id c) = true /\
      active_count s u = 0%nat /\
      Checkin.latitude c = body_latitude body /\
      Checkin.longitude c = body_longitude body /\
      ExpressV2.one_missing (body_latitude body) (body_longitude body)
        = false /\
      ExpressV2.validLat (body_latitude body) = true /\
      ExpressV2.validLng (body_longitude body) = true /\
      Checkin.notes c =
        option_map (fun n => substring 0 2000 n) (body_notes body) /\
      (Checkin.distance_from_client c,
       match Http.payload (fst r) with
       | Http.WithRow _ _ w => w
       | _ => None
       end) =
        ExpressV2.distance (Sql.clientsById s (Checkin.client_id c))
                           (body_latitude body) (body_longitude body)).
Proof.
  unfold ExpressV2.post_checkin.
  destruct (body_client_id body) as [cid |]; simpl;
    [| left; split; [reflexivity | discriminate]].
  destruct (cid =? 0)%Z; simpl; [left; split; [reflexivity | discriminate] |].
  destruct (ExpressV2.one_missing _ _) eqn:Hone; simpl;
    [left; split; [reflexivity | discriminate] |].
  destruct (ExpressV2.validLat _) eqn:Hlat; simpl;
    [| left; split; [reflexivity | discriminate]].
  destruct (ExpressV2.validLng _) eqn:Hlng; simpl;
    [| left; split; [reflexivity | discriminate]].
  rewrite assignments_isAssigned.
  destruct (Db.employeeClients_.isAssigned s u cid) eqn:Hass; simpl;
    [| left; split; [reflexivity | discriminate]].
  destruct (0 <? List.length (ExpressV2.getMostRecentActiveCheckin s u))%nat
    eqn:Hact; simpl; [left; split; [reflexivity | discriminate] |].
  apply length_zero_nil in Hact.
  unfold ExpressV2.getMostRecentActiveCheckin in Hact.
  apply latest_nil in Hact.
  destruct (ExpressV2.distance (Sql.clientsById s cid) (body_latitude body)
                               (body_longitude body)) as [d w] eqn:Hd.
  right. eexists.
  split; [unfold inserted_by; simpl; repeat split |].
  unfold created_by. simpl. rewrite Hd.
  repeat split; try reflexivity; try assumption.
  unfold active_count. now rewrite Hact.
Qed.

Lemma next_post_created :
  let r := NextApi.POST_checkin s u now body in
  (snd r = s /\ Http.status (fst r) = 400%Z) \/
  (exists c client,
      inserted_by s (snd r) u c /\ created_by u now c /\
      Checkin.id c = (Z.of_nat (List.length (checkins s)) + 1)%Z /\
      fst r = Http.json 201
                (Http.Created (Checkin.id c) (Checkin.distance_from_client c)
                   (snd (NextApi.distance (body_latitude body)
                                          (body_longitude body) client))) /\
      body_client_id body = Some (Checkin.client_id c) /\
      (1 <= Checkin.client_id c)%Z /\
      NextApi.getClientById s (Checkin.client_id c) = Some client /\
      NextApi.getActiveCheckin s u = None /\
      Checkin.latitude c = NextApi.number_or_null (body_latitude body) /\
      Checkin.longitude c = NextApi.number_or_null (body_longitude body) /\
      NextApi.latitude_ok (body_latitude body) = true /\
      NextApi.longitude_ok (body_longitude body) = true /\
      NextApi.notes_too_long (body_notes body) = false /\
      Checkin.notes c = or_null (body_notes body) /\
      Checkin.distance_from_client c =
        fst (NextApi.distance (body_latitude body) (body_longitude body)
                              client)).
Proof.
  unfold NextApi.POST_checkin.
  destruct (body_client_id body) as [cid |]; simpl; [| left; auto].
  destruct (cid =? 0)%Z; simpl; [left; auto |].
  destruct (cid <? 1)%Z eqn:Hcid; simpl; [left; auto |].
  apply Z.ltb_ge in Hcid.
  destruct (NextApi.latitude_ok _) eqn:Hlat; simpl; [| left; auto].
  destruct (NextApi.longitude_ok _) eqn:Hlon; simpl; [| left; auto].
  destruct (NextApi.notes_too_long _) eqn:Hnotes; simpl; [left; auto |].
  destruct (NextApi.getActiveCheckin s u) eqn:Hact; simpl; [left; auto |].
  destruct (NextApi.getClientById s cid) as [client |] eqn:Hcl; simpl;
    [| left; auto].
  destruct (NextApi.distance (body_latitude body) (body_longitude body)
                             client) as [d w] eqn:Hd.
  right. eexists. exists client.
  split; [unfold inserted_by; simpl; repeat split |].
  unfold created_by. simpl. rewrite Hcl, Hd. simpl.
  repeat split; try reflexivity; assumption.
Qed.

End CreatedRows.

(** ** The history of check-ins *)

Section HistoryInvariants.

Lemma max_of_seq (a n : nat) :
  fold_right Z.max 0%Z (map Z.of_nat (seq a n)) =
  match n with
  | O => 0%Z
  | S _ => Z.of_nat (a + n - 1)
  end.
Proof.
  revert a. induction n as [| n IH]; intros a; simpl; [reflexivity |].
  rewrite IH. destruct n; lia.
Qed.

Lemma dense_insertId (s : Store) :
  dense_ids s ->
  Sql.insertId (checkins s) = (Z.of_nat (List.length (checkins s)) + 1)%Z.
Proof.
  unfold dense_ids, Sql.insertId. intros ->. rewrite max_of_seq.
  destruct (List.length (checkins s)); lia.
Qed.

Lemma dense_inserted (s s' : Store) (u : Z) (c : Checkin.t) :
  dense_ids s -> inserted_by s s' u c ->
  Checkin.id c = (Z.of_nat (List.length (checkins s)) + 1)%Z ->
  dense_ids s'.
Proof.
  unfold dense_ids. intros Hd (_ & _ & _ & Hrows & _) Hid.
  rewrite Hrows, map_app, length_app, Hd. simpl.
  rewrite Nat.add_1_r, seq_S, map_app. simpl.
  rewrite Hid. do 2 f_equal. lia.
Qed.

Lemma closed_core (now : Z) (c c' : Checkin.t) :
  closed_from now c c' -> core c' = core c.
Proof.
  intros (H1 & H2 & H3 & H4 & H5 & H6 & H7 & H8 & _).
  unfold core. now rewrite H1, H2, H3, H4, H5, H6, H7, H8.
Qed.

Lemma frame_core (now : Z) (l l' : list Checkin.t) :
  Forall2 (checkout_row now) l l' -> map core l' = map core l.
Proof.
  induction 1 as [| c c' l l' Hrow _ IH]; simpl; [reflexivity |].
  rewrite IH. f_equal. destruct Hrow as [-> | Hc]; [reflexivity |].
  eapply closed_core; eassumption.
Qed.

Lemma core_ids (l l' : list Checkin.t) :
  map core l' = map core l ->
  map Checkin.id l' = map Checkin.id l /\ List.length l' = List.length l.
Proof.
  intros H. split.
  - assert (Hid : forall x, map Checkin.id x =
                            map (fun t => fst (fst (fst (fst (fst (fst (fst t)))))))
                                (map core x))
      by (intros x; rewrite map_map; reflexivity).
    now rewrite (Hid l'), (Hid l), H.
  - rewrite <- (length_map core l'), <- (length_map core l). now rewrite H.
Qed.

Lemma dense_frame (now : Z) (s s' : Store) :
  checkout_frame now s s' -> dense_ids s -> dense_ids s'.
Proof.
  intros (_ & _ & _ & Hrows) Hd. unfold dense_ids in *.
  destruct (core_ids _ _ (frame_core now _ _ Hrows)) as [Hid Hlen].
  now rewrite Hid, Hlen.
Qed.

Lemma step_dense (s s' : Store) : step s s' -> dense_ids s -> dense_ids s'.
Proof.
  intros Hstep Hd. destruct Hstep.
  - destruct (v1_post_created s userId now body)
      as [[-> _] | (c & Hins & _ & Hid & _)]; [exact Hd |].
    eapply dense_inserted; [exact Hd | exact Hins |].
    now rewrite Hid, dense_insertId.
  - eapply dense_frame; [apply (other_checkouts_frame now s userId) | exact Hd].
  - destruct (v2_post_created s userId now body)
      as [[-> _] | (c & Hins & _ & Hid & _)]; [exact Hd |].
    eapply dense_inserted; [exact Hd | exact Hins |].
    now rewrite Hid, dense_insertId.
  - eapply dense_frame; [apply (v2_checkout_frame now s userId) | exact Hd].
  - destruct (next_post_created s userId now body)
      as [[-> _] | (c & cl & Hins & _ & Hid & _)]; [exact Hd |].
    eapply dense_inserted; eassumption.
  - eapply dense_frame; [apply (other_checkouts_frame now s userId) | exact Hd].
Qed.

Lemma dense_NoDup (s : Store) :
  dense_ids s -> NoDup (map Checkin.id (checkins s)).
Proof.
  unfold dense_ids. intros ->.
  apply Finite.Injective_map_NoDup; [| apply seq_NoDup].
  intros a b. apply Nat2Z.inj.
Qed.

(** Starting from check-ins numbered 1 to n, the check-in and checkout
    handlers keep the ids of the check-ins equal to 1, 2, ... in insertion
    order; in particular no two check-ins share an id, and the two id schemes
    (one more than the greatest id, one more than the number of rows)
    agree. *)
Theorem reachable_dense_ids (init s : Store)
        (Hinit : dense_ids init) (Hreach : reachable init s) :
  dense_ids s /\
  NoDup (map Checkin.id (checkins s)) /\
  Sql.insertId (checkins s) = (Z.of_nat (List.length (checkins s)) + 1)%Z.
Proof.
  assert (Hd : dense_ids s).
  { induction Hreach as [| s s' _ IH Hstep]; [exact Hinit |].
    exact (step_dense s s' Hstep IH). }
  split; [exact Hd |]. split; [now apply dense_NoDup | now apply dense_insertId].
Qed.

Lemma reachable_dense_ids_witness :
  map Checkin.id (checkins seed_with_active) = [1; 2; 3; 4; 5; 6]%Z /\
  Sql.insertId (checkins seed_with_active) = 7%Z.
Proof.
  assert (Hreach : reachable Db.seed seed_with_active).
  { eapply reachable_step; [apply reachable_init |].
    exact (step_next_checkin Db.seed 4 1705400000000 (bare_request 1)). }
  destruct (reachable_dense_ids Db.seed seed_with_active eq_refl Hreach)
    as (Hd & _ & Hnext).
  split; [exact Hd | exact Hnext].
Defined.

Lemma evolves_refl (l : list Checkin.t) : Forall2 evolves l l.
Proof. induction l; constructor; auto. split; auto. Qed.

Lemma frame_evolves (now : Z) (l l' : list Checkin.t) :
  Forall2 (checkout_row now) l l' -> Forall2 evolves l l'.
Proof.
  induction 1 as [| c c' l l' Hrow _ IH]; constructor; auto.
  destruct Hrow as [-> | Hc]; [split; auto |].
  split; [eapply closed_core; eassumption |].
  intros _. apply Hc.
Qed.

Lemma extends_frame (now : Z) (s s' : Store) :
  checkout_frame now s s' -> extends s s'.
Proof.
  intros (_ & _ & _ & Hrows). exists (checkins s'), [].
  split; [now rewrite app_nil_r | eapply frame_evolves; eassumption].
Qed.

Lemma extends_refl (s : Store) : extends s s.
Proof.
  exists (checkins s), []. split; [now rewrite app_nil_r | apply evolves_refl].
Qed.

Lemma extends_inserted (s s' : Store) (u : Z) (c : Checkin.t) :
  inserted_by s s' u c -> extends s s'.
Proof.
  intros (_ & _ & _ & Hrows & _). exists (checkins s), [c].
  split; [exact Hrows | apply evolves_refl].
Qed.

Lemma evolves_trans (l1 l2 l3 : list Checkin.t) :
  Forall2 evolves l1 l2 -> Forall2 evolves l2 l3 -> Forall2 evolves l1 l3.
Proof.
  intros H12. revert l3. induction H12 as [| a b l1 l2 [Hc Hs] _ IH];
    intros l3 H23; inversion H23 as [| b' c l2' l3' [Hc' Hs'] Hrest];
    subst; constructor; auto.
  split; [congruence | auto].
Qed.

Lemma extends_trans (s1 s2 s3 : Store) :
  extends s1 s2 -> extends s2 s3 -> extends s1 s3.
Proof.
  intros (old2 & add2 & E2 & H12) (old3 & add3 & E3 & H23).
  rewrite E2 in H23.
  apply Forall2_app_inv_l in H23 as (o & a & Ho & Ha & ->).
  exists o, (a ++ add3)%list. split.
  - now rewrite E3, app_assoc.
  - eapply evolves_trans; eassumption.
Qed.

Lemma step_extends (s s' : Store) : step s s' -> extends s s'.
Proof.
  intros Hstep. destruct Hstep.
  - destruct (v1_post_created s userId now body)
      as [[-> _] | (c & Hins & _)];
      [apply extends_refl | eapply extends_inserted; eassumption].
  - eapply extends_frame. apply (other_checkouts_frame now s userId).
  - destruct (v2_post_created s userId now body)
      as [[-> _] | (c & Hins & _)];
      [apply extends_refl | eapply extends_inserted; eassumption].
  - eapply extends_frame. apply (v2_checkout_frame now s userId).
  - destruct (next_post_created s userId now body)
      as [[-> _] | (c & cl & Hins & _)];
      [apply extends_refl | eapply extends_inserted; eassumption].
  - eapply extends_frame. apply (other_checkouts_frame now s userId).
Qed.

(** The check-in and checkout handlers never delete or reorder a check-in:
    in every later store the earlier check-ins are still there, in place,
    with the id, employee, client, [checkin_time], coordinates, distance and
    notes they were created with, and a checked-out check-in is still
    checked out; new check-ins come after them. *)
Theorem reachable_extends (init s : Store) (Hreach : reachable init s) :
  extends init s /\
  (List.length (checkins init) <= List.length (checkins s))%nat.
Proof.
  assert (He : extends init s).
  { induction Hreach as [| s s' _ IH Hstep]; [apply extends_refl |].
    eapply extends_trans; [exact IH | now apply step_extends]. }
  split; [exact He |].
  destruct He as (old & added & -> & Hold).
  rewrite length_app, <- (Forall2_length Hold). lia.
Qed.

Lemma reachable_extends_witness :
  extends Db.seed seed_with_active.
Proof.
  apply (reachable_extends Db.seed seed_with_active).
  eapply reachable_step; [apply reachable_init |].
  exact (step_next_checkin Db.seed 4 1705400000000 (bare_request 1)).
Defined.

End HistoryInvariants.

(** ** Check-in, active check-in, checkout *)

Section ActiveRoundTrip.

Lemma insert_desc_perm (r : Http.joined) (rows : list Http.joined) :
  Permutation (Sql.insert_desc r rows) (r :: rows).
Proof.
  induction rows as [| r' rest IH]; simpl.
  - apply Permutation_refl.
  - destruct (Checkin.checkin_time (Http.row r') <=?
              Checkin.checkin_time (Http.row r))%Z.
    + apply Permutation_refl.
    + apply perm_trans with (r' :: r :: rest);
        [now apply perm_skip | apply perm_swap].
Qed.

Lemma order_desc_perm (rows : list Http.joined) :
  Permutation (Sql.order_desc rows) rows.
Proof.
  induction rows as [| r rest IH]; simpl.
  - apply perm_nil.
  - apply perm_trans with (r :: Sql.order_desc rest);
      [apply insert_desc_perm | now apply perm_skip].
Qed.

Lemma limit1_order_desc_nil (rows : list Http.joined) :
  rows = [] -> Sql.limit1 (Sql.order_desc rows) = None.
Proof. intros ->. reflexivity. Qed.

Lemma limit1_order_desc_all (c : Checkin.t) (rows : list Http.joined) :
  rows <> [] -> Forall (fun j => Http.row j = c) rows ->
  option_map Http.row (Sql.limit1 (Sql.order_desc rows)) = Some c.
Proof.
  intros Hne Hall.
  pose proof (order_desc_perm rows) as Hperm.
  destruct (Sql.order_desc rows) as [| j rest] eqn:E.
  - apply Permutation_nil in Hperm. contradiction.
  - simpl. f_equal. rewrite Forall_forall in Hall. apply Hall.
    apply (Permutation_in _ Hperm). now left.
Qed.

Lemma leftJoin_rows (s : Store) (ch : Checkin.t) :
  Sql.leftJoinClients s ch <> [] /\
  Forall (fun j => Http.row j = ch) (Sql.leftJoinClients s ch).
Proof.
  unfold Sql.leftJoinClients.
  assert (Hinner : Forall (fun j => Http.row j = ch)
                          (Sql.innerJoinClients s ch)).
  { unfold Sql.innerJoinClients. apply Forall_forall. intros j Hj.
    apply in_map_iff in Hj as (c & <- & _). reflexivity. }
  destruct (Sql.innerJoinClients s ch) as [| j rest].
  - split; [discriminate | constructor; [reflexivity | constructor]].
  - split; [discriminate | exact Hinner].
Qed.

Lemma ids_below_insertId (rows : list Checkin.t) (c : Checkin.t) :
  In c rows -> (Checkin.id c < Sql.insertId rows)%Z.
Proof.
  unfold Sql.insertId. induction rows as [| x rest IH]; simpl; [intros [] |].
  intros [-> | Hin]; [lia |]. specialize (IH Hin). lia.
Qed.

Lemma find_fresh_id (rows : list Checkin.t) (c : Checkin.t) :
  Checkin.id c = Sql.insertId rows ->
  find (fun x => (Checkin.id x =? Sql.insertId rows)%Z) (rows ++ [c])%list
  = Some c.
Proof.
  intros Hid.
  assert (Hnone : forall l, (forall x, In x l -> In x rows) ->
            find (fun x => (Checkin.id x =? Sql.insertId rows)%Z)
                 (l ++ [c])%list = Some c).
  { induction l as [| x l IH]; intros Hsub; simpl.
    - now rewrite Hid, Z.eqb_refl.
    - assert (Hx : (Checkin.id x < Sql.insertId rows)%Z)
        by (apply ids_below_insertId, Hsub; now left).
      destruct (Checkin.id x =? Sql.insertId rows)%Z eqn:E.
      + apply Z.eqb_eq in E. lia.
      + apply IH. intros y Hy. apply Hsub. now right. }
  apply Hnone. auto.
Qed.

Lemma filter_none {A : Type} (p : A -> bool) (l : list A) :
  (forall x, In x l -> p x = false) -> filter p l = [].
Proof.
  induction l as [| x rest IH]; intros H; simpl; [reflexivity |].
  rewrite (H x) by now left. apply IH. intros y Hy. apply H. now right.
Qed.

Lemma filter_nil_find {A : Type} (p : A -> bool) (l : list A) :
  filter p l = [] -> find p l = None.
Proof.
  induction l as [| x rest IH]; simpl; [reflexivity |].
  destruct (p x); [discriminate | exact IH].
Qed.

Lemma created_active (u now : Z) (c : Checkin.t) :
  created_by u now c -> Checkin.active_of u c = true.
Proof.
  intros (Hu & _ & _ & Hst). unfold Checkin.active_of, Checkin.is_active.
  now rewrite Hu, Hst, Z.eqb_refl.
Qed.

Lemma active_after_insert (s s' : Store) (u now : Z) (c : Checkin.t) :
  inserted_by s s' u c -> created_by u now c -> active_count s u = 0%nat ->
  filter (Checkin.active_of u) (checkins s') = [c].
Proof.
  intros (_ & _ & _ & Hrows & _) Hc Hnone.
  unfold active_count in Hnone. apply length_zero_iff_nil in Hnone.
  rewrite Hrows, filter_app, Hnone. simpl.
  now rewrite (created_active u now c Hc).
Qed.

Lemma named_row_name_only (o : option Http.joined) :
  option_map Http.named_row (option_map Http.name_only o) =
  option_map Http.row o.
Proof. destruct o; reflexivity. Qed.

Lemma v2_post_payload (s : Store) (u now : Z) (body : CheckinBody) :
  Http.status (fst (ExpressV2.post_checkin s u now body)) = 201%Z ->
  exists j w,
    fst (ExpressV2.post_checkin s u now body) =
      Http.json 201 (Http.WithRow (inl j) "Checked in successfully" w) /\
    checkins (snd (ExpressV2.post_checkin s u now body)) =
      (checkins s ++ [Http.row j])%list.
Proof.
  unfold ExpressV2.post_checkin.
  destruct (body_client_id body) as [cid |]; simpl; [| discriminate].
  repeat match goal with
         | |- context [if ?b then _ else _] =>
             destruct b; simpl; try discriminate
         end.
  destruct (ExpressV2.distance (Sql.clientsById s cid) (body_latitude body)
                               (body_longitude body)) as [d w].
  intros _. unfold Sql.selectJoined. simpl.
  rewrite find_fresh_id by reflexivity. simpl.
  destruct (find (fun c0 => (Client.id c0 =? cid)%Z) (clients s));
    eexists _, w; split; reflexivity.
Qed.

(** After a successful check-in through the transactional route the response
    carries the inserted check-in (status [checked_in], [checkin_time] the
    current timestamp), and [GET /active] returns that same check-in. *)
Theorem v2_checkin_then_active
        (s : Store) (u now : Z) (body : CheckinBody)
        (Hok : Http.status (fst (ExpressV2.post_checkin s u now body))
               = 201%Z) :
  exists c j w,
    fst (ExpressV2.post_checkin s u now body) =
      Http.json 201 (Http.WithRow (inl j) "Checked in successfully" w) /\
    Http.row j = c /\
    inserted_by s (snd (ExpressV2.post_checkin s u now body)) u c /\
    created_by u now c /\
    option_map Http.named_row
      (ExpressV2.get_active (snd (ExpressV2.post_checkin s u now body)) u)
    = Some c.
Proof.
  destruct (v2_post_created s u now body)
    as [[_ Hno] | (c & Hins & Hc & Hid & _ & _ & _ & Hnone & _)];
    [contradiction |].
  pose proof (active_after_insert _ _ u now c Hins Hc Hnone) as Hact.
  destruct (v2_post_payload s u now body Hok) as (j & w & Hresp & Hrows).
  exists c, j, w. split; [exact Hresp |].
  split.
  { destruct Hins as (_ & _ & _ & Hrows' & _). rewrite Hrows' in Hrows.
    apply app_inv_head in Hrows. now injection Hrows. }
  split; [exact Hins |]. split; [exact Hc |].
  unfold ExpressV2.get_active. rewrite Hact. simpl. rewrite app_nil_r.
  rewrite named_row_name_only.
  apply limit1_order_desc_all; apply leftJoin_rows.
Qed.

Lemma v2_checkin_then_active_witness :
  exists c,
    option_map Http.named_row
      (ExpressV2.get_active
         (snd (ExpressV2.post_checkin Db.seed 4 1705400000000
                                      (bare_request 1))) 4) = Some c /\
    Checkin.status c = checked_in.
Proof.
  destruct (v2_checkin_then_active Db.seed 4 1705400000000 (bare_request 1)
              eq_refl) as (c & j & w & _ & _ & _ & Hc & Hact).
  exists c. split; [exact Hact | apply Hc].
Defined.

End ActiveRoundTrip.

Section CheckoutRoundTrip.

Lemma single_active_unique (s : Store) (u : Z) (c0 c : Checkin.t) :
  single_active s ->
  In c0 (filter (Checkin.active_of u) (checkins s)) ->
  In c (filter (Checkin.active_of u) (checkins s)) -> c = c0.
Proof.
  intros Hs H0 H. specialize (Hs u). unfold active_count in Hs.
  destruct (filter (Checkin.active_of u) (checkins s)) as [| x [| y rest]];
    simpl in *; try lia; try contradiction.
  destruct H0 as [<- | []]. destruct H as [<- | []]. reflexivity.
Qed.

Lemma close_not_active (u now : Z) (c : Checkin.t) :
  Checkin.active_of u (Checkin.close now c) = false.
Proof. unfold Checkin.active_of. simpl. apply andb_false_r. Qed.

Lemma updateCheckoutIfActive_clears (u id0 now : Z) (rows : list Checkin.t) :
  (forall c, In c rows -> Checkin.active_of u c = true ->
             Checkin.id c = id0) ->
  filter (Checkin.active_of u) (Sql.updateCheckoutIfActive id0 now rows) = [].
Proof.
  intros Hall. apply filter_none. intros c' Hin.
  unfold Sql.updateCheckoutIfActive in Hin.
  apply in_map_iff in Hin as (c & <- & Hc).
  destruct ((Checkin.id c =? id0)%Z && Checkin.is_active c) eqn:E.
  - apply close_not_active.
  - destruct (Checkin.active_of u c) eqn:Hact; [| reflexivity].
    rewrite (Hall c Hc Hact), Z.eqb_refl in E. simpl in E.
    unfold Checkin.active_of in Hact.
    apply andb_true_iff in Hact as [_ Hact]. congruence.
Qed.

Lemma v2_checkout_clears (s : Store) (u now : Z) :
  single_active s ->
  filter (Checkin.active_of u)
         (checkins (snd (ExpressV2.put_checkout s u now))) = [].
Proof.
  intros Hs. unfold ExpressV2.put_checkout.
  destruct (ExpressV2.getMostRecentActiveCheckin s u) as [| c0 rest] eqn:E.
  - simpl. unfold ExpressV2.getMostRecentActiveCheckin in E.
    now apply latest_nil.
  - simpl. apply updateCheckoutIfActive_clears. intros c Hc Hact.
    unfold ExpressV2.getMostRecentActiveCheckin in E. apply latest_In in E.
    f_equal. apply (single_active_unique s u c0 c Hs E).
    apply filter_In. auto.
Qed.

Lemma updateCheckoutIfActive_open (id0 now : Z) (rows : list Checkin.t) :
  Forall2 (closes_open now) rows (Sql.updateCheckoutIfActive id0 now rows).
Proof.
  induction rows as [| c rest IH]; simpl; constructor; auto.
  destruct ((Checkin.id c =? id0)%Z && Checkin.is_active c) eqn:E.
  - right. apply andb_true_iff in E as [_ E].
    unfold Checkin.is_active in E.
    split; [destruct (Checkin.status c); [reflexivity | discriminate] |].
    apply close_closed_from.
  - now left.
Qed.

(** The checkout of the transactional route changes check-ins that are
    checked in and no others: a check-in that is already checked out keeps
    its [checkout_time]. *)
Theorem v2_checkout_closes_open_only (s : Store) (u now : Z) :
  Forall2 (closes_open now) (checkins s)
          (checkins (snd (ExpressV2.put_checkout s u now))).
Proof.
  unfold ExpressV2.put_checkout.
  destruct (ExpressV2.getMostRecentActiveCheckin s u) as [| c0 rest]; simpl.
  - induction (checkins s); constructor; auto. now left.
  - apply updateCheckoutIfActive_open.
Qed.

(** With at most one active check-in per employee, after a checkout through
    the transactional route (whatever it answered) the employee has no active
    check-in: [GET /active] returns null, and a second checkout answers 404
    and changes nothing. *)
Theorem v2_checkout_then_inactive (s : Store) (u now now' : Z)
        (Hs : single_active s) :
  let s' := snd (ExpressV2.put_checkout s u now) in
  ExpressV2.get_active s' u = None /\
  ExpressV2.put_checkout s' u now' =
    (Http.json 404 (Http.Failure "No active check-in found"), s').
Proof.
  intros s'. pose proof (v2_checkout_clears s u now Hs) as Hnone.
  fold s' in Hnone. split.
  - unfold ExpressV2.get_active. now rewrite Hnone.
  - unfold ExpressV2.put_checkout, ExpressV2.getMostRecentActiveCheckin.
    now rewrite Hnone.
Qed.

Lemma v2_checkout_then_inactive_witness :
  ExpressV2.get_active
    (snd (ExpressV2.put_checkout seed_with_active 4 1705403600000)) 4 = None.
Proof.
  assert (Hs : single_active seed_with_active).
  { apply (reachable_single_active Db.seed); [apply seed_single_active |].
    eapply reachable_step; [apply reachable_init |].
    exact (step_next_checkin Db.seed 4 1705400000000 (bare_request 1)). }
  exact (proj1 (v2_checkout_then_inactive seed_with_active 4 1705403600000
                  1705403600001 Hs)).
Defined.

Lemma find_app_none {A : Type} (p : A -> bool) (l : list A) (x : A) :
  find p l = None -> p x = true -> find p (l ++ [x])%list = Some x.
Proof.
  induction l as [| y rest IH]; simpl; intros Hnone Hx.
  - now rewrite Hx.
  - destruct (p y); [discriminate | auto].
Qed.

Lemma checkout_rows_clears (u id0 now : Z) (c0 : Checkin.t)
      (rows : list Checkin.t) :
  NoDup (map Checkin.id rows) -> In c0 rows -> Checkin.id c0 = id0 ->
  (forall c, In c rows -> Checkin.active_of u c = true -> c = c0) ->
  filter (Checkin.active_of u) (Db.checkins_.checkout_rows id0 now rows) = [].
Proof.
  induction rows as [| x rest IH]; simpl; [intros _ [] |].
  intros Hnd Hin Hid Hall. inversion Hnd as [| ? ? Hnot Hnd']; subst.
  destruct (Checkin.id x =? Checkin.id c0)%Z eqn:E.
  - apply Z.eqb_eq in E. simpl. rewrite close_not_active.
    apply filter_none. intros c Hc.
    destruct (Checkin.active_of u c) eqn:Hact; [| reflexivity].
    exfalso. apply Hnot. rewrite E.
    rewrite <- (Hall c (or_intror Hc) Hact). now apply in_map.
  - apply Z.eqb_neq in E. simpl.
    destruct (Checkin.active_of u x) eqn:Hx.
    + exfalso. apply E. now rewrite (Hall x (or_introl eq_refl) Hx).
    + apply IH; auto.
      destruct Hin as [-> | Hin]; [contradiction | exact Hin].
Qed.

Lemma find_In_some {A : Type} (p : A -> bool) (l : list A) (x : A) :
  In x l -> p x = true -> exists y, find p l = Some y.
Proof.
  induction l as [| z rest IH]; simpl; [intros [] |].
  intros [-> | Hin] Hx.
  - rewrite Hx. eauto.
  - destruct (p z); eauto.
Qed.

Lemma next_checkout_clears (s : Store) (u now : Z) :
  single_active s -> NoDup (map Checkin.id (checkins s)) ->
  filter (Checkin.active_of u)
         (checkins (snd (NextApi.POST_checkout s u now))) = [].
Proof.
  intros Hs Hnd. unfold NextApi.POST_checkout, NextApi.getActiveCheckin,
    Db.checkins_.getActiveByEmployeeId.
  destruct (find (Checkin.active_of u) (checkins s)) as [c0 |] eqn:E.
  - apply find_some in E as [Hin Hact]. simpl.
    unfold NextApi.checkout, Db.checkins_.checkout, Db.checkins_.findById.
    destruct (find_In_some (fun c => (Checkin.id c =? Checkin.id c0)%Z)
                (checkins s) c0 Hin (Z.eqb_refl _)) as [y ->].
    simpl. eapply checkout_rows_clears; eauto.
    intros c Hc Hcact.
    apply (single_active_unique s u c0 c Hs); apply filter_In; auto.
  - simpl. now apply find_none_filter.
Qed.

(** The Next.js handlers: after a successful check-in, the [GET] reports an
    active check-in and returns the inserted one. *)
Theorem next_checkin_then_active
        (s : Store) (u now : Z) (body : CheckinBody)
        (Hok : Http.status (fst (NextApi.POST_checkin s u now body))
               = 201%Z) :
  exists c,
    inserted_by s (snd (NextApi.POST_checkin s u now body)) u c /\
    created_by u now c /\
    NextApi.GET_checkin (snd (NextApi.POST_checkin s u now body)) u =
      (true, Some c).
Proof.
  destruct (next_post_created s u now body)
    as [[_ H400] | (c & client & Hins & Hc & _ & _ & _ & _ & _ & Hnone & _)];
    [rewrite H400 in Hok; discriminate |].
  exists c. split; [exact Hins |]. split; [exact Hc |].
  unfold NextApi.GET_checkin, NextApi.getActiveCheckin,
    Db.checkins_.getActiveByEmployeeId.
  destruct Hins as (_ & _ & _ & -> & _).
  unfold NextApi.getActiveCheckin, Db.checkins_.getActiveByEmployeeId
    in Hnone.
  now rewrite (find_app_none _ _ c Hnone (created_active u now c Hc)).
Qed.

Lemma next_checkin_then_active_witness :
  exists c,
    NextApi.GET_checkin seed_with_active 4 = (true, Some c) /\
    Checkin.status c = checked_in.
Proof.
  destruct (next_checkin_then_active Db.seed 4 1705400000000 (bare_request 1)
              eq_refl) as (c & _ & Hc & Hget).
  exists c. split; [exact Hget | apply Hc].
Defined.

(** The Next.js handlers: with at most one active check-in per employee and
    distinct check-in ids, after a checkout the [GET] reports no active
    check-in and a second checkout answers 400 and changes nothing. *)
Theorem next_checkout_then_inactive (s : Store) (u now now' : Z)
        (Hs : single_active s)
        (Hids : NoDup (map Checkin.id (checkins s))) :
  let s' := snd (NextApi.POST_checkout s u now) in
  NextApi.GET_checkin s' u = (false, None) /\
  NextApi.POST_checkout s' u now' =
    (Http.json 400 (Http.Failure "No active check-in found to checkout from"),
     s').
Proof.
  intros s'. pose proof (next_checkout_clears s u now Hs Hids) as Hnone.
  fold s' in Hnone. apply filter_nil_find in Hnone.
  unfold NextApi.GET_checkin, NextApi.POST_checkout,
    NextApi.getActiveCheckin, Db.checkins_.getActiveByEmployeeId.
  rewrite Hnone. split; reflexivity.
Qed.

Lemma next_checkout_then_inactive_witness :
  NextApi.GET_checkin
    (snd (NextApi.POST_checkout seed_with_active 4 1705403600000)) 4 =
  (false, None).
Proof.
  assert (Hs : single_active seed_with_active).
  { apply (reachable_single_active Db.seed); [apply seed_single_active |].
    eapply reachable_step; [apply reachable_init |].
    exact (step_next_checkin Db.seed 4 1705400000000 (bare_request 1)). }
  assert (Hids : NoDup (map Checkin.id (checkins seed_with_active))).
  { apply dense_NoDup. reflexivity. }
  exact (proj1 (next_checkout_then_inactive seed_with_active 4 1705403600000
                  1705403600001 Hs Hids)).
Defined.

End CheckoutRoundTrip.

(** ** The check-in history *)

Section HistoryQueries.

Lemma insert_desc_sorted (r : Http.joined) (rows : list Http.joined) :
  StronglySorted later_first rows ->
  StronglySorted later_first (Sql.insert_desc r rows).
Proof.
  induction 1 as [| r' rest Hsorted IH Hall]; simpl.
  - constructor; constructor.
  - destruct (Checkin.checkin_time (Http.row r') <=?
              Checkin.checkin_time (Http.row r))%Z eqn:Hle.
    + apply Z.leb_le in Hle. constructor.
      * now constructor.
      * constructor; [exact Hle |].
        eapply Forall_impl; [| exact Hall].
        unfold later_first. intros x Hx. lia.
    + apply Z.leb_gt in Hle. constructor; [exact IH |].
      apply (Permutation_Forall
               (Permutation_sym (insert_desc_perm r rest))).
      constructor; [| exact Hall]. unfold later_first. lia.
Qed.

Lemma order_desc_sorted (rows : list Http.joined) :
  StronglySorted later_first (Sql.order_desc rows).
Proof.
  induction rows as [| r rest IH]; simpl.
  - constructor.
  - now apply insert_desc_sorted.
Qed.

Lemma historyFilter_within (u : Z) (sd ed : option Z) (ch : Checkin.t) :
  Sql.historyFilter u sd ed ch = true <->
  Checkin.employee_id ch = u /\ within sd ed (Checkin.checkin_time ch).
Proof.
  unfold Sql.historyFilter, within.
  rewrite !andb_true_iff, Z.eqb_eq.
  destruct sd as [d |], ed as [d' |]; rewrite ?Z.leb_le; intuition.
Qed.

Lemma innerJoin_rows (s : Store) (ch : Checkin.t) (j : Http.joined) :
  In j (Sql.innerJoinClients s ch) ->
  Http.row j = ch /\
  exists c, In c (clients s) /\ Client.id c = Checkin.client_id ch.
Proof.
  unfold Sql.innerJoinClients. intros Hj.
  apply in_map_iff in Hj as (c & <- & Hc).
  apply filter_In in Hc as [Hc Hid]. apply Z.eqb_eq in Hid.
  split; [reflexivity |]. exists c. auto.
Qed.

Lemma innerJoin_nonempty (s : Store) (ch : Checkin.t) (c : Client.t) :
  In c (clients s) -> Client.id c = Checkin.client_id ch ->
  exists j, In j (Sql.innerJoinClients s ch) /\ Http.row j = ch.
Proof.
  intros Hc Hid.
  exists (Http.mkJoined ch (Some (Client.name c)) (Some (Client.address c))).
  split; [| reflexivity].
  unfold Sql.innerJoinClients. apply in_map_iff. exists c.
  split; [reflexivity |]. apply filter_In. split; [exact Hc |].
  apply Z.eqb_eq. now rewrite Hid.
Qed.

(** [GET /history] of the transactional route returns exactly the check-ins
    of the employee whose day lies within the given bounds (all of them when
    no bound is given), the latest first. *)
Theorem v2_history_rows (s : Store) (u : Z) (start_date end_date : option Z) :
  (forall ch,
      In ch (map Http.row (ExpressV2.get_history s u start_date end_date)) <->
      In ch (checkins s) /\ Checkin.employee_id ch = u /\
      within start_date end_date (Checkin.checkin_time ch)) /\
  StronglySorted later_first
                 (ExpressV2.get_history s u start_date end_date).
Proof.
  split; [| apply order_desc_sorted].
  intros ch. unfold ExpressV2.get_history.
  rewrite <- historyFilter_within. split.
  - intros Hin. apply in_map_iff in Hin as (j & <- & Hj).
    apply (Permutation_in _ (order_desc_perm _)) in Hj.
    apply in_flat_map in Hj as (c & Hc & Hj).
    destruct (leftJoin_rows s c) as [_ Hrows].
    rewrite Forall_forall in Hrows. rewrite (Hrows j Hj).
    now apply filter_In in Hc.
  - intros [Hin Hf].
    destruct (leftJoin_rows s ch) as [Hne Hrows].
    destruct (Sql.leftJoinClients s ch) as [| j rest] eqn:E;
      [contradiction |].
    apply in_map_iff. exists j.
    split; [exact (Forall_inv Hrows) |].
    apply (Permutation_in _ (Permutation_sym (order_desc_perm _))).
    apply in_flat_map. exists ch. split.
    + apply filter_In. auto.
    + rewrite E. now left.
Qed.

(** [GET /history] of the first revision joins the clients with an inner
    join: it returns, the latest first, the check-ins of the employee within
    the bounds whose client exists, and drops the others. *)
Theorem v1_history_rows (s : Store) (u : Z) (start_date end_date : option Z) :
  (forall ch,
      In ch (map Http.row (ExpressV1.get_history s u start_date end_date)) <->
      In ch (checkins s) /\ Checkin.employee_id ch = u /\
      within start_date end_date (Checkin.checkin_time ch) /\
      exists c, In c (clients s) /\ Client.id c = Checkin.client_id ch) /\
  StronglySorted later_first
                 (ExpressV1.get_history s u start_date end_date).
Proof.
  split; [| apply order_desc_sorted].
  intros ch. unfold ExpressV1.get_history. split.
  - intros Hin. apply in_map_iff in Hin as (j & <- & Hj).
    apply (Permutation_in _ (order_desc_perm _)) in Hj.
    apply in_flat_map in Hj as (c & Hc & Hj).
    apply innerJoin_rows in Hj as [-> Hclient].
    apply filter_In in Hc as [Hc Hf].
    apply historyFilter_within in Hf as [Hu Hw]. auto.
  - intros (Hin & Hu & Hw & c & Hc & Hid).
    destruct (innerJoin_nonempty s ch c Hc Hid) as (j & Hj & Hrow).
    apply in_map_iff. exists j. split; [exact Hrow |].
    apply (Permutation_in _ (Permutation_sym (order_desc_perm _))).
    apply in_flat_map. exists ch. split; [| exact Hj].
    apply filter_In. split; [exact Hin |].
    apply historyFilter_within. auto.
Qed.

Lemma filter_unique_key {A : Type} (key : A -> Z) (k : Z) (l : list A) :
  NoDup (map key l) ->
  (List.length (filter (fun x => (k =? key x)%Z) l) <= 1)%nat.
Proof.
  induction l as [| x rest IH]; simpl; [lia |].
  intros Hnd. inversion Hnd as [| ? ? Hnot Hnd']; subst.
  destruct (k =? key x)%Z eqn:E; [| auto].
  apply Z.eqb_eq in E. simpl.
  rewrite (filter_none (fun y => (k =? key y)%Z) rest); [simpl; lia |].
  intros y Hy. apply Z.eqb_neq. intros Hk. apply Hnot.
  rewrite <- E, Hk. now apply in_map.
Qed.

Lemma leftJoin_single (s : Store) (ch : Checkin.t) :
  NoDup (map Client.id (clients s)) ->
  map Http.row (Sql.leftJoinClients s ch) = [ch].
Proof.
  intros Hnd. unfold Sql.leftJoinClients, Sql.innerJoinClients.
  pose proof (filter_unique_key Client.id (Checkin.client_id ch)
                                (clients s) Hnd) as Hlen.
  destruct (filter (fun c => (Checkin.client_id ch =? Client.id c)%Z)
                   (clients s)) as [| c [| c' rest]]; simpl in *;
    [reflexivity | reflexivity | lia].
Qed.

Lemma dateRange_historyFilter (u : Z) (sd ed : option Z) (c : Checkin.t) :
  (if negb (Checkin.employee_id c =? u)%Z then false
   else if match sd with
           | Some d => (Db.checkins_.checkinDate c <? d)%Z
           | None => false
           end then false
   else if match ed with
           | Some d => (d <? Db.checkins_.checkinDate c)%Z
           | None => false
           end then false
   else true) = Sql.historyFilter u sd ed c.
Proof.
  unfold Sql.historyFilter, Db.checkins_.checkinDate, Sql.DATE.
  destruct (Checkin.employee_id c =? u)%Z; simpl; [| reflexivity].
  destruct sd as [d |], ed as [d' |]; simpl;
    rewrite ?Z.ltb_antisym;
    repeat match goal with
           | |- context [(?a <=? ?b)%Z] => destruct (a <=? b)%Z; simpl
           end; reflexivity.
Qed.

(** When client ids are distinct, [db.checkins.getByDateRange] of the
    in-memory layer and [GET /history] of the transactional route return the
    same check-ins; the route sorts them, the data layer keeps insertion
    order. *)
Theorem getByDateRange_history (s : Store) (u : Z) (sd ed : option Z)
        (Hclients : NoDup (map Client.id (clients s))) :
  Permutation (map Http.row (ExpressV2.get_history s u sd ed))
              (Db.checkins_.getByDateRange s u sd ed).
Proof.
  unfold ExpressV2.get_history, Db.checkins_.getByDateRange.
  rewrite (filter_ext _ _ (dateRange_historyFilter u sd ed)).
  apply perm_trans
    with (map Http.row
              (flat_map (Sql.leftJoinClients s)
                        (filter (Sql.historyFilter u sd ed) (checkins s)))).
  - apply Permutation_map, order_desc_perm.
  - induction (filter (Sql.historyFilter u sd ed) (checkins s))
      as [| ch rest IH]; simpl; [apply perm_nil |].
    rewrite map_app, (leftJoin_single s ch Hclients). simpl.
    now apply perm_skip.
Qed.

Lemma getByDateRange_history_witness :
  Permutation
    (map Http.row (ExpressV2.get_history Db.seed 2 (Some 19737%Z) None))
    (Db.checkins_.getByDateRange Db.seed 2 (Some 19737%Z) None).
Proof.
  apply (getByDateRange_history Db.seed 2 (Some 19737%Z) None).
  simpl. repeat constructor; simpl; intuition discriminate.
Defined.

End HistoryQueries.

(** ** Assignments and the clients an employee may visit *)

Section Assignments.

Lemma isAssigned_iff (s : Store) (u cid : Z) :
  Db.employeeClients_.isAssigned s u cid = true <->
  exists ec, In ec (employeeClients s) /\
             EmployeeClient.employee_id ec = u /\
             EmployeeClient.client_id ec = cid.
Proof.
  unfold Db.employeeClients_.isAssigned. rewrite existsb_exists.
  split; intros (ec & Hin & H); exists ec; split; auto.
  - apply andb_true_iff in H as [H1 H2].
    apply Z.eqb_eq in H1, H2. auto.
  - destruct H as [-> ->]. now rewrite !Z.eqb_refl.
Qed.

(** [GET /clients] of the Express routes and [db.clients.getByEmployeeId]
    list the same clients: those that exist and to which the employee has an
    assignment. *)
Theorem assigned_clients (s : Store) (u : Z) (c : Client.t) :
  (In c (ExpressV1.get_clients s u) <->
   In c (clients s) /\
   Db.employeeClients_.isAssigned s u (Client.id c) = true) /\
  (In c (Db.clients_.getByEmployeeId s u) <->
   In c (clients s) /\
   Db.employeeClients_.isAssigned s u (Client.id c) = true).
Proof.
  split.
  - unfold ExpressV1.get_clients. rewrite in_flat_map, isAssigned_iff. split.
    + intros (c' & Hc' & Hin). apply in_map_iff in Hin as (ec & <- & Hec).
      apply filter_In in Hec as [Hec H].
      apply andb_true_iff in H as [H1 H2]. apply Z.eqb_eq in H1, H2.
      split; [exact Hc' |]. exists ec. auto.
    + intros (Hc & ec & Hec & Hu & Hid). exists c. split; [exact Hc |].
      apply in_map_iff. exists ec. split; [reflexivity |].
      apply filter_In. split; [exact Hec |].
      now rewrite Hu, Hid, !Z.eqb_refl.
  - unfold Db.clients_.getByEmployeeId. rewrite filter_In, isAssigned_iff.
    rewrite existsb_exists. split.
    + intros (Hc & cid & Hcid & Heq). apply Z.eqb_eq in Heq. subst cid.
      split; [exact Hc |].
      apply in_map_iff in Hcid as (ec & Hid & Hec).
      apply filter_In in Hec as [Hec Hu]. apply Z.eqb_eq in Hu.
      exists ec. auto.
    + intros (Hc & ec & Hec & Hu & Hid). split; [exact Hc |].
      exists (Client.id c). split; [| apply Z.eqb_refl].
      apply in_map_iff. exists ec. split; [exact Hid |].
      apply filter_In. split; [exact Hec |]. now apply Z.eqb_eq.
Qed.

Lemma v2_post_checkin_created_iff
      (s : Store) (u now cid : Z) (body : CheckinBody)
      (Hcid : body_client_id body = Some cid) :
  Http.status (fst (ExpressV2.post_checkin s u now body)) = 201%Z <->
  cid <> 0%Z /\ Db.employeeClients_.isAssigned s u cid = true /\
  active_count s u = 0%nat /\
  ExpressV2.one_missing (body_latitude body) (body_longitude body) = false /\
  ExpressV2.validLat (body_latitude body) = true /\
  ExpressV2.validLng (body_longitude body) = true.
Proof.
  assert (Hv2 : (0 <? List.length
                        (ExpressV2.getMostRecentActiveCheckin s u))%nat
                = false <-> active_count s u = 0%nat).
  { unfold active_count, ExpressV2.getMostRecentActiveCheckin. split.
    - intros H. apply length_zero_nil, latest_nil in H. now rewrite H.
    - intros H. apply length_zero_iff_nil in H. now rewrite H. }
  unfold ExpressV2.post_checkin. rewrite Hcid. simpl.
  destruct (cid =? 0)%Z eqn:Hz; simpl.
  { apply Z.eqb_eq in Hz. split; [discriminate | intros [H _]; contradiction]. }
  apply Z.eqb_neq in Hz.
  destruct (ExpressV2.one_missing _ _); simpl.
  { split; [discriminate | intros (_ & _ & _ & H & _); discriminate]. }
  destruct (ExpressV2.validLat _); simpl.
  2:{ split; [discriminate | intros (_ & _ & _ & _ & H & _); discriminate]. }
  destruct (ExpressV2.validLng _); simpl.
  2:{ split; [discriminate | intros (_ & _ & _ & _ & _ & H); discriminate]. }
  rewrite assignments_isAssigned.
  destruct (Db.employeeClients_.isAssigned s u cid); simpl.
  2:{ split; [discriminate | intros (_ & H & _); discriminate]. }
  destruct (0 <? List.length (ExpressV2.getMostRecentActiveCheckin s u))%nat
    eqn:Hact; simpl.
  - split; [discriminate |]. intros (_ & _ & H & _).
    apply Hv2 in H. congruence.
  - destruct (ExpressV2.distance _ _ _). simpl.
    split; [intros _ | reflexivity]. repeat split; auto. now apply Hv2.
Qed.

(** For a request that names a client id, the transactional Express route
    answers 201 exactly when the id is not 0, the coordinates are a valid
    pair (both missing, or two numbers within their ranges: a [null] is
    refused), the employee is assigned to the client and has no active
    check-in.  The first revision, on the engine it is deployed with, never
    answers 201: it answers 500 exactly when the request passes its two
    guards, that is for a non-zero id of an assigned client. *)
Theorem express_checkin_succeeds_iff
        (s : Store) (u now cid : Z) (req : Request)
        (Hcid : request_client_id req = Some cid) :
  (Http.status (fst (ExpressV2.post s u now req)) = 201%Z <->
   cid <> 0%Z /\
   coordinate_pair (request_latitude req) (request_longitude req) /\
   Db.employeeClients_.isAssigned s u cid = true /\
   active_count s u = 0%nat) /\
  Http.status (fst (ExpressV1.post Sql.better_sqlite3 s u now req))
    <> 201%Z /\
  (Http.status (fst (ExpressV1.post Sql.better_sqlite3 s u now req))
    = 500%Z <->
   cid <> 0%Z /\ Db.employeeClients_.isAssigned s u cid = true).
Proof.
  split; [| split].
  - destruct (Z.eq_dec cid 0) as [-> | Hnz].
    { unfold ExpressV2.post. rewrite Hcid. simpl.
      split; [discriminate | intros [H _]; now contradiction H]. }
    destruct (v2_post_validation s u now req cid Hcid Hnz)
      as [(Hpair & Heq & Hone & Hlat & Hlng) | (Hbad & _ & H400)].
    + rewrite Heq.
      rewrite (v2_post_checkin_created_iff s u now cid (body_of req) Hcid).
      tauto.
    + rewrite H400. split; [discriminate | tauto].
  - unfold Sql.better_sqlite3. simpl. rewrite Hcid.
    destruct (cid =? 0)%Z; [simpl; discriminate |].
    destruct (List.length (Sql.assignments s u cid) =? 0)%nat;
      simpl; discriminate.
  - unfold Sql.better_sqlite3. simpl. rewrite Hcid. simpl.
    destruct (cid =? 0)%Z eqn:Hz; simpl.
    { apply Z.eqb_eq in Hz. split; [discriminate | tauto]. }
    apply Z.eqb_neq in Hz. rewrite assignments_isAssigned.
    destruct (Db.employeeClients_.isAssigned s u cid); simpl.
    + tauto.
    + split; [discriminate | intros [_ H]; discriminate].
Qed.

Lemma express_checkin_succeeds_iff_witness :
  Http.status (fst (ExpressV2.post Db.seed 4 1705400000000
                                   (client_request 5))) = 201%Z /\
  Http.status (fst (ExpressV1.post Sql.better_sqlite3 Db.seed 4
                                   1705400000000 (client_request 5)))
    = 500%Z /\
  Http.status (fst (ExpressV2.post Db.seed 4 1705400000000
                                   (null_latitude_request 5))) <> 201%Z.
Proof.
  destruct (express_checkin_succeeds_iff Db.seed 4 1705400000000 5
              (client_request 5) eq_refl) as (Hv2 & _ & Hv1).
  destruct (express_checkin_succeeds_iff Db.seed 4 1705400000000 5
              (null_latitude_request 5) eq_refl) as (Hnull & _).
  split; [| split].
  - apply Hv2. repeat split. discriminate.
  - apply Hv1. split; [discriminate | reflexivity].
  - intros H. apply Hnull in H. destruct H as (_ & [] & _).
Defined.

Lemma next_post_checkin_created_iff
      (s : Store) (u now cid : Z) (body : CheckinBody)
      (Hcid : body_client_id body = Some cid) :
  (Http.status (fst (NextApi.POST_checkin s u now body)) = 201%Z <->
   (1 <= cid)%Z /\
   NextApi.latitude_ok (body_latitude body) = true /\
   NextApi.longitude_ok (body_longitude body) = true /\
   NextApi.notes_too_long (body_notes body) = false /\
   NextApi.getActiveCheckin s u = None /\
   NextApi.getClientById s cid <> None) /\
  (Http.status (fst (NextApi.POST_checkin s u now body)) = 201%Z \/
   Http.status (fst (NextApi.POST_checkin s u now body)) = 400%Z).
Proof.
  unfold NextApi.POST_checkin. rewrite Hcid. simpl.
  destruct (cid =? 0)%Z eqn:Hz; simpl.
  { apply Z.eqb_eq in Hz. split; [| now right].
    split; [discriminate | intros [H _]; lia]. }
  destruct (cid <? 1)%Z eqn:H1; simpl.
  { apply Z.ltb_lt in H1. split; [| now right].
    split; [discriminate | intros [H _]; lia]. }
  apply Z.ltb_ge in H1.
  destruct (NextApi.latitude_ok _); simpl.
  2:{ split; [| now right].
      split; [discriminate | intros (_ & H & _); discriminate]. }
  destruct (NextApi.longitude_ok _); simpl.
  2:{ split; [| now right].
      split; [discriminate | intros (_ & _ & H & _); discriminate]. }
  destruct (NextApi.notes_too_long _); simpl.
  { split; [| now right].
    split; [discriminate | intros (_ & _ & _ & H & _); discriminate]. }
  destruct (NextApi.getActiveCheckin s u); simpl.
  { split; [| now right].
    split; [discriminate | intros (_ & _ & _ & _ & H & _); discriminate]. }
  destruct (NextApi.getClientById s cid); simpl.
  2:{ split; [| now right].
      split; [discriminate | intros (_ & _ & _ & _ & _ & H); contradiction]. }
  destruct (NextApi.distance _ _ _). simpl. split; [| now left].
  split; [intros _ | reflexivity]. repeat split; auto. discriminate.
Qed.

Lemma notes_too_long_iff (notes : option string) :
  NextApi.notes_too_long notes = false <-> notes_within 500 notes.
Proof.
  unfold NextApi.notes_too_long, notes_within.
  destruct notes as [[| ch str] |]; simpl.
  - split; [intros _; lia | reflexivity].
  - rewrite Nat.ltb_ge. reflexivity.
  - tauto.
Qed.

Lemma getActiveCheckin_none (s : Store) (u : Z) :
  NextApi.getActiveCheckin s u = None <-> active_count s u = 0%nat.
Proof.
  unfold NextApi.getActiveCheckin, Db.checkins_.getActiveByEmployeeId,
    active_count.
  split.
  - intros H. apply find_none_filter in H.
    change (filter (Checkin.active_of u) (checkins s) = []) in H.
    now rewrite H.
  - intros H. apply length_zero_iff_nil in H.
    now apply filter_nil_find in H.
Qed.

Lemma getClientById_some (s : Store) (cid : Z) :
  NextApi.getClientById s cid <> None <->
  exists client, In client (clients s) /\ Client.id client = cid.
Proof.
  unfold NextApi.getClientById, Db.clients_.findById. split.
  - destruct (find _ (clients s)) as [client |] eqn:E;
      [intros _ | intros H; now contradiction H].
    apply find_some in E as [Hin Hid]. apply Z.eqb_eq in Hid.
    exists client. auto.
  - intros (client & Hin & Hid) H.
    apply (find_none _ _ H) in Hin. apply Z.eqb_neq in Hin. contradiction.
Qed.

(** For a request that names a client id, the Next.js check-in handler
    answers 201 exactly when the id is at least 1, each coordinate is
    missing or a number within its range (a [null] is refused), the notes
    have at most 500 characters, the employee has no active check-in and
    the client exists; every other such request gets 400. *)
Theorem next_checkin_succeeds_iff
        (s : Store) (u now cid : Z) (req : Request)
        (Hcid : request_client_id req = Some cid) :
  (Http.status (fst (NextApi.POST s u now req)) = 201%Z <->
   (1 <= cid)%Z /\
   coordinate_within 90 (request_latitude req) /\
   coordinate_within 180 (request_longitude req) /\
   notes_within 500 (request_notes req) /\
   active_count s u = 0%nat /\
   exists client, In client (clients s) /\ Client.id client = cid) /\
  (Http.status (fst (NextApi.POST s u now req)) = 201%Z \/
   Http.status (fst (NextApi.POST s u now req)) = 400%Z).
Proof.
  destruct (Z_lt_le_dec cid 1) as [Hlt | Hpos].
  { assert (H400 : Http.status (fst (NextApi.POST s u now req)) = 400%Z).
    { unfold NextApi.POST. rewrite Hcid.
      destruct (negb (truthy_id (Some cid))); [reflexivity |].
      apply Z.ltb_lt in Hlt. rewrite Hlt. reflexivity. }
    rewrite H400. split; [| now right].
    split; [discriminate | intros [H _]; lia]. }
  destruct (next_POST_validation s u now req cid Hcid Hpos)
    as [(Hlat & Hlng & Heq) | (Hbad & _ & H400)].
  - rewrite Heq.
    destruct (next_post_checkin_created_iff s u now cid (body_of req) Hcid)
      as [Hiff Hor].
    split; [| exact Hor]. rewrite Hiff.
    rewrite notes_too_long_iff, getActiveCheckin_none, getClientById_some.
    simpl body_notes. split.
    + intros (H1 & _ & _ & H4 & H5 & H6).
      split; [exact H1 |]. split; [exact Hlat |]. split; [exact Hlng |].
      split; [exact H4 |]. split; [exact H5 | exact H6].
    + intros (H1 & _ & _ & H4 & H5 & H6).
      split; [exact H1 |].
      split; [| split; [| split; [exact H4 | split; [exact H5 | exact H6]]]].
      * unfold NextApi.latitude_ok. simpl.
        destruct (request_latitude req) as [| | x]; simpl in *;
          try reflexivity.
        apply negb_true_iff, orb_false_iff.
        rewrite js_lt_false, js_gt_false. lra.
      * unfold NextApi.longitude_ok. simpl.
        destruct (request_longitude req) as [| | x]; simpl in *;
          try reflexivity.
        apply negb_true_iff, orb_false_iff.
        rewrite js_lt_false, js_gt_false. lra.
  - rewrite H400. split; [| now right].
    split; [discriminate | tauto].
Qed.

Lemma next_checkin_succeeds_iff_witness :
  Http.status (fst (NextApi.POST Db.seed 4 1705400000000
                                 (client_request 7))) = 400%Z /\
  Http.status (fst (NextApi.POST Db.seed 4 1705400000000
                                 (null_latitude_request 1))) = 400%Z.
Proof.
  split.
  - destruct (next_checkin_succeeds_iff Db.seed 4 1705400000000 7
                (client_request 7) eq_refl) as [[Hok _] [H | H]];
      [| exact H].
    apply Hok in H. destruct H as (_ & _ & _ & _ & _ & client & Hin & Hid).
    exfalso. simpl in Hin.
    repeat (destruct Hin as [<- | Hin]; [discriminate Hid |]).
    exact Hin.
  - destruct (next_checkin_succeeds_iff Db.seed 4 1705400000000 1
                (null_latitude_request 1) eq_refl) as [[Hok _] [H | H]];
      [| exact H].
    apply Hok in H. destruct H as (_ & [] & _).
Defined.

Lemma db_clients_of_employee (s : Store) (u : Z) (c : Client.t) :
  In c (Db.clients_.getByEmployeeId s u) <->
  In c (clients s) /\
  Db.employeeClients_.isAssigned s u (Client.id c) = true.
Proof.
  unfold Db.clients_.getByEmployeeId. rewrite filter_In, isAssigned_iff.
  rewrite existsb_exists. split.
  - intros (Hc & cid & Hcid & Heq). apply Z.eqb_eq in Heq. subst cid.
    split; [exact Hc |].
    apply in_map_iff in Hcid as (ec & Hid & Hec).
    apply filter_In in Hec as [Hec Hu]. apply Z.eqb_eq in Hu.
    exists ec. auto.
  - intros (Hc & ec & Hec & Hu & Hid). split; [exact Hc |].
    exists (Client.id c). split; [| apply Z.eqb_refl].
    apply in_map_iff. exists ec. split; [exact Hid |].
    apply filter_In. split; [exact Hec |]. now apply Z.eqb_eq.
Qed.

(** [db.employeeClients.assign] adds exactly one assignment, numbered
    [employeeClients.length + 1], and touches nothing else: afterwards the
    pair is assigned, every other pair is assigned as before, the
    assignments of the employee are the earlier ones followed by the new
    one, and [db.clients.getByEmployeeId] lists for the employee the clients
    it listed before and the client of the new assignment, if it exists. *)
Theorem assign_then_assigned
        (s : Store) (e c : Z) (today : string) :
  let a := fst (Db.employeeClients_.assign s e c today) in
  let s' := snd (Db.employeeClients_.assign s e c today) in
  a = EmployeeClient.mk (Z.of_nat (List.length (employeeClients s)) + 1)
                        e c today /\
  users s' = users s /\ clients s' = clients s /\
  checkins s' = checkins s /\
  employeeClients s' = (employeeClients s ++ [a])%list /\
  (forall e' c',
      Db.employeeClients_.isAssigned s' e' c' =
      Db.employeeClients_.isAssigned s e' c' ||
      ((e =? e')%Z && (c =? c')%Z)) /\
  Db.employeeClients_.getByEmployeeId s' e =
    (Db.employeeClients_.getByEmployeeId s e ++ [a])%list /\
  (forall client,
      In client (Db.clients_.getByEmployeeId s' e) <->
      In client (Db.clients_.getByEmployeeId s e) \/
      (In client (clients s) /\ Client.id client = c)).
Proof.
  intros a s'.
  assert (Hassign : forall e' c',
             Db.employeeClients_.isAssigned s' e' c' =
             Db.employeeClients_.isAssigned s e' c' ||
             ((e =? e')%Z && (c =? c')%Z)).
  { intros e' c'. unfold s', Db.employeeClients_.isAssigned. simpl.
    rewrite existsb_app. simpl. now rewrite orb_false_r. }
  repeat (split; [reflexivity |]).
  split; [exact Hassign |]. split.
  - unfold s', a, Db.employeeClients_.getByEmployeeId. simpl.
    rewrite filter_app. simpl. now rewrite Z.eqb_refl.
  - intros client. rewrite !db_clients_of_employee, Hassign.
    change (clients s') with (clients s).
    rewrite orb_true_iff, andb_true_iff, Z.eqb_refl, Z.eqb_eq. split.
    + intros (Hin & [H | [_ H]]); [left; auto | right; auto].
    + intros [[Hin H] | [Hin H]]; (split; [exact Hin |]);
        [left; exact H | right; auto].
Qed.

Lemma find_app {A : Type} (p : A -> bool) (l l' : list A) :
  find p (l ++ l')%list =
  match find p l with Some x => Some x | None => find p l' end.
Proof.
  induction l as [| x rest IH]; simpl; [reflexivity |].
  destruct (p x); [reflexivity | exact IH].
Qed.

(** [db.clients.create] and [db.clients.findById]: after a creation every
    lookup that found a client finds the same one, and the new client is
    found under its id, [clients.length + 1], when no earlier client has
    that id. *)
Theorem client_create_findById
        (s : Store) (name address : string) (latitude longitude : option R)
        (id : Z) :
  let created := Db.clients_.create s name address latitude longitude in
  Client.id (fst created) = (Z.of_nat (List.length (clients s)) + 1)%Z /\
  Db.clients_.findById (snd created) id =
    match Db.clients_.findById s id with
    | Some c => Some c
    | None => if (Client.id (fst created) =? id)%Z
              then Some (fst created) else None
    end.
Proof.
  unfold Db.clients_.create, Db.clients_.findById. simpl.
  split; [reflexivity |]. now rewrite find_app.
Qed.

End Assignments.

(** ** What the handlers store *)

Section StoredValues.

Lemma lt_false_iff (a b : R) : Js.lt a b = false <-> b <= a.
Proof.
  unfold Js.lt. destruct (Rlt_dec a b); split; intros H;
    try reflexivity; try discriminate; lra.
Qed.

Lemma gt_false_iff (a b : R) : Js.gt a b = false <-> a <= b.
Proof.
  unfold Js.gt. destruct (Rlt_dec b a); split; intros H;
    try reflexivity; try discriminate; lra.
Qed.

Lemma substring_length (n : nat) (str : string) :
  (String.length (substring 0 n str) <= n)%nat.
Proof.
  revert str. induction n as [| n IH]; intros str.
  - destruct str; simpl; lia.
  - destruct str as [| ch str]; simpl; [lia |].
    specialize (IH str). lia.
Qed.





(** A check-in created by the transactional route has either no coordinates
    or a latitude within [-90, 90] and a longitude within [-180, 180], and
    notes of at most 2000 characters. *)
Theorem v2_created_row_valid
        (s : Store) (u now : Z) (body : CheckinBody)
        (Hok : Http.status (fst (ExpressV2.post_checkin s u now body))
               = 201%Z) :
  exists c,
    inserted_by s (snd (ExpressV2.post_checkin s u now body)) u c /\
    coordinates_ok (Checkin.latitude c) (Checkin.longitude c) /\
    notes_ok false 2000 (Checkin.notes c).
Proof.
  destruct (v2_post_created s u now body)
    as [[_ Hno] | (c & Hins & _ & _ & _ & _ & _ & _ & Hlat & Hlon & Hone
                   & Hvlat & Hvlon & Hnotes & _)]; [contradiction |].
  exists c. split; [exact Hins |]. rewrite Hlat, Hlon, Hnotes. split.
  - unfold coordinates_ok, in_range.
    destruct (body_latitude body) as [x |], (body_longitude body) as [y |];
      simpl in *; try discriminate; auto.
    unfold ExpressV2.isValidLatitude in Hvlat.
    unfold ExpressV2.isValidLongitude in Hvlon.
    apply andb_true_iff in Hvlat as [H1 H2].
    apply andb_true_iff in Hvlon as [H3 H4].
    apply negb_true_iff in H1, H2, H3, H4.
    apply lt_false_iff in H1, H3. apply gt_false_iff in H2, H4. lra.
  - unfold notes_ok. destruct (body_notes body); simpl; auto.
    split; [exact I | apply substring_length].
Qed.

Lemma v2_created_row_valid_witness :
  exists c,
    inserted_by Db.seed
      (snd (ExpressV2.post_checkin Db.seed 4 1705400000000 (bare_request 1)))
      4 c /\
    coordinates_ok (Checkin.latitude c) (Checkin.longitude c).
Proof.
  destruct (v2_created_row_valid Db.seed 4 1705400000000 (bare_request 1)
              eq_refl) as (c & Hins & Hco & _).
  exists c. split; assumption.
Defined.

Lemma number_or_null_ok (bound : R) (o : option R) :
  match o with
  | Some v => negb (Js.lt v (- bound) || Js.gt v bound) = true
  | None => True
  end ->
  coordinate_ok bound (NextApi.number_or_null o).
Proof.
  unfold coordinate_ok, NextApi.number_or_null.
  destruct o as [x |]; [| auto]. intros H.
  unfold Js.truthy. destruct (Req_dec_T x 0) as [E | E]; [exact I |].
  split; [exact E |].
  apply negb_true_iff, orb_false_iff in H as [H1 H2].
  apply lt_false_iff in H1. apply gt_false_iff in H2. lra.
Qed.

(** A check-in created by the Next.js handler stores a latitude that is null
    or non-zero within [-90, 90], a longitude that is null or non-zero within
    [-180, 180], notes that are null or non-empty of at most 500 characters;
    and it has a distance only if both stored coordinates are there. *)
Theorem next_created_row_valid
        (s : Store) (u now : Z) (body : CheckinBody)
        (Hok : Http.status (fst (NextApi.POST_checkin s u now body))
               = 201%Z) :
  exists c,
    inserted_by s (snd (NextApi.POST_checkin s u now body)) u c /\
    coordinate_ok 90 (Checkin.latitude c) /\
    coordinate_ok 180 (Checkin.longitude c) /\
    notes_ok true 500 (Checkin.notes c) /\
    (Checkin.distance_from_client c = None \/
     (Checkin.latitude c <> None /\ Checkin.longitude c <> None)).
Proof.
  destruct (next_post_created s u now body)
    as [[_ H400] | (c & client & Hins & _ & _ & _ & _ & _ & _ & _ & Hlat
                    & Hlon & Hvlat & Hvlon & Hlong & Hnotes & Hd)];
    [rewrite H400 in Hok; discriminate |].
  exists c. split; [exact Hins |]. rewrite Hlat, Hlon, Hnotes, Hd.
  split; [| split; [| split]].
  - apply number_or_null_ok. unfold NextApi.latitude_ok in Hvlat.
    destruct (body_latitude body); auto.
  - apply number_or_null_ok. unfold NextApi.longitude_ok in Hvlon.
    destruct (body_longitude body); auto.
  - unfold notes_ok. unfold NextApi.notes_too_long in Hlong.
    destruct (or_null (body_notes body)) as [n |] eqn:E; [| exact I].
    apply Nat.ltb_ge in Hlong. split; [| exact Hlong].
    intros ->. destruct (body_notes body) as [[| ch str] |]; discriminate.
  - unfold NextApi.distance, NextApi.number_or_null.
    destruct (body_latitude body) as [x |]; [| now left].
    destruct (body_longitude body) as [y |]; [| now left].
    destruct (Client.latitude client) as [cx |]; [| now left].
    destruct (Client.longitude client) as [cy |]; [| now left].
    destruct (Js.truthy x), (Js.truthy y); simpl; try (now left).
    right. split; discriminate.
Qed.

Lemma next_created_row_valid_witness :
  exists c,
    inserted_by Db.seed seed_with_active 4 c /\
    notes_ok true 500 (Checkin.notes c).
Proof.
  destruct (next_created_row_valid Db.seed 4 1705400000000 (bare_request 1)
              eq_refl) as (c & Hins & _ & _ & Hn & _).
  exists c. split; assumption.
Defined.

End StoredValues.

(** ** Team statistics of [lib/db.ts] *)

Section TeamStatistics.

Lemma filter_orb_length {A : Type} (p q : A -> bool) (l : list A) :
  (List.length (filter (fun x => p x || q x) l) <=
   List.length (filter p l) + List.length (filter q l))%nat.
Proof.
  induction l as [| x rest IH]; simpl; [lia |].
  destruct (p x), (q x); simpl; lia.
Qed.

Lemma filter_false_nil {A : Type} (p : A -> bool) (l : list A) :
  (forall x, p x = false) -> filter p l = [].
Proof.
  intros H. induction l as [| x rest IH]; simpl; [reflexivity |].
  now rewrite H.
Qed.

Lemma active_in_team_bound (rows : list Checkin.t) (ids : list Z) :
  (forall k, (List.length (filter (Checkin.active_of k) rows) <= 1)%nat) ->
  (List.length
     (filter (fun c => existsb (Z.eqb (Checkin.employee_id c)) ids &&
                       Checkin.is_active c) rows) <= List.length ids)%nat.
Proof.
  intros Hone. induction ids as [| k ids IH]; simpl.
  - rewrite filter_false_nil by reflexivity. simpl. lia.
  - rewrite (filter_ext _ (fun c => Checkin.active_of k c ||
                             (existsb (Z.eqb (Checkin.employee_id c)) ids &&
                              Checkin.is_active c))).
    + pose proof (filter_orb_length (Checkin.active_of k)
                    (fun c => existsb (Z.eqb (Checkin.employee_id c)) ids &&
                              Checkin.is_active c) rows) as Hor.
      specialize (Hone k). lia.
    + intros c. unfold Checkin.active_of.
      destruct (Checkin.employee_id c =? k)%Z,
               (existsb (Z.eqb (Checkin.employee_id c)) ids),
               (Checkin.is_active c); reflexivity.
Qed.

(** When no employee has more than one active check-in, the active count of
    a manager's team is at most the size of the team. *)
Theorem active_count_at_most_team
        (s : Store) (managerId : Z) (Hsingle : single_active s) :
  (Db.checkins_.getActiveCountByManagerId s managerId <=
   List.length (Db.users_.findByManagerId s managerId))%nat.
Proof.
  unfold Db.checkins_.getActiveCountByManagerId.
  rewrite <- (length_map User.id (Db.users_.findByManagerId s managerId)).
  apply active_in_team_bound. exact Hsingle.
Qed.

Lemma active_count_at_most_team_witness :
  (Db.checkins_.getActiveCountByManagerId Db.seed 1 <= 3)%nat.
Proof.
  exact (active_count_at_most_team Db.seed 1 seed_single_active).
Defined.

Lemma set_add_fold (l init : list Z) :
  NoDup init ->
  let set := fold_left (fun set x => Reports.set_add_id x set) l init in
  NoDup set /\
  (forall x, In x set <-> In x init \/ In x l) /\
  (List.length init <= List.length set <=
   List.length init + List.length l)%nat.
Proof.
  revert init. induction l as [| y rest IH]; intros init Hnd; simpl.
  - split; [exact Hnd |]. split; [| lia].
    intros x. split; [now left | now intros [H | []]].
  - unfold Reports.set_add_id at 2 4 6 8.
    destruct (existsb (Z.eqb y) init) eqn:E.
    + destruct (IH init Hnd) as (H1 & H2 & H3).
      split; [exact H1 |]. split; [| lia].
      intros x. rewrite H2. split.
      * intros [H | H]; auto.
      * intros [H | [<- | H]]; auto.
        left. apply existsb_exists in E as (z & Hz & Hyz).
        apply Z.eqb_eq in Hyz. now subst.
    + assert (Hnot : ~ In y init).
      { intros Hin. apply not_true_iff_false in E. apply E.
        apply existsb_exists. exists y. split; [exact Hin |].
        apply Z.eqb_refl. }
      assert (Hnd' : NoDup (init ++ [y])%list).
      { apply NoDup_app; [exact Hnd | constructor; [intros [] | constructor]
                          |].
        intros x Hx [<- | []]. contradiction. }
      destruct (IH (init ++ [y])%list Hnd') as (H1 & H2 & H3).
      rewrite length_app in H3. simpl in H3.
      split; [exact H1 |]. split; [| lia].
      intros x. rewrite H2, in_app_iff. simpl. tauto.
Qed.

Lemma new_Set_distinct (l : list Z) :
  distinct_of l (Db.checkins_.new_Set l) /\
  (List.length (Db.checkins_.new_Set l) <= List.length l)%nat.
Proof.
  destruct (set_add_fold l [] (NoDup_nil _)) as (H1 & H2 & H3).
  unfold distinct_of, Db.checkins_.new_Set.
  split; [split; [exact H1 |] | exact (proj2 H3)].
  intros x. rewrite (H2 x). simpl. tauto.
Qed.

(** The week statistics of an employee: [total_checkins] counts the
    employee's check-ins of the last seven days, [unique_clients] the
    distinct clients among them; so there are at most as many clients as
    check-ins, and none exactly when there is no check-in. *)
Theorem week_stats_counts (s : Store) (employeeId now : Z) :
  let stats := Db.checkins_.getWeekStatsByEmployeeId s employeeId now in
  let week := filter (in_week employeeId now) (checkins s) in
  fst stats = List.length week /\
  (exists U, distinct_of (map Checkin.client_id week) U /\
             snd stats = List.length U) /\
  (snd stats <= fst stats)%nat /\
  (fst stats <= List.length (Db.checkins_.getByEmployeeId s employeeId))%nat /\
  (snd stats = 0%nat <-> fst stats = 0%nat).
Proof.
  intros stats week.
  assert (Hweek : stats =
                  (List.length week,
                   List.length (Db.checkins_.new_Set
                                  (map Checkin.client_id week)))).
  { unfold stats, week, Db.checkins_.getWeekStatsByEmployeeId.
    rewrite (filter_ext _ (in_week employeeId now)); [reflexivity |].
    intros c. unfold in_week.
    now destruct (Checkin.employee_id c =? employeeId)%Z. }
  rewrite Hweek. cbn [fst snd].
  destruct (new_Set_distinct (map Checkin.client_id week))
    as ((Hnd & Hin) & Hlen).
  rewrite length_map in Hlen.
  split; [reflexivity |].
  split; [exists (Db.checkins_.new_Set (map Checkin.client_id week));
          split; [split; assumption | reflexivity] |].
  split; [exact Hlen |]. split.
  - unfold week, Db.checkins_.getByEmployeeId.
    clear. induction (checkins s) as [| c rest IH]; simpl; [lia |].
    unfold in_week at 1.
    destruct (Checkin.employee_id c =? employeeId)%Z; simpl.
    + destruct (now - 604800000 <=? Checkin.checkin_time c)%Z; simpl; lia.
    + exact IH.
  - split; [| lia]. intros H0.
    apply length_zero_iff_nil in H0.
    destruct week as [| c rest]; [reflexivity |].
    specialize (Hin (Checkin.client_id c)). rewrite H0 in Hin.
    destruct (proj2 Hin (or_introl eq_refl)).
Qed.

End TeamStatistics.

(** ** The counts of the daily summary *)

Section SummaryCounts.

Lemma list_sum_perm (l l' : list nat) :
  Permutation l l' -> list_sum l = list_sum l'.
Proof.
  induction 1 as [| x l l' _ IH | x y l | l l' l'' _ IH1 _ IH2]; simpl; lia.
Qed.

Lemma positive_le_sum {A : Type} (f : A -> nat) (l : list A) :
  (List.length (filter (fun x => (0 <? f x)%nat) l) <=
   list_sum (map f l))%nat.
Proof.
  induction l as [| x rest IH]; simpl; [lia |].
  destruct (0 <? f x)%nat eqn:E; simpl; [| lia].
  apply Nat.ltb_lt in E. lia.
Qed.

Lemma NoDup_single (a : Z) (l : list Z) :
  NoDup l -> (forall x, In x l -> x = a) -> (List.length l <= 1)%nat.
Proof.
  intros Hnd Hall. destruct l as [| x [| y rest]]; simpl; try lia.
  exfalso. inversion Hnd as [| ? ? Hnot _]; subst. apply Hnot.
  rewrite (Hall x) by now left. rewrite (Hall y) by (right; now left).
  now left.
Qed.

Lemma key_count (x : Z) (keys : list Z) :
  NoDup keys ->
  list_sum (map (fun k => if (x =? k)%Z then 1%nat else 0%nat) keys) =
  if existsb (Z.eqb x) keys then 1%nat else 0%nat.
Proof.
  induction 1 as [| k rest Hnot _ IH]; simpl; [reflexivity |].
  rewrite IH. destruct (x =? k)%Z eqn:E; simpl; [| reflexivity].
  apply Z.eqb_eq in E. subst k.
  destruct (existsb (Z.eqb x) rest) eqn:Hex; [| reflexivity].
  apply existsb_exists in Hex as (z & Hz & Hxz).
  apply Z.eqb_eq in Hxz. subst z. contradiction.
Qed.

Lemma list_sum_plus {A : Type} (f g : A -> nat) (l : list A) :
  list_sum (map (fun a => (f a + g a)%nat) l) =
  (list_sum (map f l) + list_sum (map g l))%nat.
Proof.
  induction l as [| a rest IH]; simpl; lia.
Qed.

(** The counted rows are split among the keys. *)
Lemma counted_by_sum (keys : list Z) (rows : list Reports.Row.t) :
  NoDup keys ->
  List.length (counted_by keys rows) =
  list_sum (map (fun k => List.length (rows_of k rows)) keys).
Proof.
  intros Hnd. induction rows as [| r rest IH].
  - unfold counted_by, rows_of. simpl.
    induction keys as [| k ks IHk]; simpl; [reflexivity |].
    inversion Hnd; subst. now rewrite <- IHk.
  - rewrite (map_ext _ (fun k =>
               ((if (Reports.Row.employee_id r =? k)%Z then 1 else 0) +
                List.length (rows_of k rest))%nat)).
    + rewrite list_sum_plus, key_count by exact Hnd. rewrite <- IH.
      unfold counted_by. simpl.
      destruct (existsb (Z.eqb (Reports.Row.employee_id r)) keys);
        simpl; lia.
    + intros k. unfold rows_of. simpl.
      destruct (Reports.Row.employee_id r =? k)%Z; simpl; lia.
Qed.

Lemma process_unique (rows : list Reports.Row.t) (t : Reports.Totals) :
  Reports.uniqueClients (fold_left Reports.process_checkin rows t) =
  fold_left (fun set x => Reports.set_add_id x set)
            (map Reports.Row.client_id
                 (counted_by (map fst (Reports.employeeMap t)) rows))
            (Reports.uniqueClients t).
Proof.
  revert t. induction rows as [| r rest IH]; intros t; simpl;
    [reflexivity |].
  rewrite IH, process_keys. unfold counted_by. simpl.
  rewrite map_get_existsb. unfold Reports.process_checkin.
  destruct (Reports.map_get (Reports.Row.employee_id r)
                            (Reports.employeeMap t)); reflexivity.
Qed.

(** The counts of [build], in terms of its breakdown. *)
Lemma build_counts (d : Z) (p : Reports.EmployeeParam)
      (members : list Reports.Member.t) (rows : list Reports.Row.t) :
  exists team breakdown,
    Reports.build d p members rows = Reports.Summary d team breakdown /\
    Reports.TeamSummary.total_checkins team =
      List.length (counted breakdown rows) /\
    Reports.TeamSummary.total_checkins team =
      list_sum (map Reports.Entry.total_checkins breakdown) /\
    Reports.TeamSummary.employees_with_checkins team =
      List.length (with_checkins_entries breakdown) /\
    exists U,
      distinct_of (map Reports.Row.client_id (counted breakdown rows)) U /\
      Reports.TeamSummary.unique_clients_visited team = List.length U.
Proof.
  unfold Reports.build, Reports.aggregate.
  set (m0 := fold_left (Reports.init_member p) members []).
  set (t0 := Reports.mkTotals m0 0 0 [] 0 0).
  destruct (init_map_invariant p members [] (NoDup_nil _) (Forall_nil _))
    as (Hnd & Hfresh & _). fold m0 in Hnd, Hfresh.
  assert (Hmap : Reports.employeeMap
                   (fold_left Reports.process_checkin rows t0) =
                 map (absorb rows) m0) by now apply process_map.
  destruct (process_totals rows t0) as (Hc & _). simpl in Hc.
  pose proof (process_unique rows t0) as Hu. simpl in Hu.
  destruct (finalized_entries rows m0 Hfresh) as (Hids & Hcounts & _).
  eexists _, _. split; [reflexivity |]. simpl. rewrite Hmap.
  set (values := map snd (map (absorb rows) m0)) in *.
  set (breakdown := Reports.sort_breakdown (map Reports.finalize values)).
  assert (Hsort : Permutation breakdown (map Reports.finalize values))
    by apply sort_breakdown_perm.
  assert (Hperm : Permutation (map Reports.Entry.employee_id breakdown)
                              (map fst m0)).
  { rewrite <- Hids. now apply Permutation_map. }
  rewrite (counted_keys breakdown (map fst m0) rows Hperm).
  split; [exact Hc |]. split; [| split].
  - rewrite Hc, counted_by_sum by exact Hnd.
    rewrite (list_sum_perm _ _ (Permutation_map _ Hsort)).
    rewrite <- Hids, !map_map. f_equal. apply map_ext_in.
    intros v Hv. rewrite Forall_forall in Hcounts.
    destruct (Hcounts (Reports.finalize v)) as [Htc _];
      [now apply in_map |].
    symmetry. exact Htc.
  - unfold with_checkins_entries.
    rewrite (filter_length_perm _ _ _ Hsort).
    rewrite <- (filter_map_length Reports.finalize
                  (fun e => (0 <? Reports.Entry.total_checkins e)%nat)).
    reflexivity.
  - destruct (set_add_fold
                (map Reports.Row.client_id (counted_by (map fst m0) rows))
                [] (NoDup_nil _)) as (H1 & H2 & _).
    rewrite <- Hu in H1, H2.
    exists (Reports.uniqueClients
              (fold_left Reports.process_checkin rows t0)).
    split; [| reflexivity]. split; [exact H1 |].
    intros x. rewrite (H2 x). simpl. tauto.
Qed.

(** In a daily summary [total_checkins] of the team is the number of counted
    check-ins and the sum of the entries' [total_checkins];
    [employees_with_checkins] is the number of entries with at least one
    check-in; [unique_clients_visited] is the number of distinct clients of
    the counted check-ins.  So there are at most as many employees with
    check-ins, and at most as many clients, as check-ins, and at most
    [total_employees] entries. *)
Theorem daily_summary_counts
        (s : Store) (managerId d : Z) (p : Reports.EmployeeParam)
        (team : Reports.TeamSummary.t) (breakdown : list Reports.Entry.t)
        (Hsummary : Reports.daily_summary s managerId (Reports.Day d) p =
                    Reports.Summary d team breakdown) :
  let rows := Reports.checkinsQuery s managerId d p in
  Reports.TeamSummary.total_checkins team =
    List.length (counted breakdown rows) /\
  Reports.TeamSummary.total_checkins team =
    list_sum (map Reports.Entry.total_checkins breakdown) /\
  Reports.TeamSummary.employees_with_checkins team =
    List.length (with_checkins_entries breakdown) /\
  (exists U,
     distinct_of (map Reports.Row.client_id (counted breakdown rows)) U /\
     Reports.TeamSummary.unique_clients_visited team = List.length U) /\
  (Reports.TeamSummary.employees_with_checkins team <=
   Reports.TeamSummary.total_checkins team)%nat /\
  (Reports.TeamSummary.unique_clients_visited team <=
   Reports.TeamSummary.total_checkins team)%nat /\
  (List.length breakdown <= Reports.TeamSummary.total_employees team)%nat.
Proof.
  intros rows.
  assert (Hmain :
    Reports.TeamSummary.total_checkins team =
      List.length (counted breakdown rows) /\
    Reports.TeamSummary.total_checkins team =
      list_sum (map Reports.Entry.total_checkins breakdown) /\
    Reports.TeamSummary.employees_with_checkins team =
      List.length (with_checkins_entries breakdown) /\
    (exists U,
       distinct_of (map Reports.Row.client_id (counted breakdown rows)) U /\
       Reports.TeamSummary.unique_clients_visited team = List.length U) /\
    (List.length breakdown <= Reports.TeamSummary.total_employees team)%nat).
  { unfold Reports.daily_summary in Hsummary.
    destruct (List.length (Reports.teamMembers s managerId) =? 0)%nat.
    - injection Hsummary as <- <-.
      assert (Hnone : counted [] rows = []).
      { unfold counted. simpl. induction rows; simpl; auto. }
      rewrite Hnone. simpl. repeat split; try lia.
      exists []. repeat split; try constructor; intros [].
    - assert (Hbuild : Reports.build d p (Reports.teamMembers s managerId)
                                     rows
                       = Reports.Summary d team breakdown)
        by (destruct p; [exact Hsummary | discriminate | exact Hsummary]).
      destruct (build_counts d p (Reports.teamMembers s managerId) rows)
        as (team' & breakdown' & Hbuild' & H1 & H2 & H3 & H4).
      rewrite Hbuild in Hbuild'. injection Hbuild' as <- <-.
      repeat (split; [assumption |]).
      destruct (build_spec d p (Reports.teamMembers s managerId) rows)
        as (team' & breakdown' & keys & Hbuild' & Hnd & Hkeys & Hperm & _).
      rewrite Hbuild in Hbuild'. injection Hbuild' as <- <-.
      rewrite <- (length_map Reports.Entry.employee_id breakdown).
      rewrite (Permutation_length Hperm).
      assert (Hteam : Reports.TeamSummary.total_employees team =
                      match p with
                      | Reports.NoEmployee =>
                          List.length (Reports.teamMembers s managerId)
                      | _ => 1%nat
                      end).
      { unfold Reports.build in Hbuild. injection Hbuild as <- _.
        reflexivity. }
      rewrite Hteam. destruct p as [| | id]; [| discriminate |].
      + rewrite <- (length_map Reports.Member.id
                      (Reports.teamMembers s managerId)).
        apply NoDup_incl_length; [exact Hnd |].
        intros k Hk. apply Hkeys in Hk as (member & Hin & _ & <-).
        now apply in_map.
      + apply (NoDup_single id); [exact Hnd |].
        intros k Hk. apply Hkeys in Hk as (member & _ & Hskip & <-).
        simpl in Hskip. apply negb_false_iff, Z.eqb_eq in Hskip.
        exact Hskip. }
  destruct Hmain as (H1 & H2 & H3 & (U & HU & HlenU) & H5).
  split; [exact H1 |]. split; [exact H2 |]. split; [exact H3 |].
  split; [exists U; split; assumption |].
  split; [| split; [| exact H5]].
  - rewrite H3, H2. unfold with_checkins_entries. apply positive_le_sum.
  - rewrite HlenU, H1.
    rewrite <- (length_map Reports.Row.client_id (counted breakdown rows)).
    destruct HU as [Hnd Hin]. apply NoDup_incl_length; [exact Hnd |].
    intros x Hx. now apply Hin.
Qed.

Lemma daily_summary_counts_witness :
  exists team breakdown,
    Reports.daily_summary Db.seed 1 (Reports.Day 19737) Reports.NoEmployee =
      Reports.Summary 19737 team breakdown /\
    (Reports.TeamSummary.unique_clients_visited team <=
     Reports.TeamSummary.total_checkins team)%nat.
Proof.
  destruct (Reports.daily_summary Db.seed 1 (Reports.Day 19737)
                                  Reports.NoEmployee)
    as [st msg | d team breakdown] eqn:E; [discriminate |].
  assert (Hd : d = 19737%Z) by (injection E as <- _ _; reflexivity).
  subst d. exists team, breakdown. split; [reflexivity |].
  exact (proj1 (proj2 (proj2 (proj2 (proj2 (proj2
           (daily_summary_counts Db.seed 1 19737 Reports.NoEmployee
              team breakdown E))))))).
Defined.

(** With an [employee_id] filter and a team that is not empty, the summary
    reports [total_employees] 1, and its breakdown has only entries of that
    employee: one when the employee belongs to the team, none otherwise. *)
Theorem daily_summary_employee_filter
        (s : Store) (managerId d id : Z)
        (Hteam : Reports.teamMembers s managerId <> []) :
  exists team breakdown,
    Reports.daily_summary s managerId (Reports.Day d) (Reports.Employee id) =
      Reports.Summary d team breakdown /\
    Reports.TeamSummary.total_employees team = 1%nat /\
    Forall (fun e => Reports.Entry.employee_id e = id) breakdown /\
    List.length breakdown =
      (if team_member s managerId id then 1%nat else 0%nat).
Proof.
  unfold Reports.daily_summary.
  destruct (List.length (Reports.teamMembers s managerId) =? 0)%nat eqn:Hlen.
  { apply Nat.eqb_eq, length_zero_iff_nil in Hlen. contradiction. }
  destruct (build_spec d (Reports.Employee id)
              (Reports.teamMembers s managerId)
              (Reports.checkinsQuery s managerId d (Reports.Employee id)))
    as (team & breakdown & keys & Hbuild & Hnd & Hkeys & Hperm & _).
  exists team, breakdown. split; [exact Hbuild |].
  assert (Hall : forall k, In k keys -> k = id).
  { intros k Hk. apply Hkeys in Hk as (member & _ & Hskip & <-).
    simpl in Hskip. now apply negb_false_iff, Z.eqb_eq in Hskip. }
  split; [| split].
  - unfold Reports.build in Hbuild. injection Hbuild as <- _. reflexivity.
  - apply Forall_forall. intros e He. apply Hall.
    apply (Permutation_in _ Hperm). now apply in_map.
  - rewrite <- (length_map Reports.Entry.employee_id breakdown).
    rewrite (Permutation_length Hperm).
    pose proof (NoDup_single id keys Hnd Hall) as Hle.
    unfold team_member.
    destruct (existsb (Z.eqb id)
                (map Reports.Member.id (Reports.teamMembers s managerId)))
      eqn:Hex.
    + apply existsb_exists in Hex as (k & Hk & Hidk).
      apply Z.eqb_eq in Hidk. subst k.
      apply in_map_iff in Hk as (member & Hmid & Hmember).
      assert (Hin : In id keys).
      { apply Hkeys. exists member. split; [exact Hmember |].
        split; [| exact Hmid]. simpl. rewrite Hmid, Z.eqb_refl.
        reflexivity. }
      destruct keys; [destruct Hin | simpl in *; lia].
    + destruct keys as [| k ks]; [reflexivity |]. exfalso.
      apply not_true_iff_false in Hex. apply Hex.
      destruct (proj1 (Hkeys k) (or_introl eq_refl))
        as (member & Hmember & _ & Hmid).
      apply existsb_exists. exists k. split.
      * rewrite <- Hmid. now apply in_map.
      * rewrite (Hall k) by now left. apply Z.eqb_refl.
Qed.

Lemma daily_summary_employee_filter_witness :
  exists team breakdown,
    Reports.daily_summary Db.seed 1 (Reports.Day 19737)
                          (Reports.Employee 9) =
      Reports.Summary 19737 team breakdown /\
    Reports.TeamSummary.total_employees team = 1%nat /\
    breakdown = [].
Proof.
  destruct (daily_summary_employee_filter Db.seed 1 19737 9)
    as (team & breakdown & Hsum & Hone & _ & Hlen).
  - discriminate.
  - exists team, breakdown. split; [exact Hsum |]. split; [exact Hone |].
    apply length_zero_iff_nil. exact Hlen.
Defined.

End SummaryCounts.

(** ** The first Express revision on its engine *)

Section LatestCheckout.

Lemma latest_max (rows : list Checkin.t) (r : Checkin.t)
      (l : list Checkin.t) :
  Sql.latest rows = r :: l ->
  l = [] /\
  Forall (fun c => (Checkin.checkin_time c <= Checkin.checkin_time r)%Z)
         rows.
Proof.
  revert r l. induction rows as [| c rest IH]; intros r l; simpl;
    [discriminate |].
  destruct (Sql.latest rest) as [| r' l'] eqn:E.
  - intros H. injection H as <- <-. apply latest_nil in E. subst rest.
    split; [reflexivity |]. constructor; [lia | constructor].
  - destruct (IH r' l' eq_refl) as [_ Hall].
    destruct (Checkin.checkin_time c <? Checkin.checkin_time r')%Z eqn:Hlt;
      intros H; injection H as <- <-; (split; [reflexivity |]).
    + apply Z.ltb_lt in Hlt. constructor; [lia | exact Hall].
    + apply Z.ltb_ge in Hlt. constructor; [lia |].
      eapply Forall_impl; [| exact Hall]. simpl. intros a Ha. lia.
Qed.



End LatestCheckout.

(** ** The daily summary on binary64 numbers *)

Section Summary64Facts.

























(** The seed data on 2024-01-15 in numbers: 12.25 hours for the team, 6.75
    and 5.5 for the two employees with check-ins; every average distance is
    0.03, and the employee without check-ins has none. *)
Example seed_daily_summary_values :
  exists team breakdown,
    Reports64.daily_summary (Reports.Day 19737) Reports.NoEmployee
                            seed_members seed_rows64 =
      Reports64.Summary 19737 team breakdown /\
    Reports64.TeamSummary.total_hours_worked team = 12.25%float /\
    Reports64.TeamSummary.average_distance_from_client team =
      Some 0.03%float /\
    map Reports64.Entry.hours_worked breakdown =
      [6.75%float; 5.5%float; 0%float] /\
    map Reports64.Entry.average_distance breakdown =
      [Some 0.03%float; Some 0.03%float; None] /\
    map (fun e => map Reports64.Detail.hours_worked
                      (Reports64.Entry.checkins e)) breakdown =
      [[2.25%float; 2%float; 2.5%float]; [2.5%float; 3%float]; []].
Proof.
  eexists. eexists. split; [reflexivity |].
  repeat split.
Qed.

(** [Math.round] and the two-decimal rounding on a few numbers: ties go up,
    also for negative numbers; the number written 1.005 lies below the tie
    and rounds to 1. *)
Example round_values :
  map Js64.round [2.5%float; (-2.5)%float; 0.49999999999999994%float;
                  (-0.2)%float; 1e21%float] =
    [3%float; (-2)%float; 0%float; (-0)%float; 1e21%float] /\
  map Js64.round2 [2.25%float; 0.125%float; 1.005%float; 0.035%float] =
    [2.25%float; 0.13%float; 1%float; 0.04%float].
Proof. split; reflexivity. Qed.



End Summary64Facts.
